(** * Account orchestration of manod-tools: a shallow embedding

    The development follows [process.py] (account selection, resource
    cycling, the retry executor, the per-account pipeline and the batch
    entry point), [src/model/start.py] (the [Start] instance with its
    [initialize] and [flow] operations), [src/model/monad_xyz/instance.py]
    (the swap handlers of [MonadXYZ]), [src/model/help/stats.py] (the
    wallet statistics of the logs task), [src/utils/logs.py] (the two
    outcome reporters) and [src/utils/reader.py].

    Python integers are [Z], Python lists are [list], strings are
    [string], read as sequences of code points below 256.  Code that can
    raise returns a [Res]; code that also has effects (random draws,
    sleeps, calls to collaborators, ledger appends) is a
    state-and-exception monad [M] over the record [St].  The outside world
    (the random source, the HTTP client factory, the key derivation, the
    swap and RPC calls, the file system below the ledger roots) is an
    explicit [Env] of scripts, so that every definition computes. *)

From Stdlib Require Import ZArith Lia String Ascii DecimalString.
From stdpp Require Import base list.

Local Open Scope string_scope.
Local Open Scope list_scope.
Set Warnings "-register-all".

(** ** Python values, exceptions, results *)

(** The values an awaited operation can hand back to the retry executor. *)
Inductive PyVal :=
| VNone
| VBool (b : bool)
| VInt (z : Z)
| VStr (s : string)
| VTuple (items : list PyVal).

(** Subclasses of [Exception] that the modelled code can meet. *)
Inductive Exn :=
| IndexError
| ValueError
| ZeroDivisionError
| ExternalError (msg : string).

Inductive Res (A : Type) :=
| Ok (a : A)
| Raise (e : Exn).
Arguments Ok {A} a.
Arguments Raise {A} e.

Definition res_bind {A B} (r : Res A) (k : A -> Res B) : Res B :=
  match r with
  | Ok a => k a
  | Raise e => Raise e
  end.

(** [str(n)] for an [int]. *)
Definition py_str (z : Z) : string := NilZero.string_of_int (Z.to_int z).

(** [range(n)]: empty when [n <= 0]. *)
Definition py_range (n : Z) : list Z := map Z.of_nat (seq 0 (Z.to_nat n)).

(** [l[i]] with Python's negative indices and [IndexError]. *)
Definition py_index {A} (l : list A) (i : Z) : Res A :=
  let n := Z.of_nat (length l) in
  let j := if (i <? 0)%Z then (i + n)%Z else i in
  if (j <? 0)%Z then Raise IndexError
  else match l !! Z.to_nat j with
       | Some x => Ok x
       | None => Raise IndexError
       end.

(** [i % m] on integers: [ZeroDivisionError] when [m = 0]; otherwise the
    result has the sign of [m], which is what [Z.modulo] computes. *)
Definition py_mod (i m : Z) : Res Z :=
  if (m =? 0)%Z then Raise ZeroDivisionError else Ok (i mod m)%Z.

(** [l[lo:hi]] for integer bounds (step 1). *)
Definition py_slice {A} (l : list A) (lo hi : Z) : list A :=
  let n := Z.of_nat (length l) in
  let clamp i := if (i <? 0)%Z then Z.max 0 (i + n) else Z.min i n in
  let lo' := clamp lo in
  let hi' := clamp hi in
  take (Z.to_nat (hi' - lo')) (drop (Z.to_nat lo') l).

(** [s.lower()] for code points below 256: the cased upper-case letters
    there are A-Z and U+00C0..U+00DE without the multiplication sign
    U+00D7, and each has its lower-case form 32 positions further. *)
Definition lower_char (c : ascii) : ascii :=
  let n := nat_of_ascii c in
  if (Nat.leb 65 n && Nat.leb n 90)
     || (Nat.leb 192 n && Nat.leb n 222 && negb (Nat.eqb n 215))
  then ascii_of_nat (n + 32) else c.

Fixpoint lower (s : string) : string :=
  match s with
  | EmptyString => EmptyString
  | String c s' => String (lower_char c) (lower s')
  end.

(** ** Observable events and the state threaded through the code *)

Inductive Event :=
| EInvoke (n : nat)                 (* n-th call of a scripted operation *)
| ESleep (seconds : Z)              (* asyncio.sleep(seconds) *)
| EInitialize                       (* Start.initialize entered *)
| EFlow                             (* Start.flow entered *)
| EPlan (plan : list string)        (* "Task execution plan" log line *)
| ETask (task : string)             (* a task handler was awaited *)
| EUnknownTask (task : string)      (* "Unknown task" warning *)
| EReport (succeeded : bool) (index : option Z). (* a reporter was entered *)

(** [primp.AsyncClient] as far as the pipeline looks at it. *)
Record Session := mkSession { session_proxy : string }.

(** The three files below one ledger root, as the lines appended so far. *)
Record Ledger := mkLedger {
  account_indices_txt : list string;
  proxies_txt : list string;
  discord_tokens_txt : list string;
}.

Definition empty_ledger : Ledger := mkLedger [] [] [].

Record St := mkSt {
  trace : list Event;          (* events so far, oldest first *)
  rng_pos : nat;               (* draws taken from the random source *)
  op_calls : nat;              (* calls of the scripted operation *)
  client_calls : nat;          (* calls of create_client *)
  handler_calls : nat;         (* task handlers awaited *)
  io_calls : nat;              (* file-system calls of the reporters *)
  session : option Session;    (* self.session of the Start instance *)
  success_data : Ledger;       (* data/success_data *)
  error_data : Ledger;         (* data/error_data *)
}.

Definition st0 : St := mkSt [] 0 0 0 0 0 None empty_ledger empty_ledger.

(** The collaborators the code calls out to, as scripts indexed by the
    number of calls made so far. *)
Record Env := mkEnv {
  rng : nat -> Z;                        (* raw draws of the random source *)
  create_client : nat -> option Exn;     (* None: a client is returned *)
  from_key : string -> option Exn;       (* Account.from_key(private_key) *)
  izumi_swap : nat -> Res PyVal;         (* the awaited swapper.swap calls *)
  wallet_stats : nat -> option Exn;      (* RPC reads of get_wallet_stats *)
  ledger_io : nat -> option Exn;         (* os.makedirs, open/write/close *)
}.

(** ** The state-and-exception monad *)

Definition M (A : Type) : Type := St -> Res A * St.

Definition ret {A} (a : A) : M A := fun s => (Ok a, s).

Definition raise {A} (e : Exn) : M A := fun s => (Raise e, s).

Definition bind {A B} (m : M A) (k : A -> M B) : M B :=
  fun s => match m s with
           | (Ok a, s') => k a s'
           | (Raise e, s') => (Raise e, s')
           end.

(** [try: body except Exception as e: handler(e)] *)
Definition try_except {A} (body : M A) (handler : Exn -> M A) : M A :=
  fun s => match body s with
           | (Ok a, s') => (Ok a, s')
           | (Raise e, s') => handler e s'
           end.

Definition lift {A} (r : Res A) : M A := fun s => (r, s).

Notation "x <- c ;; k" := (bind c (fun x => k))
  (at level 100, c at next level, right associativity).
Notation "c ;;; k" := (bind c (fun _ => k))
  (at level 100, right associativity).

(** Field updates of [St]. *)
Definition set_trace (t : list Event) (s : St) : St :=
  mkSt t (rng_pos s) (op_calls s) (client_calls s) (handler_calls s)
       (io_calls s) (session s) (success_data s) (error_data s).
Definition set_rng_pos (n : nat) (s : St) : St :=
  mkSt (trace s) n (op_calls s) (client_calls s) (handler_calls s)
       (io_calls s) (session s) (success_data s) (error_data s).
Definition set_op_calls (n : nat) (s : St) : St :=
  mkSt (trace s) (rng_pos s) n (client_calls s) (handler_calls s)
       (io_calls s) (session s) (success_data s) (error_data s).
Definition set_client_calls (n : nat) (s : St) : St :=
  mkSt (trace s) (rng_pos s) (op_calls s) n (handler_calls s)
       (io_calls s) (session s) (success_data s) (error_data s).
Definition set_handler_calls (n : nat) (s : St) : St :=
  mkSt (trace s) (rng_pos s) (op_calls s) (client_calls s) n
       (io_calls s) (session s) (success_data s) (error_data s).
Definition set_io_calls (n : nat) (s : St) : St :=
  mkSt (trace s) (rng_pos s) (op_calls s) (client_calls s) (handler_calls s)
       n (session s) (success_data s) (error_data s).
Definition set_session (x : option Session) (s : St) : St :=
  mkSt (trace s) (rng_pos s) (op_calls s) (client_calls s) (handler_calls s)
       (io_calls s) x (success_data s) (error_data s).
Definition set_success_data (l : Ledger) (s : St) : St :=
  mkSt (trace s) (rng_pos s) (op_calls s) (client_calls s) (handler_calls s)
       (io_calls s) (session s) l (error_data s).
Definition set_error_data (l : Ledger) (s : St) : St :=
  mkSt (trace s) (rng_pos s) (op_calls s) (client_calls s) (handler_calls s)
       (io_calls s) (session s) (success_data s) l.

Definition get {A} (f : St -> A) : M A := fun s => (Ok (f s), s).
Definition modify (f : St -> St) : M unit := fun s => (Ok tt, f s).

Definition emit (e : Event) : M unit :=
  modify (fun s => set_trace (trace s ++ [e]) s).

Definition draw (env : Env) : M Z :=
  n <- get rng_pos ;;
  modify (set_rng_pos (S n)) ;;;
  ret (rng env n).

(** [random.randint(a, b)]: [ValueError] on an empty range, otherwise a
    value of [a..b] taken from the next raw draw. *)
Definition randint (env : Env) (range : Z * Z) : M Z :=
  let '(a, b) := range in
  if (b <? a)%Z then raise ValueError
  else r <- draw env ;; ret (a + r mod (b - a + 1))%Z.

(** [asyncio.sleep] *)
Definition sleep (seconds : Z) : M unit := emit (ESleep seconds).

(** ** Configuration (src/utils/config.py) *)

Inductive TaskItem :=
| Single (task : string)
| Alternatives (tasks : list string).

Record SettingsConfig := mkSettings {
  THREADS : Z;
  ATTEMPTS : Z;
  ACCOUNTS_RANGE : Z * Z;
  EXACT_ACCOUNTS_TO_USE : list Z;
  PAUSE_BETWEEN_ATTEMPTS : Z * Z;
  PAUSE_BETWEEN_SWAPS : Z * Z;
  RANDOM_PAUSE_BETWEEN_ACCOUNTS : Z * Z;
  RANDOM_PAUSE_BETWEEN_ACTIONS : Z * Z;
  RANDOM_INITIALIZATION_PAUSE : Z * Z;
}.

Record FlowConfig := mkFlow {
  TASKS : list TaskItem;
  NUMBER_OF_SWAPS : Z * Z;
  PERCENT_OF_BALANCE_TO_SWAP : Z * Z;
}.

Record Config := mkConfig { SETTINGS : SettingsConfig; FLOW : FlowConfig }.

(** ** process.py: the retry executor *)

(** The two tests of [_execute_with_retries] on an awaited result:
    [isinstance(result, tuple) and result[0] is True], then
    [isinstance(result, bool) and result].  [result[0]] on an empty tuple
    raises [IndexError]. *)
Definition is_success (result : PyVal) : Res bool :=
  match result with
  | VTuple [] => Raise IndexError
  | VTuple (VBool true :: _) => Ok true
  | VTuple (_ :: _) => Ok false
  | VBool b => Ok b
  | _ => Ok false
  end.

(** The body of [for attempt in range(ATTEMPTS)], on the attempts left. *)
Fixpoint retry_loop (env : Env) (function : M PyVal) (config : Config)
    (attempts : list Z) : M bool :=
  match attempts with
  | [] => ret false
  | attempt :: rest =>
      result <- function ;;
      ok <- lift (is_success result) ;;
      if ok : bool then ret true
      else
        (if (attempt <? ATTEMPTS (SETTINGS config) - 1)%Z
         then pause <- randint env (PAUSE_BETWEEN_ATTEMPTS (SETTINGS config)) ;;
              sleep pause
         else ret tt) ;;;
        retry_loop env function config rest
  end.

Definition _execute_with_retries (env : Env) (function : M PyVal)
    (config : Config) : M bool :=
  retry_loop env function config (py_range (ATTEMPTS (SETTINGS config))).

(** An operation whose n-th invocation does what [script n] says; every
    invocation is recorded.  This is the general shape of an awaitable
    handed to the executor, seen from the executor. *)
Definition scripted (script : nat -> Res PyVal) : M PyVal :=
  n <- get op_calls ;;
  modify (set_op_calls (S n)) ;;;
  emit (EInvoke n) ;;;
  lift (script n).

(** [_random_sleep(range_seconds, log_msg)] *)
Definition _random_sleep (env : Env) (range_seconds : Z * Z) : M unit :=
  pause <- randint env range_seconds ;;
  sleep pause.

(** ** src/model/start.py: the Start instance *)

Record Start := mkStart {
  account_index : Z;
  proxy : string;
  private_key : string;
  discord_token : string;
  email : string;
  config : Config;
}.

(** [Start(...)]: the fields are stored and [self.session] starts as
    [None]. *)
Definition new_Start (account_index : Z) (proxy private_key discord_token
    email : string) (config : Config) : M Start :=
  modify (set_session None) ;;;
  ret (mkStart account_index proxy private_key discord_token email config).

(** [create_client(self.proxy)] of src/utils/client.py: the library calls
    inside it either raise or yield a client carrying the proxy. *)
Definition call_create_client (env : Env) (proxy : string) : M Session :=
  n <- get client_calls ;;
  modify (set_client_calls (S n)) ;;;
  match create_client env n with
  | None => ret (mkSession proxy)
  | Some e => raise e
  end.

(** [Start.initialize] *)
Definition initialize (env : Env) (self : Start) : M PyVal :=
  emit EInitialize ;;;
  try_except
    (sess <- call_create_client env (proxy self) ;;
     modify (set_session (Some sess)) ;;;
     ret (VBool true))
    (fun _ => ret (VBool false)).

(** [random.choice(seq)]: [IndexError] on an empty sequence. *)
Definition choice (env : Env) (seq : list string) : M string :=
  match seq with
  | [] => raise IndexError
  | _ => r <- draw env ;;
         lift (py_index seq (r mod Z.of_nat (length seq))%Z)
  end.

(** The planning loop of [Start.flow]: one task name per configured slot,
    an alternative slot being resolved by [random.choice]. *)
Fixpoint plan_tasks (env : Env) (tasks : list TaskItem) : M (list string) :=
  match tasks with
  | [] => ret []
  | Single task :: rest =>
      planned <- plan_tasks env rest ;;
      ret (task :: planned)
  | Alternatives task_item :: rest =>
      selected_task <- choice env task_item ;;
      planned <- plan_tasks env rest ;;
      ret (selected_task :: planned)
  end.

(** ** src/model/monad_xyz/instance.py: the swap handlers of [MonadXYZ]

    The [MonadXYZ] instance that [flow] builds carries the private key,
    the proxy and the configuration of its [Start] instance, so the
    handlers below read them from [self : Start].  [swap] stands for the
    awaited [swapper.swap] call. *)

(** The loop of [MonadXYZ._retry_swap].  The result of the swap is
    dropped.  The pause after the swap is inside the [try] block. *)
Fixpoint retry_swap_loop (env : Env) (config : Config) (swap : M PyVal)
    (retries : list Z) : M bool :=
  match retries with
  | [] => ret false
  | retry :: rest =>
      returned <-
        try_except
          (_ <- swap ;;
           pause <- randint env (PAUSE_BETWEEN_SWAPS (SETTINGS config)) ;;
           sleep pause ;;;
           ret (Some true))
          (fun _ =>
             if (retry =? ATTEMPTS (SETTINGS config) - 1)%Z
             then ret (Some false) else ret None) ;;
      match returned with
      | Some b => ret b
      | None => retry_swap_loop env config swap rest
      end
  end.

Definition _retry_swap (env : Env) (config : Config) (swap : M PyVal)
    : M bool :=
  retry_swap_loop env config swap (py_range (ATTEMPTS (SETTINGS config))).

(** The constructors [IzumiDex(private_key, proxy, config)] and
    [MonadSwap(private_key, proxy)]: both derive the account from the
    key. *)
Definition new_swapper (env : Env) (self : Start) : M unit :=
  match from_key env (private_key self) with
  | None => ret tt
  | Some e => raise e
  end.

(** The loop of [MonadXYZ._izumi_swaps]: the arguments of [_retry_swap]
    are evaluated first (the swapper, then the percentage), and the first
    swap that fails ends the loop. *)
Fixpoint izumi_swaps_loop (env : Env) (self : Start) (swap : M PyVal)
    (swap_nums : list Z) : M bool :=
  match swap_nums with
  | [] => ret true
  | _ :: rest =>
      new_swapper env self ;;;
      _ <- randint env (PERCENT_OF_BALANCE_TO_SWAP (FLOW (config self))) ;;
      success <- _retry_swap env (config self) swap ;;
      if success : bool then izumi_swaps_loop env self swap rest
      else ret false
  end.

Definition _izumi_swaps (env : Env) (self : Start) (swap : M PyVal)
    : M bool :=
  number_of_swaps <- randint env (NUMBER_OF_SWAPS (FLOW (config self))) ;;
  izumi_swaps_loop env self swap (py_range number_of_swaps).

(** The loop of [MonadXYZ._uniswap_swaps]: as above, with a token drawn
    by [random.choice] from three names. *)
Fixpoint uniswap_swaps_loop (env : Env) (self : Start) (swap : M PyVal)
    (swap_nums : list Z) : M bool :=
  match swap_nums with
  | [] => ret true
  | _ :: rest =>
      new_swapper env self ;;;
      _ <- randint env (PERCENT_OF_BALANCE_TO_SWAP (FLOW (config self))) ;;
      _ <- choice env ["DAK"; "YAKI"; "CHOG"] ;;
      success <- _retry_swap env (config self) swap ;;
      if success : bool then uniswap_swaps_loop env self swap rest
      else ret false
  end.

Definition _uniswap_swaps (env : Env) (self : Start) (swap : M PyVal)
    : M bool :=
  number_of_swaps <- randint env (NUMBER_OF_SWAPS (FLOW (config self))) ;;
  uniswap_swaps_loop env self swap (py_range number_of_swaps).

(** [MonadXYZ._ambient_swaps] and [MonadXYZ._bean_swaps]: instance.py
    imports [IzumiDex] and [MonadSwap] only, so the first evaluation of
    [AmbientDex(...)] or [BeanDex(...)] in the loop raises [NameError]. *)
Definition undefined_dex_swaps (env : Env) (self : Start) (dex : string)
    : M bool :=
  number_of_swaps <- randint env (NUMBER_OF_SWAPS (FLOW (config self))) ;;
  match py_range number_of_swaps with
  | [] => ret true
  | _ :: _ => raise (ExternalError ("NameError: " ++ dex))
  end.

(** The loop of [MonadXYZ._collect_all_to_monad].  The list of swapper
    classes names [AmbientDex] and [BeanDex], so building it raises
    [NameError] inside the [try] block on every attempt; the handler
    pauses and the loop goes on. *)
Fixpoint collect_loop (env : Env) (config : Config) (retries : list Z)
    : M bool :=
  match retries with
  | [] => ret false
  | _ :: rest =>
      returned <-
        try_except
          (raise (ExternalError "NameError: AmbientDex"))
          (fun _ =>
             pause <- randint env (PAUSE_BETWEEN_ATTEMPTS (SETTINGS config)) ;;
             sleep pause ;;;
             ret None) ;;
      match returned with
      | Some b => ret b
      | None => collect_loop env config rest
      end
  end.

Definition _collect_all_to_monad (env : Env) (config : Config) : M bool :=
  collect_loop env config (py_range (ATTEMPTS (SETTINGS config))).

(** [MonadXYZ.swaps(type)]: the handler table, and the [try] around the
    handler. *)
Definition swaps (env : Env) (self : Start) (swap : M PyVal)
    (type : string) : M bool :=
  let handler :=
    if String.eqb type "swaps" then Some (_uniswap_swaps env self swap)
    else if String.eqb type "ambient" then
      Some (undefined_dex_swaps env self "AmbientDex")
    else if String.eqb type "bean" then
      Some (undefined_dex_swaps env self "BeanDex")
    else if String.eqb type "izumi" then Some (_izumi_swaps env self swap)
    else if String.eqb type "collect_all_to_monad" then
      Some (_collect_all_to_monad env (config self))
    else None in
  match handler with
  | None => ret false
  | Some h => try_except h (fun _ => ret false)
  end.

(** ** src/model/help/stats.py *)

(** [WalletStats.get_wallet_stats], awaited as the [n]-th task handler:
    the account is derived from the key, the balance and the transaction
    count are read over RPC, and [True] is returned; whatever is raised on
    the way is caught there and gives [False]. *)
Definition get_wallet_stats (env : Env) (private_key : string) (n : nat)
    : M bool :=
  try_except
    (match from_key env private_key with
     | None => ret tt
     | Some e => raise e
     end ;;;
     match wallet_stats env n with
     | None => ret true
     | Some e => raise e
     end)
    (fun _ => ret false).

(** ** src/model/start.py: the tasks of [flow] *)

(** The handler [lambda: monad.swaps(type="izumi")]; the swapper of that
    type is an [IzumiDex], whose [swap] calls are scripted by the
    environment. *)
Definition swaps_izumi (env : Env) (self : Start) : M bool :=
  n <- get handler_calls ;;
  modify (set_handler_calls (S n)) ;;;
  swaps env self (scripted (izumi_swap env)) "izumi".

(** [Start._logs_task]: an exception is logged and raised again. *)
Definition _logs_task (env : Env) (self : Start) : M unit :=
  n <- get handler_calls ;;
  modify (set_handler_calls (S n)) ;;;
  try_except
    (_ <- get_wallet_stats env (private_key self) n ;;
     ret tt)
    (fun e => raise e).

(** [Start._execute_task]: dispatch on the task name. *)
Definition _execute_task (env : Env) (self : Start) (task : string)
    : M unit :=
  if String.eqb task "izumi" then
    emit (ETask task) ;;; _ <- swaps_izumi env self ;; ret tt
  else if String.eqb task "logs" then
    emit (ETask task) ;;; _logs_task env self
  else emit (EUnknownTask task).

(** [Start._sleep] *)
Definition _sleep (env : Env) (self : Start) : M unit :=
  pause <- randint env (RANDOM_PAUSE_BETWEEN_ACTIONS (SETTINGS (config self))) ;;
  sleep pause.

(** The execution loop of [Start.flow]. *)
Fixpoint run_tasks (env : Env) (self : Start) (planned_tasks : list string)
    : M unit :=
  match planned_tasks with
  | [] => ret tt
  | task :: rest =>
      let task := lower task in
      _execute_task env self task ;;;
      _sleep env self ;;;
      run_tasks env self rest
  end.

(** [MonadXYZ(...)]: the constructor derives the wallet from the key. *)
Definition new_MonadXYZ (env : Env) (self : Start) : M unit :=
  match from_key env (private_key self) with
  | None => ret tt
  | Some e => raise e
  end.

(** [Start.flow] *)
Definition flow (env : Env) (self : Start) : M PyVal :=
  emit EFlow ;;;
  try_except
    (sess <- get session ;;
     match sess with
     | None => ret (VBool false)
     | Some _ =>
         new_MonadXYZ env self ;;;
         planned_tasks <- plan_tasks env (TASKS (FLOW (config self))) ;;
         emit (EPlan planned_tasks) ;;;
         run_tasks env self planned_tasks ;;;
         ret (VBool true)
     end)
    (fun _ => ret (VBool false)).

(** ** src/utils/logs.py: the outcome reporters *)

(** One call into the file system, [os.makedirs(base_dir, exist_ok=True)]
    or [open(filepath, "a")] with the write and the close that follow it:
    the [n]-th such call raises what [ledger_io env n] says, if anything.
    An append that raises leaves its file without the line. *)
Definition file_system (env : Env) : M unit :=
  n <- get io_calls ;;
  modify (set_io_calls (S n)) ;;;
  match ledger_io env n with
  | None => ret tt
  | Some e => raise e
  end.

(** The keys of [files_data]. *)
Inductive LedgerFile :=
| AccountIndicesTxt
| ProxiesTxt
| DiscordTokensTxt.

(** [f.write(data + newline)] on a file opened for appending. *)
Definition append_data (filename : LedgerFile) (data : string) (l : Ledger)
    : Ledger :=
  match filename with
  | AccountIndicesTxt =>
      mkLedger (account_indices_txt l ++ [data]) (proxies_txt l)
               (discord_tokens_txt l)
  | ProxiesTxt =>
      mkLedger (account_indices_txt l) (proxies_txt l ++ [data])
               (discord_tokens_txt l)
  | DiscordTokensTxt =>
      mkLedger (account_indices_txt l) (proxies_txt l)
               (discord_tokens_txt l ++ [data])
  end.

(** [str(account_index) if account_index is not None else "unknown"] *)
Definition index_line (account_index : option Z) : string :=
  match account_index with
  | Some i => py_str i
  | None => "unknown"
  end.

(** [files_data], in the order in which the dictionary is written. *)
Definition files_data (proxy discord_token : string)
    (account_index : option Z) : list (LedgerFile * string) :=
  [(AccountIndicesTxt, index_line account_index);
   (ProxiesTxt, proxy);
   (DiscordTokensTxt, discord_token)].

(** The loop over [files_data.items()] below the root that [update]
    rewrites: a value is appended unless it is empty. *)
Fixpoint write_files (env : Env) (update : (Ledger -> Ledger) -> St -> St)
    (items : list (LedgerFile * string)) : M unit :=
  match items with
  | [] => ret tt
  | (filename, data) :: rest =>
      (if String.eqb data "" then ret tt
       else file_system env ;;; modify (update (append_data filename data))) ;;;
      write_files env update rest
  end.

Definition update_success_data (f : Ledger -> Ledger) (s : St) : St :=
  set_success_data (f (success_data s)) s.

Definition update_error_data (f : Ledger -> Ledger) (s : St) : St :=
  set_error_data (f (error_data s)) s.

(** [report_success]; the lock is free whenever one pipeline runs alone. *)
Definition report_success (env : Env) (proxy discord_token : string)
    (account_index : option Z) : M unit :=
  emit (EReport true account_index) ;;;
  file_system env ;;;
  write_files env update_success_data
    (files_data proxy discord_token account_index).

(** [report_error] *)
Definition report_error (env : Env) (proxy discord_token : string)
    (account_index : option Z) : M unit :=
  emit (EReport false account_index) ;;;
  file_system env ;;;
  write_files env update_error_data
    (files_data proxy discord_token account_index).

(** ** process.py: the per-account pipeline *)

Definition account_flow (env : Env) (account_index : Z)
    (proxy private_key discord_token email : string) (config : Config)
    : M unit :=
  try_except
    (_random_sleep env (RANDOM_INITIALIZATION_PAUSE (SETTINGS config)) ;;;
     instance <- new_Start account_index proxy private_key discord_token
                           email config ;;
     success <- _execute_with_retries env (initialize env instance) config ;;
     flowed <- _execute_with_retries env (flow env instance) config ;;
     let success := success && flowed in
     (if success then report_success else report_error)
       env proxy discord_token (Some account_index) ;;;
     _random_sleep env (RANDOM_PAUSE_BETWEEN_ACCOUNTS (SETTINGS config)))
    (fun _ => report_error env proxy discord_token (Some account_index)).

(** ** process.py: account selection *)

Fixpoint res_mapM {A B} (f : A -> Res B) (l : list A) : Res (list B) :=
  match l with
  | [] => Ok []
  | x :: rest =>
      res_bind (f x) (fun y =>
      res_bind (res_mapM f rest) (fun ys => Ok (y :: ys)))
  end.

(** [min(l)] and [max(l)]: [ValueError] on an empty list. *)
Definition py_min (l : list Z) : Res Z :=
  match l with
  | [] => Raise ValueError
  | x :: rest => Ok (foldl Z.min x rest)
  end.

Definition py_max (l : list Z) : Res Z :=
  match l with
  | [] => Raise ValueError
  | x :: rest => Ok (foldl Z.max x rest)
  end.

(** [x[i], x[j] = x[j], x[i]] *)
Definition swap_items (x : list Z) (i j : nat) : Res (list Z) :=
  match x !! j, x !! i with
  | Some xj, Some xi => Ok (<[j:=xi]> (<[i:=xj]> x))
  | _, _ => Raise IndexError
  end.

(** The loop of [random.shuffle(x)]:
    [for i in reversed(range(1, len(x))): j = randbelow(i + 1); swap]. *)
Fixpoint shuffle_loop (env : Env) (x : list Z) (positions : list nat)
    : M (list Z) :=
  match positions with
  | [] => ret x
  | i :: rest =>
      r <- draw env ;;
      let j := Z.to_nat (r mod Z.of_nat (i + 1))%Z in
      x' <- lift (swap_items x i j) ;;
      shuffle_loop env x' rest
  end.

Definition shuffle (env : Env) (x : list Z) : M (list Z) :=
  shuffle_loop env x (rev (seq 1 (length x - 1))).

Record AccountsInfo := mkAccountsInfo {
  accounts : list string;
  start_index : Z;
  end_index : Z;
  order : string;
}.

(** The branch of [_get_accounts_to_process] that picks the subset. *)
Definition select_accounts (config : Config) (private_keys : list string)
    : Res (list string * Z * Z) :=
  let '(start_idx, end_idx) := ACCOUNTS_RANGE (SETTINGS config) in
  if (start_idx =? 0)%Z && (end_idx =? 0)%Z then
    match EXACT_ACCOUNTS_TO_USE (SETTINGS config) with
    | _ :: _ =>
        let exact := EXACT_ACCOUNTS_TO_USE (SETTINGS config) in
        let indices := map (fun i => i - 1)%Z exact in
        let n := Z.of_nat (length private_keys) in
        res_bind (res_mapM (py_index private_keys)
                    (filter (fun i => (0 <= i < n)%Z) indices))
          (fun accounts =>
        res_bind (py_min exact) (fun lo =>
        res_bind (py_max exact) (fun hi => Ok (accounts, lo, hi))))
    | [] => Ok (private_keys, 1%Z, Z.of_nat (length private_keys))
    end
  else Ok (py_slice private_keys (Z.max 0 (start_idx - 1)) end_idx,
           start_idx, end_idx).

Definition _get_accounts_to_process (env : Env) (config : Config)
    (private_keys : list string) : M AccountsInfo :=
  sel <- lift (select_accounts config private_keys) ;;
  let '(accounts, start_idx, end_idx) := sel in
  indices <- shuffle env (py_range (Z.of_nat (length accounts))) ;;
  let order :=
    String.concat " " (map (fun i => py_str (start_idx + i)) indices) in
  shuffled <- lift (res_mapM (py_index accounts) indices) ;;
  ret (mkAccountsInfo shuffled start_idx end_idx order).

(** ** process.py: the resource cycler *)

Definition _cycle_list {A} (items : list A) (length : Z) : Res (list A) :=
  res_mapM (fun i => res_bind (py_mod i (Z.of_nat (List.length items)))
                              (py_index items))
           (py_range length).

(** ** process.py: the batch entry point, up to the creation of the tasks *)

(** The keyword arguments of one [_launch_account] call. *)
Record Launch := mkLaunch {
  l_index : Z;
  l_proxy : string;
  l_private_key : string;
  l_discord_token : string;
  l_email : string;
}.

Inductive StartResult :=
| Aborted (message : string)
| Launched (tasks : list Launch).

(** [a or b] on lists *)
Definition py_or {A} (a b : list A) : list A :=
  match a with
  | [] => b
  | _ => a
  end.

(** The list comprehension over [enumerate(accounts_info.accounts)]. *)
Fixpoint make_tasks (start_index : Z) (cycled_proxies discord_tokens
    emails : list string) (idx : Z) (accounts : list string)
    : Res (list Launch) :=
  match accounts with
  | [] => Ok []
  | acc :: rest =>
      res_bind (py_index cycled_proxies idx) (fun proxy =>
      res_bind (py_index discord_tokens idx) (fun discord_token =>
      res_bind (py_index emails idx) (fun email =>
      res_bind (make_tasks start_index cycled_proxies discord_tokens emails
                           (idx + 1) rest) (fun tasks =>
      Ok (mkLaunch (start_index + idx) proxy acc discord_token email
            :: tasks)))))
  end.

(** [asyncio.Semaphore(value)]: the constructor refuses a negative
    value with [ValueError]. *)
Definition new_Semaphore (value : Z) : Res Z :=
  if (value <? 0)%Z then Raise ValueError else Ok value.

(** [start], given what the four [_load_file] calls returned (the file's
    non-blank lines, or an empty list when it is missing or unreadable). *)
Definition start (env : Env) (config : Config)
    (proxies private_keys discord_file emails_file : list string)
    : M StartResult :=
  match proxies with
  | [] => ret (Aborted "No proxies found. Please provide valid proxies.")
  | _ =>
  match private_keys with
  | [] => ret (Aborted "No private keys found")
  | _ =>
      accounts_info <- _get_accounts_to_process env config private_keys ;;
      match accounts accounts_info with
      | [] => ret (Aborted "No accounts selected for processing.")
      | _ =>
          let n := Z.of_nat (length (accounts accounts_info)) in
          cycled_proxies <- lift (_cycle_list proxies n) ;;
          let discord_tokens :=
            py_or discord_file (replicate (Z.to_nat n) "") in
          let emails := py_or emails_file (replicate (Z.to_nat n) "") in
          semaphore <- lift (new_Semaphore (THREADS (SETTINGS config))) ;;
          tasks <- lift (make_tasks (start_index accounts_info)
                           cycled_proxies discord_tokens emails 0
                           (accounts accounts_info)) ;;
          ret (Launched tasks)
      end
  end
  end.

(** ** The admission gate: [asyncio.Semaphore(THREADS)] around each pipeline

    [start] builds one semaphore and one task per account; every task runs
    [_launch_account], which is [async with semaphore: await account_flow].
    The event loop interleaves the tasks at their suspension points.  What
    matters to the gate is when a task passes [acquire] and when it leaves
    the [async with] block (normally or by an exception: the block releases
    in both cases), so a task is in one of three phases and the loop is a
    schedule of acquire and release attempts. *)
Module Gate.

Inductive Phase :=
| Queued       (* created, not yet past semaphore.acquire() *)
| Holding     (* inside the async with block *)
| Released.    (* left the block, semaphore released *)

Record Sys := mkSys {
  value : Z;              (* slots of the semaphore that are free *)
  phases : list Phase;    (* one entry per _launch_account task *)
}.

(** [asyncio.Semaphore(value)] refuses a negative initial value. *)
Definition init (threads : Z) (n : nat) : Res Sys :=
  if (threads <? 0)%Z then Raise ValueError
  else Ok (mkSys threads (replicate n Queued)).

Inductive Action :=
| Acquire (i : nat)    (* task i is resumed at semaphore.acquire() *)
| Release (i : nat).   (* task i leaves the async with block *)

(** One scheduling decision.  [acquire] passes only while a slot is free
    and takes it; otherwise the task stays suspended.  [release] gives
    the slot back.  A decision that does not apply to the task's phase
    changes nothing. *)
Definition exec (a : Action) (s : Sys) : Sys :=
  match a with
  | Acquire i =>
      match phases s !! i with
      | Some Queued =>
          if (0 <? value s)%Z
          then mkSys (value s - 1) (<[i:=Holding]> (phases s))
          else s
      | _ => s
      end
  | Release i =>
      match phases s !! i with
      | Some Holding => mkSys (value s + 1) (<[i:=Released]> (phases s))
      | _ => s
      end
  end.

Definition run (schedule : list Action) (s : Sys) : Sys :=
  foldl (fun s a => exec a s) s schedule.

Definition is_holding (p : Phase) : bool :=
  match p with
  | Holding => true
  | _ => false
  end.

(** Number of pipelines between gate acquire and gate release. *)
Definition holders (s : Sys) : nat :=
  length (List.filter is_holding (phases s)).

End Gate.

(** ** src/utils/reader.py *)

(** [str.isspace] on one character, for code points below 256. *)
Definition is_space (c : ascii) : bool :=
  let n := nat_of_ascii c in
  (Nat.leb 9 n && Nat.leb n 13) || (Nat.leb 28 n && Nat.leb n 32)
  || Nat.eqb n 133 || Nat.eqb n 160.

Fixpoint lstrip (s : string) : string :=
  match s with
  | EmptyString => EmptyString
  | String c s' => if is_space c then lstrip s' else s
  end.

Fixpoint rstrip (s : string) : string :=
  match s with
  | EmptyString => EmptyString
  | String c s' =>
      match rstrip s' with
      | EmptyString => if is_space c then EmptyString else String c EmptyString
      | r => String c r
      end
  end.

(** [s.strip()] *)
Definition py_strip (s : string) : string := rstrip (lstrip s).

(** [read_txt_file], given what opening and iterating the file yields:
    its lines, or the exception of [open] or of a read. *)
Definition read_txt_file (file : Res (list string)) : Res (list string) :=
  match file with
  | Ok lines =>
      Ok (map py_strip
            (List.filter (fun line => negb (String.eqb (py_strip line) ""))
                         lines))
  | Raise e => Raise e
  end.

(** [range(0, stop, step)] for a positive step. *)
Definition py_range_step (stop step : Z) : list Z :=
  map (fun k => Z.of_nat k * step)%Z
      (seq 0 (Z.to_nat ((stop + step - 1) / step))).

(** [split_list(lst, chunk_size)] for an integer chunk size. *)
Definition split_list {A} (lst : list A) (chunk_size : Z)
    : Res (list (list A)) :=
  if (chunk_size <=? 0)%Z then Raise ValueError
  else Ok (map (fun i => py_slice lst i (i + chunk_size))
               (py_range_step (Z.of_nat (length lst)) chunk_size)).

(** ** process.py: [_load_file] *)

Definition _load_file (file : Res (list string)) (optional : bool)
    : list string :=
  match read_txt_file file with
  | Ok content =>
      match content with
      | _ :: _ => content
      | [] => if optional then [] else []
      end
  | Raise _ => if optional then [] else []
  end.

(** ** process.py: [start] with its four [_load_file] calls *)

Definition start_files (env : Env) (config : Config)
    (proxies_file keys_file discord_file emails_file : Res (list string))
    : M StartResult :=
  start env config (_load_file proxies_file false) (_load_file keys_file false)
        (_load_file discord_file true) (_load_file emails_file true).


(** ** Reading a trace *)

Definition is_invoke (e : Event) : bool :=
  match e with EInvoke _ => true | _ => false end.
Definition is_sleep (e : Event) : bool :=
  match e with ESleep _ => true | _ => false end.
Definition is_flow (e : Event) : bool :=
  match e with EFlow => true | _ => false end.
Definition is_task (e : Event) : bool :=
  match e with ETask _ => true | _ => false end.
Definition is_report (e : Event) : bool :=
  match e with EReport _ _ => true | _ => false end.

Definition count (p : Event -> bool) (t : list Event) : nat :=
  length (List.filter p t).

(** The tasks awaited, in order. *)
Definition executed (t : list Event) : list string :=
  omap (fun e => match e with ETask task => Some task | _ => None end) t.

(** The plans resolved, in order. *)
Definition plans (t : list Event) : list (list string) :=
  omap (fun e => match e with EPlan p => Some p | _ => None end) t.

(** The reports made, in order. *)
Definition reports (t : list Event) : list (bool * option Z) :=
  omap (fun e => match e with EReport b i => Some (b, i) | _ => None end) t.

(** ** Concrete configurations and environments used as examples *)

Definition example_proxy : string := "user:pass@10.0.0.1:8080".

Definition example_key : string :=
  "0x0000000000000000000000000000000000000000000000000000000000000001".

(** The defaults of config.py, with [attempts] and the explicit accounts
    left open. *)
Definition settings (attempts : Z) (exact : list Z) : SettingsConfig :=
  mkSettings 1 attempts (0, 0)%Z exact (5, 10)%Z (5, 10)%Z (5, 15)%Z (1, 3)%Z
             (5, 10)%Z.

Definition example_flow (tasks : list TaskItem) : FlowConfig :=
  mkFlow tasks (1, 3)%Z (10, 50)%Z.

Definition example_config (attempts : Z) (tasks : list TaskItem) : Config :=
  mkConfig (settings attempts []) (example_flow tasks).

(** Every collaborator works; the random source always draws 0. *)
Definition quiet_env : Env :=
  mkEnv (fun _ => 0%Z) (fun _ => None) (fun _ => None)
        (fun _ => Ok VNone) (fun _ => None) (fun _ => None).

(** As [quiet_env], but no HTTP client can ever be created. *)
Definition offline_env : Env :=
  mkEnv (fun _ => 0%Z) (fun _ => Some (ExternalError "connect"))
        (fun _ => None) (fun _ => Ok VNone) (fun _ => None) (fun _ => None).

(** As [quiet_env], but every swap call and every RPC read of the wallet
    statistics raises. *)
Definition failing_tasks_env : Env :=
  mkEnv (fun _ => 0%Z) (fun _ => None) (fun _ => None)
        (fun _ => Raise (ExternalError "swap reverted"))
        (fun _ => Some (ExternalError "rpc")) (fun _ => None).


(** As [quiet_env], but [Account.from_key] rejects every key. *)
Definition bad_key_env : Env :=
  mkEnv (fun _ => 0%Z) (fun _ => None)
        (fun _ => Some (ExternalError "invalid key"))
        (fun _ => Ok VNone) (fun _ => None) (fun _ => None).

(** As [quiet_env], but nothing below the ledger roots can be written. *)
Definition read_only_env : Env :=
  mkEnv (fun _ => 0%Z) (fun _ => None) (fun _ => None)
        (fun _ => Ok VNone) (fun _ => None)
        (fun _ => Some (ExternalError "PermissionError")).

(** A configuration whose cool-down range is empty (minimum above
    maximum); everything else as in [example_config]. *)
Definition bad_cooldown_config : Config :=
  mkConfig (mkSettings 1 3 (0, 0)%Z [] (5, 10)%Z (5, 10)%Z (15, 5)%Z (1, 3)%Z
                       (5, 10)%Z)
           (example_flow [Single "izumi"]).

(** A configuration whose range of pauses between the tasks is empty. *)
Definition bad_action_pause_config (attempts : Z) (tasks : list TaskItem)
    : Config :=
  mkConfig (mkSettings 1 attempts (0, 0)%Z [] (5, 10)%Z (5, 10)%Z (5, 15)%Z
                       (3, 1)%Z (5, 10)%Z)
           (example_flow tasks).

(** A configuration whose range of pauses after a swap is empty. *)
Definition bad_swap_pause_config : Config :=
  mkConfig (mkSettings 1 3 (0, 0)%Z [] (5, 10)%Z (10, 5)%Z (5, 15)%Z (1, 3)%Z
                       (5, 10)%Z)
           (example_flow []).

(** A Start instance for account 7. *)
Definition example_start (tasks : list TaskItem) : Start :=
  mkStart 7 example_proxy example_key "d" "e" (example_config 1 tasks).

(** A Start instance whose swap handlers make two or three swaps. *)
Definition two_swaps_start : Start :=
  mkStart 7 example_proxy example_key "d" "e"
          (mkConfig (settings 1 []) (mkFlow [] (2, 3)%Z (10, 50)%Z)).

Definition ten_keys : list string :=
  ["k1"; "k2"; "k3"; "k4"; "k5"; "k6"; "k7"; "k8"; "k9"; "k10"].

(** ** Vocabulary of the statements *)

(** The value [random.randint] returns for the draw at position [pos]. *)
Definition pause_value (env : Env) (range : Z * Z) (pos : nat) : Z :=
  (fst range + rng env pos mod (snd range - fst range + 1))%Z.

(** The state after one random pause over [range]. *)
Definition after_pause (env : Env) (range : Z * Z) (s : St) : St :=
  set_trace (trace s ++ [ESleep (pause_value env range (rng_pos s))])
            (set_rng_pos (S (rng_pos s)) s).

(** A result that signals success: [True], or a tuple that starts with
    [True]. *)
Definition truthy_result (v : PyVal) : Prop :=
  v = VBool true \/ exists rest, v = VTuple (VBool true :: rest).

(** Any other result, the empty tuple apart. *)
Definition failed_result (v : PyVal) : Prop :=
  ~ truthy_result v /\ v <> VTuple [].

Definition valid_range (range : Z * Z) : Prop := (fst range <= snd range)%Z.

(** The attempts [a, a+1, ..., a+n-1] of the executor's loop. *)
Definition attempts_from (a n : nat) : list Z := map Z.of_nat (seq a n).

(** Two states agree on what the account's tasks and reports have done. *)
Definition same_outcome (s s' : St) : Prop :=
  executed (trace s') = executed (trace s) /\
  plans (trace s') = plans (trace s) /\
  reports (trace s') = reports (trace s) /\
  success_data s' = success_data s /\
  error_data s' = error_data s.

(** The task names that [_execute_task] dispatches to a handler. *)
Definition known_task (task : string) : bool :=
  String.eqb task "izumi" || String.eqb task "logs".

Definition task_event (task : string) : Event :=
  if known_task task then ETask task else EUnknownTask task.

(** Number of handler calls a run of [planned] makes. *)
Definition handlers_in (planned : list string) : nat :=
  length (List.filter known_task (map lower planned)).

(** The events a task handler leaves behind its task event: calls of
    [swapper.swap] and the pauses that follow them. *)
Definition is_inner (e : Event) : bool :=
  match e with
  | EInvoke _ | ESleep _ => true
  | _ => false
  end.

(** A run of the execution loop of [flow] over [planned], from [s] to
    [s']: every task, lower-cased, is handed to [_execute_task], which
    returns, and the pause over RANDOM_PAUSE_BETWEEN_ACTIONS is taken
    right after it, before the next task. *)
Inductive runs_all (env : Env) (self : Start) : list string -> St -> St -> Prop :=
| runs_all_nil s : runs_all env self [] s s
| runs_all_cons task rest s s1 s' :
    _execute_task env self (lower task) s = (Ok tt, s1) ->
    runs_all env self rest
      (after_pause env (RANDOM_PAUSE_BETWEEN_ACTIONS (SETTINGS (config self)))
                   s1) s' ->
    runs_all env self (task :: rest) s s'.

(** [task] is a legal resolution of the configured slot [item]. *)
Definition resolves (item : TaskItem) (task : string) : Prop :=
  match item with
  | Single t => task = t
  | Alternatives l => In task l
  end.

Definition is_alternatives (item : TaskItem) : bool :=
  match item with
  | Alternatives _ => true
  | Single _ => false
  end.

(** Number of slots that hold alternatives. *)
Definition alternative_slots (tasks : list TaskItem) : nat :=
  length (List.filter is_alternatives tasks).

(** No slot is an empty set of alternatives. *)
Definition no_empty_slot (tasks : list TaskItem) : Prop :=
  Forall (fun item => item <> Alternatives []) tasks.

(** The accounts at the configured 1-based positions that exist, in the
    configured order. *)
Definition configured_accounts (private_keys : list string)
    (exact : list Z) : list string :=
  omap (fun i =>
          if ((1 <=? i) && (i <=? Z.of_nat (length private_keys)))%Z
          then private_keys !! Z.to_nat (i - 1)
          else None)
       exact.

Definition not_report (e : Event) : bool := negb (is_report e).


(** A state in which [initialize] has succeeded. *)
Definition with_session (proxy : string) (s : St) : St :=
  set_session (Some (mkSession proxy)) s.

(** [m] leaves the ledgers and the file system alone and adds to the
    trace only events that satisfy [P]. *)
Definition appends {A} (P : Event -> bool) (m : M A) : Prop :=
  forall s, exists rest,
    trace (snd (m s)) = trace s ++ rest /\ forallb P rest = true /\
    success_data (snd (m s)) = success_data s /\
    error_data (snd (m s)) = error_data s /\
    io_calls (snd (m s)) = io_calls s.

(** The pipeline up to its report: the warm-up pause, the instance and
    the two runs of the retry executor, with the outcome to report. *)
Definition executors (env : Env) (account_index : Z)
    (proxy private_key discord_token email : string) (config : Config)
    : M bool :=
  _random_sleep env (RANDOM_INITIALIZATION_PAUSE (SETTINGS config)) ;;;
  instance <- new_Start account_index proxy private_key discord_token
                        email config ;;
  success <- _execute_with_retries env (initialize env instance) config ;;
  flowed <- _execute_with_retries env (flow env instance) config ;;
  ret (success && flowed).

(** The record that one report leaves below a ledger root when all its
    writes go through: a value is appended unless it is empty. *)
Definition append_line (data : string) (file : list string) : list string :=
  if String.eqb data "" then file else file ++ [data].

Definition write_record (proxy discord_token : string)
    (account_index : option Z) (l : Ledger) : Ledger :=
  mkLedger (append_line (index_line account_index) (account_indices_txt l))
           (append_line proxy (proxies_txt l))
           (append_line discord_token (discord_tokens_txt l)).

(** A reporter that starts in [s] meets a file system that works: none of
    its calls (one [os.makedirs] and at most three appends) raises. *)
Definition ledger_writable (env : Env) (s : St) : Prop :=
  forall i, i < 4 -> ledger_io env (io_calls s + i) = None.

(** Number of file-system calls of one report whose writes go through. *)
Definition report_calls (proxy discord_token : string) : nat :=
  2 + (if String.eqb proxy "" then 0 else 1)
    + (if String.eqb discord_token "" then 0 else 1).

(** The state after one report whose writes go through. *)
Definition after_report (succeeded : bool) (proxy discord_token : string)
    (account_index : option Z) (s : St) : St :=
  let s1 := set_io_calls (io_calls s + report_calls proxy discord_token)
              (set_trace (trace s ++ [EReport succeeded account_index]) s) in
  if succeeded
  then set_success_data
         (write_record proxy discord_token account_index (success_data s)) s1
  else set_error_data
         (write_record proxy discord_token account_index (error_data s)) s1.

(** Started where the file system works, [m] ends normally after exactly
    one report of the account, in the ledger that matches the outcome, or
    it raises before any report. *)
Definition reports_once (env : Env) (proxy token : string) (index : Z)
    (m : M unit) : Prop :=
  forall s,
    ledger_writable env s ->
    (exists b s',
       m s = (Ok tt, s') /\
       reports (trace s') = reports (trace s) ++ [(b, Some index)] /\
       success_data s' =
         (if b then write_record proxy token (Some index) (success_data s)
          else success_data s) /\
       error_data s' =
         (if b then error_data s
          else write_record proxy token (Some index) (error_data s))) \/
    (exists e s',
       m s = (Raise e, s') /\
       reports (trace s') = reports (trace s) /\
       success_data s' = success_data s /\
       error_data s' = error_data s /\
       io_calls s' = io_calls s).

(** The state [s'] in which attempt [i] (counted from 0) of a scripted
    operation starts, and the state it leaves behind, for a run of the
    executor that started in [s] and has seen failed attempts only. *)
Definition before_attempt (s : St) (i : nat) (s' : St) : Prop :=
  op_calls s' = op_calls s + i /\
  count is_invoke (trace s') = count is_invoke (trace s) + i /\
  count is_sleep (trace s') = count is_sleep (trace s) + i.

Definition after_attempt (s : St) (i : nat) (s' : St) : Prop :=
  op_calls s' = op_calls s + S i /\
  count is_invoke (trace s') = count is_invoke (trace s) + S i /\
  count is_sleep (trace s') = count is_sleep (trace s) + i /\
  last (trace s') = Some (EInvoke (op_calls s + i)).

(** The lines that the reports [rs] with outcome [b] put into an index
    file when they can write it. *)
Definition index_lines (b : bool) (rs : list (bool * option Z))
    : list string :=
  map (fun r => index_line (snd r))
      (List.filter (fun r => Bool.eqb (fst r) b) rs).

(** The values that [items] holds for the index file. *)
Definition index_data (items : list (LedgerFile * string)) : list string :=
  omap (fun item => match fst item with
                    | AccountIndicesTxt => Some (snd item)
                    | _ => None
                    end) items.

(** [l'] is [l] with lines added at the end of its files; the lines added
    to the index file stand in relation [R] to [lines]. *)
Definition ledger_extends (R : list string -> list string -> Prop)
    (l l' : Ledger) (lines : list string) : Prop :=
  (exists added,
     account_indices_txt l' = account_indices_txt l ++ added /\
     R added lines) /\
  (exists more, proxies_txt l' = proxies_txt l ++ more) /\
  (exists more, discord_tokens_txt l' = discord_tokens_txt l ++ more).

(** From [s] to [s'] the trace and the ledgers have only grown, and what
    the index files have grown by stands in relation [R] to the index
    lines of the reports entered in between. *)
Definition ledger_follows (R : list string -> list string -> Prop)
    (s s' : St) : Prop :=
  exists rest,
    trace s' = trace s ++ rest /\
    ledger_extends R (success_data s) (success_data s')
                   (index_lines true (reports rest)) /\
    ledger_extends R (error_data s) (error_data s')
                   (index_lines false (reports rest)).

Definition keeps_ledger {A} (R : list string -> list string -> Prop)
    (m : M A) : Prop :=
  forall s, ledger_follows R s (snd (m s)).

(** [m] leaves the component [f] of the state as it was. *)
Definition keeps {A B} (f : St -> B) (m : M A) : Prop :=
  forall s, f (snd (m s)) = f s.

(** The state after [b] further calls of a scripted operation and
    nothing else. *)
Definition after_calls (b : nat) (s : St) : St :=
  set_trace (trace s ++ map EInvoke (seq (op_calls s) b))
            (set_op_calls (op_calls s + b) s).

(** * Lemmas *)
(** ** Python helpers *)

Lemma py_range_of_nat (k : nat) : py_range (Z.of_nat k) = attempts_from 0 k.
Proof. unfold py_range, attempts_from. now rewrite Nat2Z.id. Qed.

Lemma py_index_nat {A} (l : list A) (i : nat) :
  py_index l (Z.of_nat i) =
  match l !! i with Some x => Ok x | None => Raise IndexError end.
Proof.
  unfold py_index.
  destruct (Z.ltb_spec (Z.of_nat i) 0) as [H|H]; [lia|].
  destruct (Z.ltb_spec (Z.of_nat i) 0); [lia|].
  now rewrite Nat2Z.id.
Qed.

Lemma py_index_raises {A} (l : list A) (i : Z) (e : Exn) :
  py_index l i = Raise e -> e = IndexError.
Proof.
  unfold py_index. repeat case_match; congruence.
Qed.

(** ** Reading traces *)

Lemma count_app p t1 t2 : count p (t1 ++ t2) = count p t1 + count p t2.
Proof. unfold count. now rewrite List.filter_app, length_app. Qed.

Lemma executed_app t1 t2 : executed (t1 ++ t2) = executed t1 ++ executed t2.
Proof. apply omap_app. Qed.

Lemma plans_app t1 t2 : plans (t1 ++ t2) = plans t1 ++ plans t2.
Proof. apply omap_app. Qed.

Lemma reports_app t1 t2 : reports (t1 ++ t2) = reports t1 ++ reports t2.
Proof. apply omap_app. Qed.

(** ** The primitives, as equations on the state *)

Lemma randint_valid env range s :
  valid_range range ->
  randint env range s =
  (Ok (pause_value env range (rng_pos s)), set_rng_pos (S (rng_pos s)) s).
Proof.
  destruct range as [a b]. unfold valid_range, randint. simpl. intros H.
  destruct (Z.ltb_spec b a); [lia|]. reflexivity.
Qed.

Lemma randint_empty env range s :
  ~ valid_range range -> randint env range s = (Raise ValueError, s).
Proof.
  destruct range as [a b]. unfold valid_range, randint. simpl. intros H.
  destruct (Z.ltb_spec b a); [reflexivity|lia].
Qed.

Lemma random_pause env range s :
  valid_range range ->
  (pause <- randint env range ;; sleep pause) s =
  (Ok tt, after_pause env range s).
Proof. intros H. unfold bind. now rewrite randint_valid. Qed.

Lemma scripted_eq script s :
  scripted script s =
  (script (op_calls s),
   set_trace (trace s ++ [EInvoke (op_calls s)])
             (set_op_calls (S (op_calls s)) s)).
Proof. reflexivity. Qed.

(** ** The classification of results *)

Lemma is_success_truthy v : is_success v = Ok true <-> truthy_result v.
Proof.
  unfold truthy_result. split.
  - destruct v as [| [] | | | [|[| [] | | |] ?]]; simpl; intros H;
      try discriminate; eauto.
  - intros [-> | [rest ->]]; reflexivity.
Qed.

Lemma is_success_failed v : is_success v = Ok false <-> failed_result v.
Proof.
  unfold failed_result, truthy_result. split.
  - intros H. split.
    + intros [-> | [rest ->]]; discriminate.
    + intros ->. discriminate.
  - intros [Hn He].
    destruct v as [| [] | | | [|[| [] | | |] ?]]; simpl; try reflexivity;
      try congruence; exfalso; apply Hn; eauto.
Qed.

(** ** One turn of the executor's loop *)

Section RetryLoop.
Context (env : Env) (config : Config) (function : M PyVal).

Abbreviation K := (ATTEMPTS (SETTINGS config)).
Abbreviation pauses := (PAUSE_BETWEEN_ATTEMPTS (SETTINGS config)).
Abbreviation loop := (retry_loop env function config).

Lemma retry_loop_success attempt rest s v s1 :
  function s = (Ok v, s1) -> is_success v = Ok true ->
  loop (attempt :: rest) s = (Ok true, s1).
Proof. intros Hf Hv. simpl. unfold bind, lift. now rewrite Hf, Hv. Qed.

Lemma retry_loop_raise attempt rest s e s1 :
  function s = (Raise e, s1) ->
  loop (attempt :: rest) s = (Raise e, s1).
Proof. intros Hf. simpl. unfold bind. now rewrite Hf. Qed.

Lemma retry_loop_test_raise attempt rest s v e s1 :
  function s = (Ok v, s1) -> is_success v = Raise e ->
  loop (attempt :: rest) s = (Raise e, s1).
Proof. intros Hf Hv. simpl. unfold bind, lift. now rewrite Hf, Hv. Qed.

Lemma retry_loop_failure attempt rest s v s1 :
  valid_range pauses ->
  function s = (Ok v, s1) -> is_success v = Ok false ->
  loop (attempt :: rest) s =
  loop rest (if (attempt <? K - 1)%Z then after_pause env pauses s1 else s1).
Proof.
  intros Hr Hf Hv. simpl. unfold bind at 1. rewrite Hf.
  unfold bind at 1, lift. rewrite Hv.
  unfold bind at 1. destruct (attempt <? K - 1)%Z.
  - now rewrite (random_pause env _ s1 Hr).
  - reflexivity.
Qed.

(** A run of failed attempts, with an invariant [Before i] on the state
    in which attempt [i] starts and [After i] on the state it leaves. *)
Context (k : nat) (Before After : nat -> St -> Prop).
Hypothesis HK : K = Z.of_nat k.
Hypothesis Hrange : valid_range pauses.

Lemma retry_loop_failures (b a : nat) (s : St) :
  a + b <= k ->
  (forall i s, a <= i < a + b -> Before i s ->
     exists v s1, function s = (Ok v, s1) /\ is_success v = Ok false /\
                  After i s1) ->
  (forall i s, a <= i < a + b -> i + 1 < k -> After i s ->
     Before (S i) (after_pause env pauses s)) ->
  Before a s ->
  (a + b < k ->
     exists s', loop (attempts_from a (k - a)) s =
                loop (attempts_from (a + b) (k - (a + b))) s' /\
                Before (a + b) s') /\
  (a + b = k -> 1 <= b ->
     exists s', loop (attempts_from a (k - a)) s = (Ok false, s') /\
                After (k - 1) s').
Proof.
  revert a s. induction b as [|b IH]; intros a s Hab Hop Hpause HB.
  - split; [|lia]. intros _. exists s. now rewrite Nat.add_0_r.
  - destruct (Hop a s ltac:(lia) HB) as (v & s1 & Hf & Hv & HA).
    assert (Hseq : attempts_from a (k - a) =
                   Z.of_nat a :: attempts_from (S a) (k - S a)).
    { unfold attempts_from. replace (k - a) with (S (k - S a)) by lia.
      reflexivity. }
    rewrite Hseq, (retry_loop_failure _ _ _ _ _ Hrange Hf Hv).
    destruct (Z.ltb_spec (Z.of_nat a) (K - 1)) as [Hlt|Hge].
    + assert (Ha : a + 1 < k) by lia.
      specialize (Hpause a s1 ltac:(lia) Ha HA) as HB'.
      assert (Hop' : forall i s, S a <= i < S a + b -> Before i s ->
                exists v s1, function s = (Ok v, s1) /\
                  is_success v = Ok false /\ After i s1).
      { intros i s0 Hi. apply Hop. lia. }
      assert (Hpause' : forall i s, S a <= i < S a + b -> i + 1 < k ->
                After i s -> Before (S i) (after_pause env pauses s)).
      { intros i s0 Hi. apply Hpause. lia. }
      destruct (IH (S a) _ ltac:(lia) Hop' Hpause' HB') as [IH1 IH2].
      replace (S a + b) with (a + S b) in * by lia.
      split; [assumption|]. intros Hk _. apply IH2; lia.
    + assert (a + 1 = k) by lia. assert (b = 0) by lia. subst b.
      split; [lia|]. intros _ _.
      replace (k - S a) with 0 by lia. simpl.
      exists s1. split; [reflexivity|].
      now replace (k - 1) with a by lia.
Qed.

End RetryLoop.

(** ** The executor on a scripted operation *)

Lemma attempts_from_cons a n :
  attempts_from a (S n) = Z.of_nat a :: attempts_from (S a) n.
Proof. reflexivity. Qed.

Section ScriptedRuns.
Context (env : Env) (config : Config) (script : nat -> Res PyVal).
Context (k : nat) (s : St).
Hypothesis HK : ATTEMPTS (SETTINGS config) = Z.of_nat k.
Hypothesis Hrange : valid_range (PAUSE_BETWEEN_ATTEMPTS (SETTINGS config)).

Abbreviation Before := (before_attempt s).
Abbreviation After := (after_attempt s).

Lemma scripted_invocation i s' r :
  Before i s' -> script (op_calls s + i) = r ->
  exists s1, scripted script s' = (r, s1) /\ After i s1.
Proof.
  intros (Hc & Hi & Hp) Hr.
  exists (set_trace (trace s' ++ [EInvoke (op_calls s')])
                    (set_op_calls (S (op_calls s')) s')).
  split; [rewrite scripted_eq; congruence|].
  unfold after_attempt. simpl. rewrite !count_app, last_snoc, Hc, Hi, Hp.
    unfold count. simpl. repeat split; lia.
Qed.

Lemma scripted_pause i s' :
  After i s' ->
  Before (S i)
    (after_pause env (PAUSE_BETWEEN_ATTEMPTS (SETTINGS config)) s').
Proof.
  intros (Hc & Hi & Hp & _). unfold before_attempt. simpl.
  rewrite !count_app, Hi, Hp. unfold count. simpl. repeat split; lia.
Qed.

(** [b] failed attempts in a row, starting with the first. *)
Lemma scripted_failures b :
  b <= k ->
  (forall i, i < b ->
     exists v, script (op_calls s + i) = Ok v /\ failed_result v) ->
  (b < k ->
     exists s', retry_loop env (scripted script) config (attempts_from 0 k) s
                = retry_loop env (scripted script) config
                    (attempts_from b (k - b)) s' /\
                Before b s') /\
  (b = k -> 1 <= b ->
     exists s', retry_loop env (scripted script) config (attempts_from 0 k) s
                = (Ok false, s') /\ After (k - 1) s').
Proof.
  intros Hb Hfail.
  assert (HB0 : Before 0 s) by (unfold before_attempt; repeat split; lia).
  pose proof (retry_loop_failures env config (scripted script) k
                Before After HK Hrange b 0 s) as H.
  rewrite Nat.sub_0_r in H. simpl in H. apply H; try assumption.
  - intros i s' Hi HB'.
    destruct (Hfail i ltac:(lia)) as (v & Hv & Hf).
    destruct (scripted_invocation i s' _ HB' Hv) as (s1 & Hs1 & HA).
    exists v, s1. split; [assumption|].
    split; [now apply is_success_failed | assumption].
  - intros i s' _ _. apply scripted_pause.
Qed.

(** The attempt that follows [b] failed ones, whatever it does. *)
Lemma scripted_next b :
  b < k ->
  (forall i, i < b ->
     exists v, script (op_calls s + i) = Ok v /\ failed_result v) ->
  exists s0 s1 rest,
    retry_loop env (scripted script) config (attempts_from 0 k) s
    = retry_loop env (scripted script) config (Z.of_nat b :: rest) s0 /\
    scripted script s0 = (script (op_calls s + b), s1) /\
    After b s1.
Proof.
  intros Hb Hfail.
  destruct (scripted_failures b ltac:(lia) Hfail) as [H _].
  destruct (H Hb) as (s0 & Hloop & HB).
  destruct (scripted_invocation b s0 _ HB eq_refl) as (s1 & Hs1 & HA).
  exists s0, s1, (attempts_from (S b) (k - S b)).
  split; [|split; assumption].
  rewrite Hloop. replace (k - b) with (S (k - S b)) by lia.
  now rewrite attempts_from_cons.
Qed.

End ScriptedRuns.

(** X23.  The counts of the retry executor on results that follow the
    return protocol.  With [ATTEMPTS = k >= 1] and a pause range that is
    not empty: when the first [j-1] invocations of the operation return
    failed results and invocation [j <= k] returns [True] or a tuple
    starting with [True], [_execute_with_retries] returns [True] after
    exactly [j] invocations and [j-1] pauses; when all [k] invocations
    return failed results it returns [False] after exactly [k] invocations
    and [k-1] pauses.  In both cases the last event is the final
    invocation: no pause follows it.  A failed result is any returned
    value that is not a success, the empty tuple excepted. *)
Theorem retry_executor_attempts :
  forall (env : Env) (config : Config) (script : nat -> Res PyVal) (s : St)
         (k j : nat),
    ATTEMPTS (SETTINGS config) = Z.of_nat k ->
    valid_range (PAUSE_BETWEEN_ATTEMPTS (SETTINGS config)) ->
    1 <= j <= k ->
    (forall i, i < j - 1 ->
       exists v, script (op_calls s + i) = Ok v /\ failed_result v) ->
    ((exists v, script (op_calls s + (j - 1)) = Ok v /\ truthy_result v) ->
     exists s',
       _execute_with_retries env (scripted script) config s = (Ok true, s') /\
       count is_invoke (trace s') = count is_invoke (trace s) + j /\
       count is_sleep (trace s') = count is_sleep (trace s) + (j - 1) /\
       last (trace s') = Some (EInvoke (op_calls s + (j - 1)))) /\
    (j = k ->
     (exists v, script (op_calls s + (j - 1)) = Ok v /\ failed_result v) ->
     exists s',
       _execute_with_retries env (scripted script) config s = (Ok false, s') /\
       count is_invoke (trace s') = count is_invoke (trace s) + k /\
       count is_sleep (trace s') = count is_sleep (trace s) + (k - 1) /\
       last (trace s') = Some (EInvoke (op_calls s + (k - 1)))).
Proof.
  intros env config script s k j HK Hrange Hj Hfail.
  unfold _execute_with_retries. rewrite HK, py_range_of_nat. split.
  - intros (v & Hv & Ht).
    destruct (scripted_next env config script k s HK Hrange (j - 1)
                ltac:(lia) Hfail)
      as (s0 & s1 & rest & Hloop & Hcall & (Hc & Hi & Hp & Hl)).
    exists s1. rewrite Hloop. rewrite Hv in Hcall.
    rewrite (retry_loop_success _ _ _ _ _ _ _ _ Hcall
               (proj2 (is_success_truthy v) Ht)).
    repeat split; try assumption. rewrite Hi. lia.
  - intros -> Hlast.
    destruct (scripted_failures env config script k s HK Hrange k (le_n k))
      as [_ H].
    { intros i Hi. destruct (Nat.eq_dec i (k - 1)) as [->|Hne].
      - exact Hlast.
      - apply Hfail. lia. }
    destruct (H eq_refl ltac:(lia)) as (s' & Hloop & (Hc & Hi & Hp & Hl)).
    exists s'. repeat split; try assumption. rewrite Hi. lia.
Qed.

(** C5 at its failing input.  An operation that returns the empty tuple
    is not counted as a failed attempt: the executor's test
    [result[0] is True] raises [IndexError] on it at the first invocation,
    and the exception leaves the executor without a retry and without a
    pause.  Every other value that is not a success is a failed attempt,
    as the claim says: [None], [1] and [(False, 3)] are each retried up to
    the budget and give [False]. *)
Theorem retry_executor_empty_tuple :
  (exists s',
     _execute_with_retries quiet_env (scripted (fun _ => Ok (VTuple [])))
       (example_config 3 []) st0 = (Raise IndexError, s') /\
     count is_invoke (trace s') = 1 /\
     count is_sleep (trace s') = 0) /\
  (forall v,
     In v [VNone; VInt 1; VTuple [VBool false; VInt 3]] ->
     exists s',
       _execute_with_retries quiet_env (scripted (fun _ => Ok v))
         (example_config 3 []) st0 = (Ok false, s') /\
       count is_invoke (trace s') = 3 /\
       count is_sleep (trace s') = 2).
Proof.
  split.
  - eexists. repeat split.
  - intros v [<-|[<-|[<-|[]]]]; eexists; repeat split.
Qed.

(** Witness of X23: three attempts, two failures (a [False] and a tuple
    starting with [False]) and then [True]. *)
Lemma retry_executor_attempts_witness :
  exists s',
    _execute_with_retries quiet_env
      (scripted (fun n => match n with
                          | 0 => Ok (VBool false)
                          | 1 => Ok (VTuple [VBool false; VInt 3])
                          | _ => Ok (VBool true)
                          end))
      (example_config 3 []) st0 = (Ok true, s') /\
    count is_invoke (trace s') = 3 /\
    count is_sleep (trace s') = 2 /\
    last (trace s') = Some (EInvoke 2).
Proof.
  refine (proj1 (retry_executor_attempts quiet_env (example_config 3 [])
                   _ st0 3 3 eq_refl _ _ _) _).
  - unfold valid_range. simpl. lia.
  - lia.
  - intros [|[|i]] Hi; [| |simpl in Hi; lia]; eexists;
      (split; [reflexivity|]); apply is_success_failed; reflexivity.
  - eexists. split; [reflexivity|]. now left.
Defined.

(** C1 (amended).  With [ATTEMPTS = k >= 1] and a pause range that is not
    empty: when the first [j-1] invocations return failed results and
    invocation [j <= k] raises, [_execute_with_retries] neither retries
    nor returns [False]: the exception leaves the executor right after
    that invocation, that is after exactly [j] invocations and [j-1]
    pauses. *)
Theorem retry_executor_propagates :
  forall (env : Env) (config : Config) (script : nat -> Res PyVal) (s : St)
         (k j : nat) (e : Exn),
    ATTEMPTS (SETTINGS config) = Z.of_nat k ->
    valid_range (PAUSE_BETWEEN_ATTEMPTS (SETTINGS config)) ->
    1 <= j <= k ->
    (forall i, i < j - 1 ->
       exists v, script (op_calls s + i) = Ok v /\ failed_result v) ->
    script (op_calls s + (j - 1)) = Raise e ->
    exists s',
      _execute_with_retries env (scripted script) config s = (Raise e, s') /\
      count is_invoke (trace s') = count is_invoke (trace s) + j /\
      count is_sleep (trace s') = count is_sleep (trace s) + (j - 1) /\
      last (trace s') = Some (EInvoke (op_calls s + (j - 1))).
Proof.
  intros env config script s k j e HK Hrange Hj Hfail He.
  unfold _execute_with_retries. rewrite HK, py_range_of_nat.
  destruct (scripted_next env config script k s HK Hrange (j - 1)
              ltac:(lia) Hfail)
    as (s0 & s1 & rest & Hloop & Hcall & (Hc & Hi & Hp & Hl)).
  exists s1. rewrite Hloop. rewrite He in Hcall.
  rewrite (retry_loop_raise _ _ _ _ _ _ _ _ Hcall).
  repeat split; try assumption. rewrite Hi. lia.
Qed.

(** C1, as stated, fails on an operation that always raises: with three
    attempts allowed the executor makes one invocation and the exception
    comes out of it; it does not return [False]. *)
Lemma retry_executor_raise_not_retried :
  exists s',
    _execute_with_retries quiet_env
      (scripted (fun _ => Raise (ExternalError "boom")))
      (example_config 3 []) st0 = (Raise (ExternalError "boom"), s') /\
    count is_invoke (trace s') = 1 /\
    count is_sleep (trace s') = 0.
Proof. eexists. repeat split. Qed.

(** Witness of C1: one failed attempt, then a raising one. *)
Lemma retry_executor_propagates_witness :
  exists s',
    _execute_with_retries quiet_env
      (scripted (fun n => match n with
                          | 0 => Ok (VBool false)
                          | _ => Raise (ExternalError "boom")
                          end))
      (example_config 3 []) st0 = (Raise (ExternalError "boom"), s') /\
    count is_invoke (trace s') = 2 /\
    count is_sleep (trace s') = 1 /\
    last (trace s') = Some (EInvoke 1).
Proof.
  refine (retry_executor_propagates quiet_env (example_config 3 [])
            _ st0 3 2 _ eq_refl _ _ _ eq_refl).
  - unfold valid_range. simpl. lia.
  - lia.
  - intros [|i] Hi; [|simpl in Hi; lia]. eexists.
    split; [reflexivity|]. apply is_success_failed. reflexivity.
Defined.

(** ** The Start instance *)

Lemma initialize_eq env self s :
  initialize env self s =
  let s1 := set_client_calls (S (client_calls s))
              (set_trace (trace s ++ [EInitialize]) s) in
  match create_client env (client_calls s) with
  | None => (Ok (VBool true), set_session (Some (mkSession (proxy self))) s1)
  | Some _ => (Ok (VBool false), s1)
  end.
Proof.
  unfold initialize, call_create_client, try_except, bind, emit, modify, get.
  simpl. destruct (create_client env (client_calls s)); reflexivity.
Qed.

Lemma flow_without_session env self s :
  session s = None ->
  flow env self s = (Ok (VBool false), set_trace (trace s ++ [EFlow]) s).
Proof.
  intros H. unfold flow, try_except, bind, emit, modify, get. simpl.
  now rewrite H.
Qed.

(** [initialize] and [flow] catch every exception themselves. *)
Lemma initialize_never_raises env self s :
  exists b s', initialize env self s = (Ok (VBool b), s').
Proof.
  rewrite initialize_eq. simpl. destruct (create_client _ _); eauto.
Qed.

Lemma flow_never_raises env self s :
  exists b s', flow env self s = (Ok (VBool b), s').
Proof.
  unfold flow, try_except. unfold bind at 1.
  destruct (emit EFlow s) as [[[]|e] s1] eqn:He; [|discriminate].
  match goal with |- context [match ?m s1 with _ => _ end] =>
    destruct (m s1) as [[v|e] s2] eqn:Hb end.
  - revert Hb. unfold bind at 1, get.
    destruct (session s1); [|intros [= <- <-]; eauto].
    repeat (unfold bind at 1;
            match goal with |- context [match ?m ?x with _ => _ end] =>
              destruct (m x) as [[?|?] ?] end; try discriminate).
    intros [= <- <-]. eauto.
  - eauto.
Qed.

(** ** Sequencing *)

Lemma bind_ok {A B} (m : M A) (f : A -> M B) s a s1 :
  m s = (Ok a, s1) -> bind m f s = f a s1.
Proof. intros H. unfold bind. now rewrite H. Qed.

Lemma bind_raise {A B} (m : M A) (f : A -> M B) s e s1 :
  m s = (Raise e, s1) -> bind m f s = (Raise e, s1).
Proof. intros H. unfold bind. now rewrite H. Qed.

Lemma random_sleep_eq env range s :
  valid_range range ->
  _random_sleep env range s = (Ok tt, after_pause env range s).
Proof. apply random_pause. Qed.

(** ** Code that only appends events of one kind to the trace *)

Section Appends.
Context (P : Event -> bool).

Lemma appends_ret {A} (a : A) : appends P (ret a).
Proof. intros s. exists []. simpl. now rewrite app_nil_r. Qed.

Lemma appends_raise {A} e : appends P (@raise A e).
Proof. intros s. exists []. simpl. now rewrite app_nil_r. Qed.

Lemma appends_lift {A} (r : Res A) : appends P (lift r).
Proof. intros s. exists []. simpl. now rewrite app_nil_r. Qed.

Lemma appends_get {A} (f : St -> A) : appends P (get f).
Proof. intros s. exists []. simpl. now rewrite app_nil_r. Qed.

Lemma appends_modify f :
  (forall s, trace (f s) = trace s /\ success_data (f s) = success_data s /\
             error_data (f s) = error_data s /\ io_calls (f s) = io_calls s) ->
  appends P (modify f).
Proof.
  intros H s. destruct (H s) as (Ht & Hs & He & Hi). exists []. simpl.
  now rewrite app_nil_r, Ht, Hs, He, Hi.
Qed.

Lemma appends_emit e : P e = true -> appends P (emit e).
Proof. intros H s. exists [e]. simpl. now rewrite H. Qed.

Lemma appends_bind {A B} (m : M A) (f : A -> M B) :
  appends P m -> (forall a, appends P (f a)) -> appends P (bind m f).
Proof.
  intros Hm Hf s. unfold bind.
  destruct (Hm s) as (r1 & Ht1 & Hp1 & Hs1 & He1 & Hi1).
  destruct (m s) as [[a|e] s1]; simpl in *.
  - destruct (Hf a s1) as (r2 & Ht2 & Hp2 & Hs2 & He2 & Hi2). exists (r1 ++ r2).
    rewrite Ht2, Ht1, app_assoc, forallb_app, Hp1, Hp2, Hs2, He2, Hi2. auto.
  - exists r1. auto.
Qed.

Lemma appends_try {A} (body : M A) (handler : Exn -> M A) :
  appends P body -> (forall e, appends P (handler e)) ->
  appends P (try_except body handler).
Proof.
  intros Hm Hf s. unfold try_except.
  destruct (Hm s) as (r1 & Ht1 & Hp1 & Hs1 & He1 & Hi1).
  destruct (body s) as [[a|e] s1]; simpl in *.
  - exists r1. auto.
  - destruct (Hf e s1) as (r2 & Ht2 & Hp2 & Hs2 & He2 & Hi2). exists (r1 ++ r2).
    rewrite Ht2, Ht1, app_assoc, forallb_app, Hp1, Hp2, Hs2, He2, Hi2. auto.
Qed.

(** The steps that build the code of the repository from the primitives. *)
Ltac appends_steps :=
  repeat first
    [ apply appends_ret | apply appends_raise | apply appends_lift
    | apply appends_get
    | apply appends_modify; solve [intros; repeat split; reflexivity]
    | apply appends_emit; solve [auto]
    | apply appends_bind; [|intros]
    | apply appends_try; [|intros]
    | progress case_match
    | assumption ].

Lemma appends_draw env : appends P (draw env).
Proof. unfold draw. appends_steps. Qed.

Lemma appends_randint env range : appends P (randint env range).
Proof.
  destruct range as [a b]. unfold randint. destruct (b <? a)%Z.
  - apply appends_raise.
  - apply appends_bind; auto using appends_draw, appends_ret.
Qed.

Lemma appends_choice env seq : appends P (choice env seq).
Proof.
  unfold choice. destruct seq; [apply appends_raise|].
  apply appends_bind; auto using appends_draw, appends_lift.
Qed.

Lemma appends_plan_tasks env tasks : appends P (plan_tasks env tasks).
Proof.
  induction tasks as [|[task|alts] tasks IH]; cbn [plan_tasks].
  - apply appends_ret.
  - apply appends_bind; auto using appends_ret.
  - apply appends_bind; [apply appends_choice|].
    intros. apply appends_bind; auto using appends_ret.
Qed.

Lemma appends_new_swapper env self : appends P (new_swapper env self).
Proof. unfold new_swapper. appends_steps. Qed.

Lemma appends_undefined_dex_swaps env self dex :
  appends P (undefined_dex_swaps env self dex).
Proof.
  unfold undefined_dex_swaps. apply appends_bind; [apply appends_randint|].
  intros. appends_steps.
Qed.

Hypothesis Psleep : forall n, P (ESleep n) = true.

Lemma appends_random_pause env range :
  appends P (pause <- randint env range ;; sleep pause).
Proof.
  apply appends_bind; [apply appends_randint|].
  intros. now apply appends_emit.
Qed.

Lemma appends_collect_loop env config retries :
  appends P (collect_loop env config retries).
Proof.
  induction retries as [|retry rest IH]; cbn [collect_loop].
  - apply appends_ret.
  - apply appends_bind.
    + apply appends_try; [apply appends_raise|]. intros _.
      apply appends_bind; [apply appends_randint|]. intros.
      apply appends_bind; [now apply appends_emit|]. intros. apply appends_ret.
    + intros [b|]; [apply appends_ret|exact IH].
Qed.

(** The swap handlers, for any [swap] call that appends such events. *)
Section Swapper.
Context (env : Env) (self : Start) (swap : M PyVal).
Hypothesis Hswap : appends P swap.

Lemma appends_retry_swap_loop config retries :
  appends P (retry_swap_loop env config swap retries).
Proof.
  induction retries as [|retry rest IH]; cbn [retry_swap_loop].
  - apply appends_ret.
  - apply appends_bind.
    + apply appends_try.
      * apply appends_bind; [exact Hswap|]. intros _.
        apply appends_bind; [apply appends_randint|]. intros.
        apply appends_bind; [now apply appends_emit|]. intros.
        apply appends_ret.
      * intros _. case_match; apply appends_ret.
    + intros [b|]; [apply appends_ret|exact IH].
Qed.

Lemma appends_retry_swap config : appends P (_retry_swap env config swap).
Proof. apply appends_retry_swap_loop. Qed.

Lemma appends_izumi_swaps : appends P (_izumi_swaps env self swap).
Proof.
  unfold _izumi_swaps. apply appends_bind; [apply appends_randint|].
  intros n. induction (py_range n) as [|num rest IH]; cbn [izumi_swaps_loop].
  - apply appends_ret.
  - apply appends_bind; [apply appends_new_swapper|]. intros _.
    apply appends_bind; [apply appends_randint|]. intros _.
    apply appends_bind; [apply appends_retry_swap|].
    intros [|]; [exact IH|apply appends_ret].
Qed.

Lemma appends_uniswap_swaps : appends P (_uniswap_swaps env self swap).
Proof.
  unfold _uniswap_swaps. apply appends_bind; [apply appends_randint|].
  intros n. induction (py_range n) as [|num rest IH]; cbn [uniswap_swaps_loop].
  - apply appends_ret.
  - apply appends_bind; [apply appends_new_swapper|]. intros _.
    apply appends_bind; [apply appends_randint|]. intros _.
    apply appends_bind; [apply appends_choice|]. intros _.
    apply appends_bind; [apply appends_retry_swap|].
    intros [|]; [exact IH|apply appends_ret].
Qed.

Lemma appends_swaps type : appends P (swaps env self swap type).
Proof.
  unfold swaps, _collect_all_to_monad.
  repeat (destruct (String.eqb type _)); try apply appends_ret;
    (apply appends_try; [|intros; apply appends_ret]);
    auto using appends_uniswap_swaps, appends_undefined_dex_swaps,
               appends_izumi_swaps, appends_collect_loop.
Qed.

End Swapper.

Lemma appends_get_wallet_stats env key n :
  appends P (get_wallet_stats env key n).
Proof. unfold get_wallet_stats. appends_steps. Qed.

Hypothesis Pinvoke : forall n, P (EInvoke n) = true.

Lemma appends_scripted script : appends P (scripted script).
Proof. unfold scripted. appends_steps. Qed.

Hypothesis Ptask : forall t, P (ETask t) = true.
Hypothesis Punknown : forall t, P (EUnknownTask t) = true.

Lemma appends_execute_task env self task :
  appends P (_execute_task env self task).
Proof.
  unfold _execute_task, swaps_izumi, _logs_task.
  repeat case_match.
  - apply appends_bind; [now apply appends_emit|]. intros _.
    apply appends_bind; [|intros; apply appends_ret].
    apply appends_bind; [apply appends_get|]. intros n.
    apply appends_bind;
      [apply appends_modify; intros; repeat split; reflexivity|].
    intros _. apply appends_swaps. apply appends_scripted.
  - apply appends_bind; [now apply appends_emit|]. intros _.
    apply appends_bind; [apply appends_get|]. intros n.
    apply appends_bind;
      [apply appends_modify; intros; repeat split; reflexivity|].
    intros _. apply appends_try; [|intros; apply appends_raise].
    apply appends_bind; [apply appends_get_wallet_stats|].
    intros; apply appends_ret.
  - now apply appends_emit.
Qed.

Lemma appends_run_tasks env self planned :
  appends P (run_tasks env self planned).
Proof.
  induction planned as [|task rest IH]; simpl.
  - apply appends_ret.
  - apply appends_bind; [apply appends_execute_task|]. intros _.
    apply appends_bind; [|intros _; exact IH].
    apply appends_random_pause.
Qed.

Hypothesis Pinitialize : P EInitialize = true.
Hypothesis Pflow : P EFlow = true.
Hypothesis Pplan : forall p, P (EPlan p) = true.

Lemma appends_initialize env self : appends P (initialize env self).
Proof.
  unfold initialize, call_create_client.
  apply appends_bind; [now apply appends_emit|]. intros _.
  apply appends_try; [|intros; apply appends_ret].
  apply appends_bind.
  - apply appends_bind; [apply appends_get|]. intros n.
    apply appends_bind;
      [apply appends_modify; intros; repeat split; reflexivity|].
    intros _. case_match; auto using appends_ret, appends_raise.
  - intros sess.
    apply appends_bind;
      [apply appends_modify; intros; repeat split; reflexivity|].
    intros _. apply appends_ret.
Qed.

Lemma appends_flow env self : appends P (flow env self).
Proof.
  unfold flow, new_MonadXYZ.
  apply appends_bind; [now apply appends_emit|]. intros _.
  apply appends_try; [|intros; apply appends_ret].
  apply appends_bind; [apply appends_get|]. intros [sess|];
    [|apply appends_ret].
  apply appends_bind; [case_match; auto using appends_ret, appends_raise|].
  intros _. apply appends_bind; [apply appends_plan_tasks|]. intros planned.
  apply appends_bind; [now apply appends_emit|]. intros _.
  apply appends_bind; [apply appends_run_tasks|]. intros _.
  apply appends_ret.
Qed.

Lemma appends_retry_loop env function config attempts :
  appends P function -> appends P (retry_loop env function config attempts).
Proof.
  intros Hf. induction attempts as [|attempt rest IH]; cbn [retry_loop].
  - apply appends_ret.
  - apply appends_bind; [exact Hf|]. intros result.
    apply appends_bind; [apply appends_lift|]. intros [|];
      [apply appends_ret|].
    apply appends_bind; [|intros _; exact IH].
    case_match; [apply appends_random_pause|apply appends_ret].
Qed.

Lemma appends_new_Start index proxy key token email config :
  appends P (new_Start index proxy key token email config).
Proof.
  unfold new_Start. apply appends_bind; [|intros; apply appends_ret].
  apply appends_modify. intros; repeat split; reflexivity.
Qed.

(** The pipeline up to its report: the warm-up pause, the instance and the
    two runs of the executor. *)
Lemma appends_executors env index proxy key token email config :
  appends P (executors env index proxy key token email config).
Proof.
  unfold executors.
  apply appends_bind; [apply appends_random_pause|]. intros _.
  apply appends_bind; [apply appends_new_Start|]. intros instance.
  apply appends_bind; [apply appends_retry_loop, appends_initialize|].
  intros success.
  apply appends_bind; [apply appends_retry_loop, appends_flow|].
  intros flowed. apply appends_ret.
Qed.

End Appends.


Lemma reports_not_report rest :
  forallb not_report rest = true -> reports rest = [].
Proof.
  induction rest as [|e rest IH]; [reflexivity|]. simpl.
  intros [He Hr]%andb_prop. destruct e; try discriminate; now apply IH.
Qed.

(** The events of the swap calls and of their pauses are no task, no plan,
    no invocation of [flow] and no report. *)
Lemma inner_read rest :
  forallb is_inner rest = true ->
  executed rest = [] /\ plans rest = [] /\ reports rest = [] /\
  count is_flow rest = 0.
Proof.
  induction rest as [|e rest IH]; [repeat split|]. simpl.
  intros [He Hr]%andb_prop. destruct (IH Hr) as (H1 & H2 & H3 & H4).
  destruct e; try discriminate; unfold count in *; simpl; auto.
Qed.

(** ** The reporters *)

Lemma index_line_nonempty account_index :
  String.eqb (index_line account_index) "" = false.
Proof.
  destruct account_index as [i|]; [|reflexivity].
  apply String.eqb_neq. unfold index_line, py_str.
  destruct (Z.to_int i) as [d|d]; simpl; [destruct d|]; discriminate.
Qed.

Lemma ledger_writable_next env s s' :
  io_calls s' = io_calls s -> ledger_writable env s -> ledger_writable env s'.
Proof. unfold ledger_writable. intros ->. auto. Qed.

Lemma ledger_writable_calls env s :
  ledger_writable env s ->
  ledger_io env (io_calls s) = None /\
  ledger_io env (S (io_calls s)) = None /\
  ledger_io env (S (S (io_calls s))) = None /\
  ledger_io env (S (S (S (io_calls s)))) = None.
Proof.
  intros H.
  pose proof (H 0 ltac:(lia)) as H0. pose proof (H 1 ltac:(lia)) as H1.
  pose proof (H 2 ltac:(lia)) as H2. pose proof (H 3 ltac:(lia)) as H3.
  rewrite Nat.add_0_r in H0.
  replace (io_calls s + 1) with (S (io_calls s)) in H1 by lia.
  replace (io_calls s + 2) with (S (S (io_calls s))) in H2 by lia.
  replace (io_calls s + 3) with (S (S (S (io_calls s)))) in H3 by lia.
  auto.
Qed.

(** One report over a file system that works. *)
Lemma report_error_eq env proxy token index s :
  ledger_writable env s ->
  report_error env proxy token index s =
  (Ok tt, after_report false proxy token index s).
Proof.
  intros (H0 & H1 & H2 & H3)%ledger_writable_calls.
  unfold report_error, files_data, write_files, file_system, after_report,
    report_calls, write_record, append_line, update_error_data.
  rewrite index_line_nonempty.
  unfold bind, emit, modify, get, ret, raise,
    set_io_calls, set_trace, set_error_data, set_success_data.
  cbn. rewrite H0. cbn. rewrite H1. cbn.
  destruct (String.eqb proxy ""), (String.eqb token ""); cbn;
    rewrite ?H2; cbn; rewrite ?H3; cbn; do 2 f_equal; lia.
Qed.

Lemma report_success_eq env proxy token index s :
  ledger_writable env s ->
  report_success env proxy token index s =
  (Ok tt, after_report true proxy token index s).
Proof.
  intros (H0 & H1 & H2 & H3)%ledger_writable_calls.
  unfold report_success, files_data, write_files, file_system, after_report,
    report_calls, write_record, append_line, update_success_data.
  rewrite index_line_nonempty.
  unfold bind, emit, modify, get, ret, raise,
    set_io_calls, set_trace, set_error_data, set_success_data.
  cbn. rewrite H0. cbn. rewrite H1. cbn.
  destruct (String.eqb proxy ""), (String.eqb token ""); cbn;
    rewrite ?H2; cbn; rewrite ?H3; cbn; do 2 f_equal; lia.
Qed.

(** What a report whose writes go through leaves to read. *)
Lemma after_report_read b proxy token index s :
  trace (after_report b proxy token index s) = trace s ++ [EReport b index] /\
  success_data (after_report b proxy token index s) =
    (if b then write_record proxy token index (success_data s)
     else success_data s) /\
  error_data (after_report b proxy token index s) =
    (if b then error_data s
     else write_record proxy token index (error_data s)) /\
  rng_pos (after_report b proxy token index s) = rng_pos s /\
  client_calls (after_report b proxy token index s) = client_calls s /\
  handler_calls (after_report b proxy token index s) = handler_calls s /\
  session (after_report b proxy token index s) = session s.
Proof. destruct b; repeat split. Qed.

(** ** The pipeline when no client can be created *)

Lemma same_outcome_refl s : same_outcome s s.
Proof. unfold same_outcome. tauto. Qed.

Lemma same_outcome_trans s1 s2 s3 :
  same_outcome s1 s2 -> same_outcome s2 s3 -> same_outcome s1 s3.
Proof. unfold same_outcome. intuition congruence. Qed.

Lemma same_outcome_pause env range s :
  same_outcome s (after_pause env range s).
Proof.
  unfold same_outcome, after_pause. simpl.
  rewrite executed_app, plans_app, reports_app. simpl.
  rewrite !app_nil_r. tauto.
Qed.

Section Offline.
Context (env : Env) (config : Config) (self : Start) (k : nat).
Hypothesis HK : ATTEMPTS (SETTINGS config) = Z.of_nat k.
Hypothesis Hk : 1 <= k.
Hypothesis Hrange : valid_range (PAUSE_BETWEEN_ATTEMPTS (SETTINGS config)).

(** All [k] attempts of [initialize] fail when [create_client] raises on
    each of them; the session stays unset. *)
Lemma initialize_all_fail s :
  session s = None ->
  (forall i, i < k -> create_client env (client_calls s + i) <> None) ->
  exists s',
    _execute_with_retries env (initialize env self) config s
    = (Ok false, s') /\
    session s' = None /\ same_outcome s s' /\
    count is_flow (trace s') = count is_flow (trace s).
Proof.
  intros Hs Hfail. unfold _execute_with_retries.
  rewrite HK, py_range_of_nat.
  pose (Before := fun (i : nat) (s' : St) =>
          session s' = None /\ same_outcome s s' /\
          client_calls s' = client_calls s + i /\
          count is_flow (trace s') = count is_flow (trace s)).
  pose (After := fun (i : nat) (s' : St) => Before (S i) s').
  destruct (retry_loop_failures env config (initialize env self) k
              Before After HK Hrange k 0 s) as [_ H]; try lia.
  - intros i s0 Hi (Hs0 & Hso & Hc & Hf).
    rewrite initialize_eq. simpl. rewrite Hc.
    destruct (create_client env (client_calls s + i)) eqn:Hcc.
    2:{ exfalso. apply (Hfail i); [lia|assumption]. }
    eexists _, _. split; [reflexivity|]. split; [reflexivity|].
    unfold After, Before. simpl. split; [assumption|]. split.
    + eapply same_outcome_trans; [exact Hso|].
      unfold same_outcome. simpl.
      rewrite executed_app, plans_app, reports_app. simpl.
      rewrite !app_nil_r. tauto.
    + rewrite count_app, Hf. unfold count. simpl. lia.
  - intros i s0 _ _ (Hs0 & Hso & Hc & Hf). unfold Before. simpl.
    split; [assumption|]. split.
    + eapply same_outcome_trans; [exact Hso|]. apply same_outcome_pause.
    + rewrite count_app, Hf. unfold count. simpl. lia.
  - unfold Before. rewrite Nat.add_0_r. auto using same_outcome_refl.
  - rewrite Nat.sub_0_r in H.
    destruct (H eq_refl Hk) as (s' & Hloop & (Hs' & Hso & _ & Hf)).
    exists s'. tauto.
Qed.

(** Without a session every attempt of [flow] stops at its guard: [k]
    invocations, no plan, no task. *)
Lemma flow_all_fail s :
  session s = None ->
  exists s',
    _execute_with_retries env (flow env self) config s = (Ok false, s') /\
    session s' = None /\ same_outcome s s' /\
    count is_flow (trace s') = count is_flow (trace s) + k.
Proof.
  intros Hs. unfold _execute_with_retries.
  rewrite HK, py_range_of_nat.
  pose (Before := fun (i : nat) (s' : St) =>
          session s' = None /\ same_outcome s s' /\
          count is_flow (trace s') = count is_flow (trace s) + i).
  pose (After := fun (i : nat) (s' : St) => Before (S i) s').
  destruct (retry_loop_failures env config (flow env self) k
              Before After HK Hrange k 0 s) as [_ H]; try lia.
  - intros i s0 Hi (Hs0 & Hso & Hf).
    rewrite (flow_without_session _ _ _ Hs0).
    eexists _, _. split; [reflexivity|]. split; [reflexivity|].
    unfold After, Before. simpl. split; [assumption|]. split.
    + eapply same_outcome_trans; [exact Hso|].
      unfold same_outcome. simpl.
      rewrite executed_app, plans_app, reports_app. simpl.
      rewrite !app_nil_r. tauto.
    + rewrite count_app, Hf. unfold count. simpl. lia.
  - intros i s0 _ _ (Hs0 & Hso & Hf). unfold Before. simpl.
    split; [assumption|]. split.
    + eapply same_outcome_trans; [exact Hso|]. apply same_outcome_pause.
    + rewrite count_app, Hf. unfold count. simpl. lia.
  - unfold Before. rewrite Nat.add_0_r. auto using same_outcome_refl.
  - rewrite Nat.sub_0_r in H.
    destruct (H eq_refl Hk) as (s' & Hloop & (Hs' & Hso & Hf)).
    exists s'. replace (count is_flow (trace s) + k)
      with (count is_flow (trace s) + S (k - 1)) by lia. tauto.
Qed.

End Offline.


(** The executor on [initialize] or [flow] stays away from the file
    system of the ledgers. *)
Lemma initialize_run_io env self config s r s' :
  _execute_with_retries env (initialize env self) config s = (r, s') ->
  io_calls s' = io_calls s.
Proof.
  intros H.
  destruct (appends_retry_loop (fun _ => true) ltac:(reflexivity) env
              (initialize env self) config
              (py_range (ATTEMPTS (SETTINGS config)))
              (appends_initialize (fun _ => true) eq_refl env self) s)
    as (rest & _ & _ & _ & _ & Hio).
  unfold _execute_with_retries in H. now rewrite H in Hio.
Qed.

Lemma flow_run_io env self config s r s' :
  _execute_with_retries env (flow env self) config s = (r, s') ->
  io_calls s' = io_calls s.
Proof.
  intros H.
  destruct (appends_retry_loop (fun _ => true) ltac:(reflexivity) env
              (flow env self) config
              (py_range (ATTEMPTS (SETTINGS config)))
              (appends_flow (fun _ => true) ltac:(reflexivity)
                 ltac:(reflexivity) ltac:(reflexivity) ltac:(reflexivity)
                 ltac:(reflexivity) ltac:(reflexivity) env self) s)
    as (rest & _ & _ & _ & _ & Hio).
  unfold _execute_with_retries in H. now rewrite H in Hio.
Qed.

(** C2 (amended).  When [create_client] raises on each of the [k]
    attempts of [initialize] ([ATTEMPTS = k >= 1], pause ranges not empty),
    [account_flow] still hands [flow] to the retry executor: [flow] is
    invoked [k] times, and each invocation stops at its session guard, so
    that no plan is resolved and no task is awaited.  When the error
    ledger can then be written, the pipeline reports the account once, as
    failed, returns normally and writes nothing below the success root. *)
Theorem pipeline_without_client :
  forall (env : Env) (index : Z) (proxy key token email : string)
         (config : Config) (s : St) (k : nat),
    ATTEMPTS (SETTINGS config) = Z.of_nat k ->
    1 <= k ->
    valid_range (RANDOM_INITIALIZATION_PAUSE (SETTINGS config)) ->
    valid_range (PAUSE_BETWEEN_ATTEMPTS (SETTINGS config)) ->
    valid_range (RANDOM_PAUSE_BETWEEN_ACCOUNTS (SETTINGS config)) ->
    (forall i, i < k -> create_client env (client_calls s + i) <> None) ->
    ledger_writable env s ->
    exists s',
      account_flow env index proxy key token email config s = (Ok tt, s') /\
      count is_flow (trace s') = count is_flow (trace s) + k /\
      executed (trace s') = executed (trace s) /\
      plans (trace s') = plans (trace s) /\
      reports (trace s') = reports (trace s) ++ [(false, Some index)] /\
      success_data s' = success_data s.
Proof.
  intros env index proxy key token email config s k HK Hk Hinit Hrange Hnext
         Hfail Hio.
  set (self := mkStart index proxy key token email config).
  set (s1 := after_pause env (RANDOM_INITIALIZATION_PAUSE (SETTINGS config)) s).
  set (s2 := set_session None s1).
  destruct (initialize_all_fail env config self k HK Hk Hrange s2 eq_refl Hfail)
    as (s3 & H3 & Hs3 & Hso3 & Hf3).
  destruct (flow_all_fail env config self k HK Hk Hrange s3 Hs3)
    as (s4 & H4 & Hs4 & Hso4 & Hf4).
  assert (Hio4 : ledger_writable env s4).
  { apply (ledger_writable_next env s); [|assumption].
    rewrite (flow_run_io _ _ _ _ _ _ H4), (initialize_run_io _ _ _ _ _ _ H3).
    reflexivity. }
  eexists. split.
  - unfold account_flow, try_except.
    rewrite (bind_ok _ _ _ _ _ (random_sleep_eq env _ s Hinit)).
    unfold new_Start. unfold bind at 1, modify. fold s1. fold s2.
    unfold bind at 1, ret. fold self.
    rewrite (bind_ok _ _ _ _ _ H3), (bind_ok _ _ _ _ _ H4). simpl.
    rewrite (bind_ok _ _ _ _ _ (report_error_eq env _ _ _ s4 Hio4)).
    rewrite (random_sleep_eq env _ _ Hnext). reflexivity.
  - assert (Hso : same_outcome s s4).
    { eapply same_outcome_trans; [|exact Hso4].
      eapply same_outcome_trans; [|exact Hso3].
      apply (same_outcome_pause env _ s). }
    destruct Hso as (He & Hp & Hr & Hsd & Hed). simpl.
    rewrite !count_app, !executed_app, !plans_app, !reports_app. simpl.
    rewrite !app_nil_r, Hf4, Hf3, He, Hp, Hr, Hsd.
    unfold s2, s1, count. simpl. rewrite List.filter_app. simpl.
    rewrite app_nil_r. repeat split; lia.
Qed.

(** C2, as stated, fails: with two attempts and no client ever created,
    [flow] is invoked twice before the failure is reported. *)
Lemma pipeline_flow_invoked_without_client :
  exists s',
    account_flow offline_env 7 example_proxy example_key "d" "e"
      (example_config 2 [Single "izumi"]) st0 = (Ok tt, s') /\
    session s' = None /\
    count is_flow (trace s') = 2 /\
    reports (trace s') = [(false, Some 7%Z)].
Proof.
  eexists. split; [vm_compute; reflexivity|]. vm_compute. repeat split.
Qed.

(** Witness of C2. *)
Lemma pipeline_without_client_witness :
  exists s',
    account_flow offline_env 7 example_proxy example_key "d" "e"
      (example_config 2 [Single "izumi"]) st0 = (Ok tt, s') /\
    count is_flow (trace s') = count is_flow (trace st0) + 2 /\
    executed (trace s') = executed (trace st0) /\
    plans (trace s') = plans (trace st0) /\
    reports (trace s') = reports (trace st0) ++ [(false, Some 7%Z)] /\
    success_data s' = success_data st0.
Proof.
  apply (pipeline_without_client offline_env 7 example_proxy example_key
           "d" "e" (example_config 2 [Single "izumi"]) st0 2 eq_refl).
  - lia.
  - unfold valid_range. simpl. lia.
  - unfold valid_range. simpl. lia.
  - unfold valid_range. simpl. lia.
  - intros i _. discriminate.
  - intros i _. reflexivity.
Defined.

(** ** Code that leaves a component of the state alone *)

Section Keeps.
Context {B : Type} (f : St -> B).
Hypothesis Htrace : forall t s, f (set_trace t s) = f s.
Hypothesis Hrng : forall n s, f (set_rng_pos n s) = f s.
Hypothesis Hop : forall n s, f (set_op_calls n s) = f s.

Lemma keeps_ret {A} (a : A) : keeps f (ret a).
Proof. intros s. reflexivity. Qed.

Lemma keeps_raise {A} e : keeps f (@raise A e).
Proof. intros s. reflexivity. Qed.

Lemma keeps_lift {A} (r : Res A) : keeps f (lift r).
Proof. intros s. reflexivity. Qed.

Lemma keeps_get {A} (g : St -> A) : keeps f (get g).
Proof. intros s. reflexivity. Qed.

Lemma keeps_emit e : keeps f (emit e).
Proof. intros s. apply Htrace. Qed.

Lemma keeps_modify g : (forall s, f (g s) = f s) -> keeps f (modify g).
Proof. intros H s. apply H. Qed.

Lemma keeps_bind {A C} (m : M A) (k : A -> M C) :
  keeps f m -> (forall a, keeps f (k a)) -> keeps f (bind m k).
Proof.
  intros Hm Hk s. unfold bind. specialize (Hm s).
  destruct (m s) as [[a|e] s1]; simpl in *; [|assumption].
  now rewrite Hk.
Qed.

Lemma keeps_try {A} (body : M A) (handler : Exn -> M A) :
  keeps f body -> (forall e, keeps f (handler e)) ->
  keeps f (try_except body handler).
Proof.
  intros Hm Hk s. unfold try_except. specialize (Hm s).
  destruct (body s) as [[a|e] s1]; simpl in *; [assumption|].
  now rewrite Hk.
Qed.

Ltac keeps_steps :=
  repeat first
    [ apply keeps_ret | apply keeps_raise | apply keeps_lift
    | apply keeps_get | apply keeps_emit
    | apply keeps_modify; solve [auto]
    | apply keeps_bind; [|intros]
    | apply keeps_try; [|intros]
    | progress case_match
    | assumption ].

Lemma keeps_randint env range : keeps f (randint env range).
Proof.
  destruct range as [a b]. unfold randint, draw.
  destruct (b <? a)%Z; keeps_steps.
Qed.

Lemma keeps_choice env seq : keeps f (choice env seq).
Proof. unfold choice, draw. destruct seq; keeps_steps. Qed.

Lemma keeps_plan_tasks env tasks : keeps f (plan_tasks env tasks).
Proof.
  induction tasks as [|[task|alts] tasks IH]; cbn [plan_tasks].
  - apply keeps_ret.
  - apply keeps_bind; [exact IH|]. intros. apply keeps_ret.
  - apply keeps_bind; [apply keeps_choice|]. intros.
    apply keeps_bind; [exact IH|]. intros. apply keeps_ret.
Qed.

Lemma keeps_scripted script : keeps f (scripted script).
Proof. unfold scripted. keeps_steps. Qed.

Lemma keeps_random_pause env range :
  keeps f (pause <- randint env range ;; sleep pause).
Proof.
  apply keeps_bind; [apply keeps_randint|]. intros. apply keeps_emit.
Qed.

Lemma keeps_collect_loop env config retries :
  keeps f (collect_loop env config retries).
Proof.
  induction retries as [|retry rest IH]; cbn [collect_loop].
  - apply keeps_ret.
  - apply keeps_bind.
    + apply keeps_try; [apply keeps_raise|]. intros _.
      apply keeps_bind; [apply keeps_randint|]. intros.
      apply keeps_bind; [apply keeps_emit|]. intros. apply keeps_ret.
    + intros [b|]; [apply keeps_ret|exact IH].
Qed.

Section Swapper.
Context (env : Env) (self : Start) (swap : M PyVal).
Hypothesis Hswap : keeps f swap.

Lemma keeps_retry_swap config : keeps f (_retry_swap env config swap).
Proof.
  unfold _retry_swap.
  induction (py_range (ATTEMPTS (SETTINGS config))) as [|retry rest IH];
    cbn [retry_swap_loop].
  - apply keeps_ret.
  - apply keeps_bind.
    + apply keeps_try.
      * apply keeps_bind; [exact Hswap|]. intros _.
        apply keeps_bind; [apply keeps_randint|]. intros.
        apply keeps_bind; [apply keeps_emit|]. intros. apply keeps_ret.
      * intros _. case_match; apply keeps_ret.
    + intros [b|]; [apply keeps_ret|exact IH].
Qed.

Lemma keeps_izumi_swaps : keeps f (_izumi_swaps env self swap).
Proof.
  unfold _izumi_swaps. apply keeps_bind; [apply keeps_randint|].
  intros n. induction (py_range n) as [|num rest IH]; cbn [izumi_swaps_loop].
  - apply keeps_ret.
  - apply keeps_bind; [unfold new_swapper; keeps_steps|]. intros _.
    apply keeps_bind; [apply keeps_randint|]. intros _.
    apply keeps_bind; [apply keeps_retry_swap|].
    intros [|]; [exact IH|apply keeps_ret].
Qed.

Lemma keeps_uniswap_swaps : keeps f (_uniswap_swaps env self swap).
Proof.
  unfold _uniswap_swaps. apply keeps_bind; [apply keeps_randint|].
  intros n. induction (py_range n) as [|num rest IH]; cbn [uniswap_swaps_loop].
  - apply keeps_ret.
  - apply keeps_bind; [unfold new_swapper; keeps_steps|]. intros _.
    apply keeps_bind; [apply keeps_randint|]. intros _.
    apply keeps_bind; [apply keeps_choice|]. intros _.
    apply keeps_bind; [apply keeps_retry_swap|].
    intros [|]; [exact IH|apply keeps_ret].
Qed.

Lemma keeps_swaps type : keeps f (swaps env self swap type).
Proof.
  unfold swaps, _collect_all_to_monad, undefined_dex_swaps.
  repeat (destruct (String.eqb type _)); try apply keeps_ret;
    (apply keeps_try; [|intros; apply keeps_ret]);
    auto using keeps_uniswap_swaps, keeps_izumi_swaps, keeps_collect_loop.
  all: apply keeps_bind; [apply keeps_randint|]; intros; keeps_steps.
Qed.

End Swapper.

Lemma keeps_get_wallet_stats env key n : keeps f (get_wallet_stats env key n).
Proof. unfold get_wallet_stats. keeps_steps. Qed.

Hypothesis Hhandler : forall n s, f (set_handler_calls n s) = f s.

Lemma keeps_execute_task env self task : keeps f (_execute_task env self task).
Proof.
  unfold _execute_task, swaps_izumi, _logs_task.
  repeat (destruct (String.eqb task _)).
  - apply keeps_bind; [apply keeps_emit|]. intros _.
    apply keeps_bind; [|intros; apply keeps_ret].
    apply keeps_bind; [apply keeps_get|]. intros n.
    apply keeps_bind; [apply keeps_modify; auto|]. intros _.
    apply keeps_swaps, keeps_scripted.
  - apply keeps_bind; [apply keeps_emit|]. intros _.
    apply keeps_bind; [apply keeps_get|]. intros n.
    apply keeps_bind; [apply keeps_modify; auto|]. intros _.
    apply keeps_try; [|intros; apply keeps_raise].
    apply keeps_bind; [apply keeps_get_wallet_stats|].
    intros; apply keeps_ret.
  - apply keeps_emit.
Qed.

Lemma keeps_run_tasks env self planned :
  keeps f (run_tasks env self planned).
Proof.
  induction planned as [|task rest IH]; cbn [run_tasks].
  - apply keeps_ret.
  - apply keeps_bind; [apply keeps_execute_task|]. intros _.
    apply keeps_bind; [|intros _; exact IH]. apply keeps_random_pause.
Qed.

Lemma keeps_flow env self : keeps f (flow env self).
Proof.
  unfold flow, new_MonadXYZ.
  apply keeps_bind; [apply keeps_emit|]. intros _.
  apply keeps_try; [|intros; apply keeps_ret].
  apply keeps_bind; [apply keeps_get|]. intros [sess|]; [|apply keeps_ret].
  apply keeps_bind; [case_match; auto using keeps_ret, keeps_raise|].
  intros _. apply keeps_bind; [apply keeps_plan_tasks|].
  intros planned. apply keeps_bind; [apply keeps_emit|].
  intros _. apply keeps_bind; [apply keeps_run_tasks|].
  intros _. apply keeps_ret.
Qed.

End Keeps.

(** ** The task loop of [flow] *)

(** [MonadXYZ.swaps] catches what its handler raises. *)
Lemma swaps_never_raises env self swap type s :
  exists b s', swaps env self swap type s = (Ok b, s').
Proof.
  unfold swaps.
  repeat (destruct (String.eqb type _)); try (eexists _, _; reflexivity);
    unfold try_except;
    match goal with |- context [match ?m s with _ => _ end] =>
      destruct (m s) as [[b|e] s'] end; eexists _, _; reflexivity.
Qed.

(** [get_wallet_stats] catches what its body raises. *)
Lemma get_wallet_stats_never_raises env key n s :
  exists b, get_wallet_stats env key n s = (Ok b, s).
Proof.
  unfold get_wallet_stats, try_except, bind, ret, raise.
  destruct (from_key env key), (wallet_stats env n); eauto.
Qed.

(** No task raises into [flow]: a known task leaves its task event and
    then only the events of its swap calls and pauses, an unknown task
    leaves its warning. *)
Lemma execute_task_run env self task s :
  exists s1 body,
    _execute_task env self task s = (Ok tt, s1) /\
    trace s1 = trace s ++ task_event task :: body /\
    forallb is_inner body = true /\
    handler_calls s1 = handler_calls s + (if known_task task then 1 else 0) /\
    session s1 = session s /\
    success_data s1 = success_data s /\
    error_data s1 = error_data s /\
    io_calls s1 = io_calls s.
Proof.
  unfold _execute_task, task_event, known_task.
  destruct (String.eqb task "izumi") eqn:Hi; cbn [orb].
  - unfold swaps_izumi. unfold bind at 1, emit, modify.
    unfold bind at 1. unfold bind at 1, get. unfold bind at 1.
    match goal with |- context [swaps ?e ?sf ?sw ?t ?st] =>
      destruct (swaps_never_raises e sf sw t st) as (b & s1 & Hsw);
      destruct (appends_swaps is_inner ltac:(reflexivity) e sf sw
                  (appends_scripted is_inner ltac:(reflexivity) _) t st)
        as (body & Ht & Hp & Hsd & Hed & Hio);
      pose proof (keeps_swaps session ltac:(reflexivity) ltac:(reflexivity)
                    e sf sw
                    (keeps_scripted session ltac:(reflexivity)
                       ltac:(reflexivity) _) t st) as Hs;
      pose proof (keeps_swaps handler_calls ltac:(reflexivity)
                    ltac:(reflexivity) e sf sw
                    (keeps_scripted handler_calls ltac:(reflexivity)
                       ltac:(reflexivity) _) t st) as Hh
    end.
    rewrite Hsw in *. simpl in Ht, Hsd, Hed, Hio, Hs, Hh.
    exists s1, body. split; [reflexivity|].
    rewrite Ht, Hh, Hs, Hsd, Hed, Hio, <- app_assoc. simpl.
    repeat split; try assumption; lia.
  - destruct (String.eqb task "logs") eqn:Hl.
    + unfold _logs_task. unfold bind at 1, emit, modify.
      unfold bind at 1, get. unfold bind at 1. unfold try_except.
      unfold bind at 1.
      match goal with |- context [get_wallet_stats ?e ?k ?n ?st] =>
        destruct (get_wallet_stats_never_raises e k n st) as [b Hb] end.
      rewrite Hb. eexists _, []. split; [reflexivity|]. simpl.
      repeat split; lia.
    + eexists _, []. split; [reflexivity|]. simpl. repeat split; lia.
Qed.

Lemma handlers_in_cons task rest :
  handlers_in (task :: rest) =
  (if known_task (lower task) then 1 else 0) + handlers_in rest.
Proof.
  unfold handlers_in. simpl. now destruct (known_task (lower task)).
Qed.

Section TaskLoop.
Context (env : Env) (self : Start).
Abbreviation actions :=
  (RANDOM_PAUSE_BETWEEN_ACTIONS (SETTINGS (config self))).

Lemma run_tasks_step task rest s s1 :
  valid_range actions ->
  _execute_task env self (lower task) s = (Ok tt, s1) ->
  run_tasks env self (task :: rest) s =
  run_tasks env self rest (after_pause env actions s1).
Proof.
  intros Hrange H. simpl. rewrite (bind_ok _ _ _ _ _ H).
  unfold _sleep. now rewrite (bind_ok _ _ _ _ _ (random_pause env _ s1 Hrange)).
Qed.

(** With a range of pauses that is not empty the loop runs every task. *)
Lemma run_tasks_all planned s :
  valid_range actions ->
  exists s', run_tasks env self planned s = (Ok tt, s') /\
             runs_all env self planned s s'.
Proof.
  intros Hrange. revert s. induction planned as [|task rest IH]; intros s.
  - exists s. split; [reflexivity|constructor].
  - destruct (execute_task_run env self (lower task) s)
      as (s1 & body & Hexec & _).
    destruct (IH (after_pause env actions s1)) as (s' & Hrun & Hall).
    exists s'. rewrite (run_tasks_step _ _ _ _ Hrange Hexec).
    split; [exact Hrun|]. econstructor; eassumption.
Qed.

(** With an empty range the loop ends in the pause behind its first
    task. *)
Lemma run_tasks_first task rest s :
  ~ valid_range actions ->
  exists s1,
    _execute_task env self (lower task) s = (Ok tt, s1) /\
    run_tasks env self (task :: rest) s = (Raise ValueError, s1).
Proof.
  intros Hrange.
  destruct (execute_task_run env self (lower task) s)
    as (s1 & body & Hexec & _).
  exists s1. split; [exact Hexec|]. simpl. rewrite (bind_ok _ _ _ _ _ Hexec).
  unfold _sleep.
  now rewrite (bind_raise _ _ _ _ _
                 (bind_raise _ _ _ _ _ (randint_empty env _ s1 Hrange))).
Qed.

(** What a run of every task leaves to read. *)
Lemma runs_all_read planned s s' :
  runs_all env self planned s s' ->
  executed (trace s') =
    executed (trace s) ++ List.filter known_task (map lower planned) /\
  plans (trace s') = plans (trace s) /\
  reports (trace s') = reports (trace s) /\
  count is_flow (trace s') = count is_flow (trace s) /\
  handler_calls s' = handler_calls s + handlers_in planned /\
  session s' = session s /\
  count is_sleep (trace s) + length planned <= count is_sleep (trace s').
Proof.
  induction 1 as [s|task rest s s1 s' Hexec Hrest IH].
  - simpl. rewrite app_nil_r. unfold handlers_in. simpl. repeat split; lia.
  - destruct (execute_task_run env self (lower task) s)
      as (s1' & body & Hexec' & Ht & Hp & Hh & Hs & _).
    rewrite Hexec in Hexec'. injection Hexec' as <-.
    destruct (inner_read body Hp) as (Be & Bp & Br & Bf).
    destruct IH as (He & Hpl & Hr & Hf & Hh' & Hs' & Hsl).
    rewrite He, Hpl, Hr, Hf, Hh', Hs', handlers_in_cons.
    simpl in Hsl |- *. rewrite Ht, Hh, Hs in *.
    change (task_event (lower task) :: body)
      with ([task_event (lower task)] ++ body) in *.
    rewrite !executed_app, !plans_app, !reports_app, !count_app in *.
    rewrite Be, Bp, Br, Bf. unfold task_event in *.
    destruct (known_task (lower task)); unfold count in *; simpl in *;
      rewrite ?app_nil_r, <- ?app_assoc; simpl; repeat split; lia.
Qed.

End TaskLoop.

(** ** Resolving the configured slots *)

Lemma py_index_mod {A} (l : list A) (r : Z) :
  l <> [] ->
  exists x, py_index l (r mod Z.of_nat (length l)) = Ok x /\ In x l.
Proof.
  intros Hl.
  assert (Hlen : 0 < length l) by (destruct l; [congruence|simpl; lia]).
  pose proof (Z.mod_pos_bound r (Z.of_nat (length l)) ltac:(lia)) as Hb.
  rewrite <- (Z2Nat.id (r mod _)) by lia. rewrite py_index_nat.
  destruct (l !! Z.to_nat (r mod Z.of_nat (length l))) as [x|] eqn:Hx.
  - exists x. split; [reflexivity|].
    apply list_elem_of_In, list_elem_of_lookup. eauto.
  - apply lookup_ge_None in Hx. lia.
Qed.

Lemma choice_eq env seq s :
  seq <> [] ->
  choice env seq s =
  (py_index seq (rng env (rng_pos s) mod Z.of_nat (length seq)),
   set_rng_pos (S (rng_pos s)) s).
Proof. destruct seq; [congruence|]. reflexivity. Qed.

Lemma set_rng_pos_add_0 s : set_rng_pos (rng_pos s + 0) s = s.
Proof. destruct s. unfold set_rng_pos. simpl. now rewrite Nat.add_0_r. Qed.

(** Without an empty slot the planning loop cannot fail: it takes one draw
    per slot of alternatives and yields a legal task for every slot. *)
Lemma plan_tasks_resolves env tasks s :
  no_empty_slot tasks ->
  exists planned,
    plan_tasks env tasks s =
    (Ok planned, set_rng_pos (rng_pos s + alternative_slots tasks) s) /\
    Forall2 resolves tasks planned.
Proof.
  unfold no_empty_slot. intros H. revert s.
  induction H as [|item tasks Hitem _ IH]; intros s.
  - exists []. simpl. unfold ret. rewrite set_rng_pos_add_0. auto.
  - destruct item as [task|alts].
    + destruct (IH s) as (planned & Hp & Hr).
      exists (task :: planned). simpl. rewrite (bind_ok _ _ _ _ _ Hp).
      split; [reflexivity|]. constructor; [reflexivity|assumption].
    + destruct (py_index_mod alts (rng env (rng_pos s))) as (x & Hx & Hin);
        [congruence|].
      destruct (IH (set_rng_pos (S (rng_pos s)) s)) as (planned & Hp & Hr).
      exists (x :: planned). split.
      * cbn [plan_tasks].
        assert (Hc : choice env alts s =
                     (Ok x, set_rng_pos (S (rng_pos s)) s)).
        { rewrite choice_eq, Hx by congruence. reflexivity. }
        rewrite (bind_ok _ _ _ _ _ Hc), (bind_ok _ _ _ _ _ Hp).
        unfold ret. f_equal. destruct s.
        unfold set_rng_pos, alternative_slots. simpl. f_equal. lia.
      * constructor; assumption.
Qed.

(** The planning loop reads and writes nothing but the random source. *)
Lemma plan_tasks_set_trace env tasks t s r s1 :
  plan_tasks env tasks s = (r, s1) ->
  plan_tasks env tasks (set_trace t s) = (r, set_trace t s1).
Proof.
  revert s r s1. induction tasks as [|[task|alts] tasks IH]; intros s r s1.
  - intros [= <- <-]. reflexivity.
  - cbn [plan_tasks]. unfold bind.
    destruct (plan_tasks env tasks s) as [r0 s0] eqn:E.
    rewrite (IH _ _ _ E). destruct r0; intros [= <- <-]; reflexivity.
  - cbn [plan_tasks]. destruct alts as [|a alts].
    { intros [= <- <-]. reflexivity. }
    intros H. unfold bind at 1 in H. unfold bind at 1.
    rewrite choice_eq in H |- * by congruence.
    change (rng_pos (set_trace t s)) with (rng_pos s).
    destruct (py_index (a :: alts) _) as [x|e].
    + unfold bind in H |- *.
      destruct (plan_tasks env tasks (set_rng_pos (S (rng_pos s)) s))
        as [r0 s0] eqn:E.
      change (set_rng_pos (S (rng_pos s)) (set_trace t s))
        with (set_trace t (set_rng_pos (S (rng_pos s)) s)).
      rewrite (IH _ _ _ E). destruct r0; injection H as <- <-; reflexivity.
    + injection H as <- <-. reflexivity.
Qed.

(** ** [flow] once the session exists *)

Lemma flow_eq env self s sess :
  session s = Some sess ->
  from_key env (private_key self) = None ->
  no_empty_slot (TASKS (FLOW (config self))) ->
  exists planned,
    plan_tasks env (TASKS (FLOW (config self))) s =
    (Ok planned,
     set_rng_pos (rng_pos s + alternative_slots (TASKS (FLOW (config self))))
       s) /\
    Forall2 resolves (TASKS (FLOW (config self))) planned /\
    flow env self s =
    (let s2 :=
       set_trace (trace s ++ [EFlow; EPlan planned])
         (set_rng_pos
            (rng_pos s + alternative_slots (TASKS (FLOW (config self)))) s) in
     match run_tasks env self planned s2 with
     | (Ok _, s') => (Ok (VBool true), s')
     | (Raise _, s') => (Ok (VBool false), s')
     end).
Proof.
  intros Hs Hkey Hslots.
  destruct (plan_tasks_resolves env _ s Hslots) as (planned & Hp & Hr).
  exists planned. split; [assumption|]. split; [assumption|].
  unfold flow, try_except. unfold bind at 1, emit, modify.
  unfold bind at 1, get. simpl. rewrite Hs.
  unfold new_MonadXYZ. rewrite Hkey. unfold bind at 1, ret.
  unfold bind at 1. rewrite (plan_tasks_set_trace _ _ _ _ _ _ Hp). simpl.
  unfold bind at 1, emit, modify. simpl. rewrite <- app_assoc. simpl.
  unfold bind.
  destruct (run_tasks env self planned _) as [[[]|e] s']; reflexivity.
Qed.

(** One invocation of [flow] that gets to its tasks, with a range of
    pauses that is not empty. *)
Lemma flow_all_tasks env self s sess :
  session s = Some sess ->
  from_key env (private_key self) = None ->
  no_empty_slot (TASKS (FLOW (config self))) ->
  valid_range (RANDOM_PAUSE_BETWEEN_ACTIONS (SETTINGS (config self))) ->
  exists planned s2 s',
    Forall2 resolves (TASKS (FLOW (config self))) planned /\
    trace s2 = trace s ++ [EFlow; EPlan planned] /\
    runs_all env self planned s2 s' /\
    flow env self s = (Ok (VBool true), s') /\
    executed (trace s') =
      executed (trace s) ++ List.filter known_task (map lower planned) /\
    count is_sleep (trace s) + length planned <= count is_sleep (trace s') /\
    plans (trace s') = plans (trace s) ++ [planned] /\
    reports (trace s') = reports (trace s) /\
    count is_flow (trace s') = count is_flow (trace s) + 1.
Proof.
  intros Hs Hkey Hslots Hrange.
  destruct (flow_eq env self s sess Hs Hkey Hslots)
    as (planned & Hplan & Hres & Hflow).
  cbv zeta in Hflow. set (s2 := set_trace _ _) in Hflow.
  destruct (run_tasks_all env self planned s2 Hrange) as (s' & Hrun & Hall).
  rewrite Hrun in Hflow.
  destruct (runs_all_read env self planned s2 s' Hall)
    as (He & Hp & Hr & Hf & _ & _ & Hsl).
  exists planned, s2, s'. split; [assumption|]. split; [reflexivity|].
  split; [assumption|]. split; [assumption|].
  rewrite He, Hp, Hr, Hf. unfold s2 in Hsl |- *. simpl in Hsl |- *.
  rewrite executed_app, plans_app, reports_app, count_app.
  rewrite count_app in Hsl. simpl.
  rewrite !app_nil_r. unfold count in *. simpl in *. repeat split; lia.
Qed.

(** C3.  In one invocation of [flow] (session present, wallet built, no
    empty slot, range of pauses between the tasks not empty), whatever
    the collaborators of the tasks do: no failure of a task ends the loop
    of [flow].  Every task of the resolved sequence is handed to
    [_execute_task] in order, the pause over RANDOM_PAUSE_BETWEEN_ACTIONS
    is taken right after each task, whether it did its work, failed or
    has no handler, and [flow] returns [True]. *)
Theorem flow_runs_every_task :
  forall (env : Env) (self : Start) (s : St) (sess : Session),
    session s = Some sess ->
    from_key env (private_key self) = None ->
    no_empty_slot (TASKS (FLOW (config self))) ->
    valid_range (RANDOM_PAUSE_BETWEEN_ACTIONS (SETTINGS (config self))) ->
    exists planned s2 s',
      Forall2 resolves (TASKS (FLOW (config self))) planned /\
      trace s2 = trace s ++ [EFlow; EPlan planned] /\
      runs_all env self planned s2 s' /\
      flow env self s = (Ok (VBool true), s') /\
      executed (trace s') =
        executed (trace s) ++ List.filter known_task (map lower planned) /\
      count is_sleep (trace s) + length planned <= count is_sleep (trace s').
Proof.
  intros env self s sess Hs Hkey Hslots Hrange.
  destruct (flow_all_tasks env self s sess Hs Hkey Hslots Hrange)
    as (planned & s2 & s' & H1 & H2 & H3 & H4 & H5 & H6 & _).
  exists planned, s2, s'. auto 10.
Qed.

(** Witness of C3: an izumi swap whose every call raises, wallet
    statistics whose RPC reads raise, and a task name without a
    handler. *)
Lemma flow_runs_every_task_witness :
  exists planned s2 s',
    Forall2 resolves [Single "izumi"; Single "Logs"; Single "stake"] planned /\
    trace s2 =
      trace (with_session example_proxy st0) ++ [EFlow; EPlan planned] /\
    runs_all failing_tasks_env
      (example_start [Single "izumi"; Single "Logs"; Single "stake"])
      planned s2 s' /\
    flow failing_tasks_env
      (example_start [Single "izumi"; Single "Logs"; Single "stake"])
      (with_session example_proxy st0) = (Ok (VBool true), s') /\
    executed (trace s') =
      executed (trace (with_session example_proxy st0)) ++
      List.filter known_task (map lower planned) /\
    count is_sleep (trace (with_session example_proxy st0)) + length planned
    <= count is_sleep (trace s').
Proof.
  apply (flow_runs_every_task failing_tasks_env
           (example_start [Single "izumi"; Single "Logs"; Single "stake"])
           (with_session example_proxy st0) (mkSession example_proxy)
           eq_refl eq_refl).
  - repeat constructor; discriminate.
  - unfold valid_range. simpl. lia.
Defined.

(** The run of the witness, event by event: the swap call of the izumi
    task raises and the task is over, the statistics of the logs task
    fail, the third name is unknown; each of the three is followed by its
    pause. *)
Example flow_runs_every_task_trace :
  flow failing_tasks_env
    (example_start [Single "izumi"; Single "Logs"; Single "stake"])
    (with_session example_proxy st0)
  = (Ok (VBool true),
     mkSt [EFlow; EPlan ["izumi"; "Logs"; "stake"];
           ETask "izumi"; EInvoke 0; ESleep 1;
           ETask "logs"; ESleep 1;
           EUnknownTask "stake"; ESleep 1]
          5 1 0 2 0 (Some (mkSession example_proxy)) empty_ledger
          empty_ledger).
Proof. vm_compute. reflexivity. Qed.




(** ** Lists *)

Lemma lookup_map {A B} (f : A -> B) (l : list A) (i : nat) :
  map f l !! i = f <$> (l !! i).
Proof.
  revert i. induction l as [|x l IH]; intros [|i]; simpl; auto.
Qed.

Lemma res_mapM_ok {A B} (f : A -> Res B) (g : A -> B) (l : list A) :
  (forall x, In x l -> f x = Ok (g x)) -> res_mapM f l = Ok (map g l).
Proof.
  induction l as [|x l IH]; intros H; [reflexivity|]. simpl.
  rewrite (H x) by now left. simpl. rewrite IH; [reflexivity|].
  intros y Hy. apply H. now right.
Qed.

(** ** The resource cycler *)

Lemma cycle_index_ok {A} (items : list A) (x0 : A) (j : nat) :
  items <> [] ->
  res_bind (py_mod (Z.of_nat j) (Z.of_nat (length items))) (py_index items)
  = Ok (nth (j mod length items) items x0) /\
  items !! (j mod length items) = Some (nth (j mod length items) items x0).
Proof.
  intros Hne.
  assert (Hlen : 0 < length items) by (destruct items; [congruence|simpl; lia]).
  assert (Hlt : j mod length items < length items)
    by (apply Nat.mod_upper_bound; lia).
  assert (Hx : items !! (j mod length items)
               = Some (nth (j mod length items) items x0)).
  { destruct (lookup_lt_is_Some_2 items _ Hlt) as [x Hx]. rewrite Hx.
    f_equal. symmetry. now apply nth_lookup_Some with (d := x0) in Hx. }
  split; [|exact Hx]. unfold py_mod.
  destruct (Z.eqb_spec (Z.of_nat (length items)) 0); [lia|]. simpl.
  rewrite <- Nat2Z.inj_mod, py_index_nat, Hx. reflexivity.
Qed.

Lemma cycle_list_ok {A} (items : list A) (n : Z) :
  items <> [] ->
  exists l,
    _cycle_list items n = Ok l /\
    length l = Z.to_nat n /\
    forall i, i < Z.to_nat n -> l !! i = items !! (i mod length items).
Proof.
  intros Hne. destruct items as [|x0 items'] eqn:E; [congruence|].
  rewrite <- E in *. clear E.
  exists (map (fun j => nth (j mod length items) items x0) (seq 0 (Z.to_nat n))).
  split; [|split].
  - unfold _cycle_list, py_range.
    rewrite (res_mapM_ok _
               (fun z => nth (Z.to_nat z mod length items) items x0)).
    + rewrite List.map_map. f_equal. apply List.map_ext. intros j.
      now rewrite Nat2Z.id.
    + intros z (j & <- & _)%List.in_map_iff. rewrite Nat2Z.id.
      apply (cycle_index_ok items x0 j Hne).
  - now rewrite List.length_map, List.length_seq.
  - intros i Hi. rewrite lookup_map, lookup_seq_lt by assumption. simpl.
    symmetry. apply (cycle_index_ok items x0 i Hne).
Qed.

(** C8.  For a target length [n > 0] and a source of length [m > 0],
    [_cycle_list] returns a list of length exactly [n] whose element at
    every position [i < n] is [source[i mod m]]. *)
Theorem cycle_list_spec :
  forall (A : Type) (items : list A) (n : Z),
    0 < length items ->
    (0 < n)%Z ->
    exists l,
      _cycle_list items n = Ok l /\
      Z.of_nat (length l) = n /\
      forall i : nat,
        (Z.of_nat i < n)%Z -> l !! i = items !! (i mod length items).
Proof.
  intros A items n Hm Hn.
  destruct (cycle_list_ok items n) as (l & Hl & Hlen & Hnth).
  { destruct items; [simpl in Hm; lia|congruence]. }
  exists l. split; [assumption|]. split; [lia|].
  intros i Hi. apply Hnth. lia.
Qed.

(** Witness of C8: three proxies stretched over seven accounts. *)
Lemma cycle_list_spec_witness :
  exists l,
    _cycle_list ["a"; "b"; "c"] 7 = Ok l /\
    Z.of_nat (length l) = 7%Z /\
    forall i : nat,
      (Z.of_nat i < 7)%Z -> l !! i = ["a"; "b"; "c"] !! (i mod 3).
Proof.
  apply (cycle_list_spec string ["a"; "b"; "c"] 7).
  - simpl. lia.
  - lia.
Defined.

(** ** The batch entry point *)

Lemma make_tasks_raises start_index cycled tokens emails idx accounts e :
  make_tasks start_index cycled tokens emails idx accounts = Raise e ->
  e = IndexError.
Proof.
  revert idx. induction accounts as [|acc rest IH]; intros idx; simpl.
  - discriminate.
  - destruct (py_index cycled idx) eqn:H1; simpl;
      [|intros [= <-]; eauto using py_index_raises].
    destruct (py_index tokens idx) eqn:H2; simpl;
      [|intros [= <-]; eauto using py_index_raises].
    destruct (py_index emails idx) eqn:H3; simpl;
      [|intros [= <-]; eauto using py_index_raises].
    destruct (make_tasks _ _ _ _ (idx + 1)%Z rest) eqn:H4; simpl;
      [discriminate|]. intros [= <-]. eauto.
Qed.

Lemma py_index_ok_lt {A} (l : list A) (i : nat) x :
  py_index l (Z.of_nat i) = Ok x -> i < length l.
Proof.
  rewrite py_index_nat. destruct (l !! i) eqn:H; [|discriminate].
  intros _. eapply lookup_lt_Some. eassumption.
Qed.

Lemma make_tasks_ok_bounds start_index cycled tokens emails idx accounts tasks :
  make_tasks start_index cycled tokens emails (Z.of_nat idx) accounts
  = Ok tasks ->
  accounts <> [] ->
  idx + length accounts <= length tokens /\
  idx + length accounts <= length emails.
Proof.
  revert idx tasks. induction accounts as [|acc rest IH]; intros idx tasks;
    [congruence|]. simpl.
  destruct (py_index cycled _) eqn:H1; simpl; [|discriminate].
  destruct (py_index tokens _) eqn:H2; simpl; [|discriminate].
  destruct (py_index emails _) eqn:H3; simpl; [|discriminate].
  replace (Z.of_nat idx + 1)%Z with (Z.of_nat (S idx)) by lia.
  destruct (make_tasks _ _ _ _ _ rest) eqn:H4; simpl; [|discriminate].
  intros _ _. apply py_index_ok_lt in H2, H3.
  destruct rest as [|acc' rest'].
  - simpl. lia.
  - destruct (IH _ _ H4 ltac:(congruence)). simpl in *. lia.
Qed.

(** C10.  Whenever the semaphore can be built ([THREADS >= 0]) and the
    discord-token file or the e-mail file is not empty but holds fewer
    lines than there are selected accounts, [start] raises [IndexError]
    while it builds the per-account tasks: these two lists are indexed by
    the account's position as they are, only the proxies go through
    [_cycle_list]. *)
Theorem start_short_list_raises :
  forall (env : Env) (config : Config)
         (proxies private_keys discord_file emails_file : list string)
         (s s1 : St) (info : AccountsInfo),
    proxies <> [] ->
    private_keys <> [] ->
    (0 <= THREADS (SETTINGS config))%Z ->
    _get_accounts_to_process env config private_keys s = (Ok info, s1) ->
    0 < length discord_file < length (accounts info) \/
    0 < length emails_file < length (accounts info) ->
    start env config proxies private_keys discord_file emails_file s
    = (Raise IndexError, s1).
Proof.
  intros env config proxies private_keys discord_file emails_file s s1 info
         Hp Hk Hthreads Hsel Hshort.
  unfold start. destruct proxies as [|p proxies']; [congruence|].
  destruct private_keys as [|k keys']; [congruence|].
  rewrite (bind_ok _ _ _ _ _ Hsel).
  destruct (accounts info) as [|acc rest] eqn:Hacc; [simpl in Hshort; lia|].
  rewrite <- Hacc in *.
  destruct (cycle_list_ok (p :: proxies')
              (Z.of_nat (length (accounts info))) ltac:(congruence))
    as (cycled & Hc & _).
  unfold lift at 1. unfold bind at 1. rewrite Hc.
  rewrite Nat2Z.id. unfold new_Semaphore.
  destruct (Z.ltb_spec (THREADS (SETTINGS config)) 0) as [|_]; [lia|].
  unfold bind, lift.
  destruct (make_tasks _ _ _ _ 0%Z (accounts info)) as [tasks|e] eqn:Hm.
  - exfalso.
    apply (make_tasks_ok_bounds _ _ _ _ 0) in Hm as [Ht He];
      [|rewrite Hacc; congruence].
    destruct Hshort as [Hs|Hs].
    + destruct discord_file; simpl in *; lia.
    + destruct emails_file; simpl in *; lia.
  - apply make_tasks_raises in Hm as ->. reflexivity.
Qed.

(** Witness of C10: three accounts, two proxies, two discord tokens. *)
Lemma start_short_list_raises_witness :
  exists s1,
    start quiet_env (example_config 3 []) ["p1"; "p2"] ["k1"; "k2"; "k3"]
      ["t1"; "t2"] [] st0 = (Raise IndexError, s1).
Proof.
  eexists.
  eapply (start_short_list_raises quiet_env (example_config 3 [])
            ["p1"; "p2"] ["k1"; "k2"; "k3"] ["t1"; "t2"] [] st0);
    [discriminate | discriminate | simpl; lia | vm_compute; reflexivity
    | left; simpl; lia].
Defined.

(** ** Account selection *)

Lemma selected_configured (private_keys : list string) (exact : list Z) :
  res_mapM (py_index private_keys)
    (filter (fun i => (0 <= i < Z.of_nat (length private_keys))%Z)
            (map (fun i => i - 1)%Z exact))
  = Ok (configured_accounts private_keys exact).
Proof.
  induction exact as [|i exact IH]; [reflexivity|].
  cbn [map]. rewrite filter_cons. unfold configured_accounts. cbn [omap list_omap].
  destruct (decide (0 <= i - 1 < Z.of_nat (length private_keys))%Z) as [Hi|Hi].
  - destruct (Z.leb_spec 1 i); [|lia].
    destruct (Z.leb_spec i (Z.of_nat (length private_keys))); [|lia].
    cbn [andb res_mapM]. rewrite IH.
    rewrite <- (Z2Nat.id (i - 1)) at 1 by lia. rewrite py_index_nat.
    destruct (private_keys !! Z.to_nat (i - 1)) eqn:Hk; [reflexivity|].
    apply lookup_ge_None in Hk. lia.
  - rewrite IH.
    destruct (Z.leb_spec 1 i); [|reflexivity].
    destruct (Z.leb_spec i (Z.of_nat (length private_keys))); [lia|].
    reflexivity.
Qed.

Lemma foldl_min_spec (l : list Z) (a : Z) :
  (foldl Z.min a l = a \/ In (foldl Z.min a l) l) /\
  (foldl Z.min a l <= a)%Z /\
  forall x, In x l -> (foldl Z.min a l <= x)%Z.
Proof.
  revert a. induction l as [|y l IH]; intros a; simpl.
  - split; [now left|]. split; [lia|]. intros x [].
  - destruct (IH (Z.min a y)) as (Hin & Hle & Hall).
    split; [|split].
    + destruct Hin as [Heq|Hin]; [|now right; right].
      rewrite Heq. destruct (Z.min_spec a y) as [[_ ->]|[_ ->]]; auto.
    + lia.
    + intros x [<-|Hx]; [lia|]. now apply Hall.
Qed.

Lemma foldl_max_spec (l : list Z) (a : Z) :
  (foldl Z.max a l = a \/ In (foldl Z.max a l) l) /\
  (a <= foldl Z.max a l)%Z /\
  forall x, In x l -> (x <= foldl Z.max a l)%Z.
Proof.
  revert a. induction l as [|y l IH]; intros a; simpl.
  - split; [now left|]. split; [lia|]. intros x [].
  - destruct (IH (Z.max a y)) as (Hin & Hle & Hall).
    split; [|split].
    + destruct Hin as [Heq|Hin]; [|now right; right].
      rewrite Heq. destruct (Z.max_spec a y) as [[_ ->]|[_ ->]]; auto.
    + lia.
    + intros x [<-|Hx]; [lia|]. now apply Hall.
Qed.

Lemma py_min_spec (l : list Z) :
  l <> [] ->
  exists lo, py_min l = Ok lo /\ In lo l /\ forall x, In x l -> (lo <= x)%Z.
Proof.
  destruct l as [|a l]; [congruence|]. intros _.
  destruct (foldl_min_spec l a) as (Hin & Hle & Hall).
  exists (foldl Z.min a l). split; [reflexivity|]. split.
  - destruct Hin as [->|Hin]; [now left|now right].
  - intros x [<-|Hx]; auto.
Qed.

Lemma py_max_spec (l : list Z) :
  l <> [] ->
  exists hi, py_max l = Ok hi /\ In hi l /\ forall x, In x l -> (x <= hi)%Z.
Proof.
  destruct l as [|a l]; [congruence|]. intros _.
  destruct (foldl_max_spec l a) as (Hin & Hle & Hall).
  exists (foldl Z.max a l). split; [reflexivity|]. split.
  - destruct Hin as [->|Hin]; [now left|now right].
  - intros x [<-|Hx]; auto.
Qed.

(** ** The shuffle *)

Lemma swap_items_perm (x : list Z) (i j : nat) :
  i < length x -> j < length x ->
  exists x', swap_items x i j = Ok x' /\ Permutation x' x.
Proof.
  intros Hi Hj. unfold swap_items.
  destruct (lookup_lt_is_Some_2 x i Hi) as [xi Hxi].
  destruct (lookup_lt_is_Some_2 x j Hj) as [xj Hxj].
  rewrite Hxi, Hxj. eexists. split; [reflexivity|].
  now apply Permutation_insert_swap.
Qed.

Lemma shuffle_loop_perm env (positions : list nat) (x : list Z) s :
  (forall i, In i positions -> i < length x) ->
  exists x' s', shuffle_loop env x positions s = (Ok x', s') /\
                Permutation x' x.
Proof.
  revert x s. induction positions as [|i positions IH]; intros x s Hpos.
  - exists x, s. split; [reflexivity|]. reflexivity.
  - cbn [shuffle_loop]. unfold bind at 1. unfold draw at 1.
    unfold bind at 1, get. unfold bind at 1, modify, ret.
    set (j := Z.to_nat (rng env (rng_pos s) mod Z.of_nat (i + 1))).
    assert (Hi : i < length x) by (apply Hpos; now left).
    assert (Hj : j < length x).
    { pose proof (Z.mod_pos_bound (rng env (rng_pos s)) (Z.of_nat (i + 1))
                    ltac:(lia)). unfold j. lia. }
    destruct (swap_items_perm x i j Hi Hj) as (x1 & Hswap & Hperm).
    unfold bind at 1, lift. rewrite Hswap.
    destruct (IH x1 (set_rng_pos (S (rng_pos s)) s)) as (x' & s' & Hloop & Hp').
    { intros i' Hi'. rewrite (Permutation_length Hperm). apply Hpos.
      now right. }
    exists x', s'. split; [exact Hloop|]. now rewrite Hp'.
Qed.

Lemma shuffle_perm env (x : list Z) s :
  exists x' s', shuffle env x s = (Ok x', s') /\ Permutation x' x.
Proof.
  apply shuffle_loop_perm. intros i Hi%List.in_rev%List.in_seq. lia.
Qed.

Lemma map_nth_range (l : list string) :
  map (fun z => nth (Z.to_nat z) l "") (py_range (Z.of_nat (length l))) = l.
Proof.
  unfold py_range. rewrite Nat2Z.id, List.map_map. apply list_eq. intros i.
  rewrite lookup_map. destruct (l !! i) as [x|] eqn:Hx.
  - rewrite lookup_seq_lt by (eapply lookup_lt_Some; eassumption). simpl.
    rewrite Nat2Z.id. f_equal. now apply nth_lookup_Some with (d := "") in Hx.
  - apply lookup_ge_None in Hx. now rewrite lookup_seq_ge.
Qed.

(** Reading the accounts in a shuffled order of their positions gives a
    permutation of the accounts. *)
Lemma shuffled_accounts (l : list string) (indices : list Z) :
  Permutation indices (py_range (Z.of_nat (length l))) ->
  exists shuffled,
    res_mapM (py_index l) indices = Ok shuffled /\ Permutation shuffled l.
Proof.
  intros Hperm. exists (map (fun z => nth (Z.to_nat z) l "") indices). split.
  - apply res_mapM_ok. intros z Hz.
    apply (Permutation_in _ Hperm) in Hz. unfold py_range in Hz.
    rewrite Nat2Z.id in Hz. apply List.in_map_iff in Hz as (j & <- & Hj).
    apply List.in_seq in Hj. rewrite py_index_nat, Nat2Z.id.
    destruct (lookup_lt_is_Some_2 l j ltac:(lia)) as [y Hy]. rewrite Hy.
    f_equal. symmetry. now apply nth_lookup_Some with (d := "") in Hy.
  - transitivity (map (fun z => nth (Z.to_nat z) l "")
                      (py_range (Z.of_nat (length l)))).
    + now apply Permutation_map.
    + now rewrite map_nth_range.
Qed.

Lemma select_accounts_explicit config (private_keys : list string) :
  ACCOUNTS_RANGE (SETTINGS config) = (0, 0)%Z ->
  EXACT_ACCOUNTS_TO_USE (SETTINGS config) <> [] ->
  exists lo hi,
    select_accounts config private_keys =
    Ok (configured_accounts private_keys
          (EXACT_ACCOUNTS_TO_USE (SETTINGS config)), lo, hi) /\
    py_min (EXACT_ACCOUNTS_TO_USE (SETTINGS config)) = Ok lo /\
    py_max (EXACT_ACCOUNTS_TO_USE (SETTINGS config)) = Ok hi.
Proof.
  intros Hrange Hexact.
  destruct (py_min_spec _ Hexact) as (lo & Hlo & _).
  destruct (py_max_spec _ Hexact) as (hi & Hhi & _).
  exists lo, hi. split; [|split; assumption].
  unfold select_accounts. rewrite Hrange. cbn [Z.eqb andb].
  destruct (EXACT_ACCOUNTS_TO_USE (SETTINGS config)) as [|i exact] eqn:E;
    [congruence|].
  rewrite selected_configured, Hlo, Hhi. reflexivity.
Qed.

Lemma explicit_selection env config (private_keys : list string) s :
  ACCOUNTS_RANGE (SETTINGS config) = (0, 0)%Z ->
  EXACT_ACCOUNTS_TO_USE (SETTINGS config) <> [] ->
  exists info s',
    _get_accounts_to_process env config private_keys s = (Ok info, s') /\
    Permutation (accounts info)
      (configured_accounts private_keys
         (EXACT_ACCOUNTS_TO_USE (SETTINGS config))) /\
    py_min (EXACT_ACCOUNTS_TO_USE (SETTINGS config)) = Ok (start_index info) /\
    py_max (EXACT_ACCOUNTS_TO_USE (SETTINGS config)) = Ok (end_index info).
Proof.
  intros Hrange Hexact.
  destruct (select_accounts_explicit config private_keys Hrange Hexact)
    as (lo & hi & Hsel & Hlo & Hhi).
  unfold _get_accounts_to_process. unfold bind at 1, lift. rewrite Hsel.
  set (selected := configured_accounts _ _) in *.
  destruct (shuffle_perm env (py_range (Z.of_nat (length selected))) s)
    as (indices & s' & Hsh & Hperm).
  rewrite (bind_ok _ _ _ _ _ Hsh).
  destruct (shuffled_accounts selected indices Hperm)
    as (shuffled & Hmap & Hp).
  unfold bind, lift. rewrite Hmap. eexists _, s'.
  split; [reflexivity|]. simpl. auto.
Qed.

(** C7.  With the degenerate range (0, 0) and a non-empty explicit list,
    [_get_accounts_to_process] returns, in shuffled order, exactly the
    accounts at the configured 1-based positions that lie within the
    [m] available accounts, and reports as start and end the least and the
    greatest of the configured positions, whether they are in range or
    not. *)
Theorem explicit_accounts_selected :
  forall (env : Env) (config : Config) (private_keys : list string) (s : St),
    ACCOUNTS_RANGE (SETTINGS config) = (0, 0)%Z ->
    EXACT_ACCOUNTS_TO_USE (SETTINGS config) <> [] ->
    exists info s',
      _get_accounts_to_process env config private_keys s = (Ok info, s') /\
      Permutation (accounts info)
        (configured_accounts private_keys
           (EXACT_ACCOUNTS_TO_USE (SETTINGS config))) /\
      In (start_index info) (EXACT_ACCOUNTS_TO_USE (SETTINGS config)) /\
      (forall x, In x (EXACT_ACCOUNTS_TO_USE (SETTINGS config)) ->
                 (start_index info <= x)%Z) /\
      In (end_index info) (EXACT_ACCOUNTS_TO_USE (SETTINGS config)) /\
      (forall x, In x (EXACT_ACCOUNTS_TO_USE (SETTINGS config)) ->
                 (x <= end_index info)%Z).
Proof.
  intros env config private_keys s Hrange Hexact.
  destruct (explicit_selection env config private_keys s Hrange Hexact)
    as (info & s' & Hget & Hperm & Hlo & Hhi).
  destruct (py_min_spec _ Hexact) as (lo & Hlo' & Hlo_in & Hlo_le).
  destruct (py_max_spec _ Hexact) as (hi & Hhi' & Hhi_in & Hhi_le).
  rewrite Hlo in Hlo'. rewrite Hhi in Hhi'.
  injection Hlo' as <-. injection Hhi' as <-.
  exists info, s'. auto 10.
Qed.

(** The example of C7, for every random source: the explicit positions
    2, 5 and 99 against ten accounts select the second and the fifth
    account and report start 2 and end 99. *)
Lemma explicit_accounts_example (env : Env) (s : St) :
  exists info s',
    _get_accounts_to_process env
      (mkConfig (settings 3 [2; 5; 99]%Z) (example_flow [])) ten_keys s
    = (Ok info, s') /\
    Permutation (accounts info) ["k2"; "k5"] /\
    start_index info = 2%Z /\
    end_index info = 99%Z.
Proof.
  destruct (explicit_selection env
              (mkConfig (settings 3 [2; 5; 99]%Z) (example_flow [])) ten_keys s
              eq_refl ltac:(discriminate))
    as (info & s' & Hget & Hperm & Hlo & Hhi).
  exists info, s'. split; [assumption|]. split; [exact Hperm|].
  injection Hlo as <-. injection Hhi as <-. split; reflexivity.
Qed.

(** Witness of C7: the same example, run with the quiet random source. *)
Lemma explicit_accounts_selected_witness :
  exists info s',
    _get_accounts_to_process quiet_env
      (mkConfig (settings 3 [2; 5; 99]%Z) (example_flow [])) ten_keys st0
    = (Ok info, s') /\
    Permutation (accounts info) ["k2"; "k5"] /\
    In (start_index info) [2; 5; 99]%Z /\
    (forall x, In x [2; 5; 99]%Z -> (start_index info <= x)%Z) /\
    In (end_index info) [2; 5; 99]%Z /\
    (forall x, In x [2; 5; 99]%Z -> (x <= end_index info)%Z).
Proof.
  apply (explicit_accounts_selected quiet_env
           (mkConfig (settings 3 [2; 5; 99]%Z) (example_flow [])) ten_keys st0
           eq_refl).
  discriminate.
Defined.

(** ** The admission gate *)

Lemma filter_insert_length {A} (f : A -> bool) (l : list A) (i : nat)
    (p q : A) :
  l !! i = Some p ->
  length (List.filter f (<[i:=q]> l)) + (if f p then 1 else 0) =
  length (List.filter f l) + (if f q then 1 else 0).
Proof.
  revert i. induction l as [|x l IH]; intros [|i] H; simpl in *;
    try discriminate.
  - injection H as ->. destruct (f p), (f q); simpl; lia.
  - specialize (IH i H). destruct (f x); simpl; lia.
Qed.

(** The counter and the pipelines that hold a slot always add up to the capacity,
    and the counter never goes below zero. *)
Lemma gate_exec_invariant (a : Gate.Action) (s : Gate.Sys) (c : Z) :
  (Gate.value s + Z.of_nat (Gate.holders s) = c)%Z /\ (0 <= Gate.value s)%Z ->
  (Gate.value (Gate.exec a s) + Z.of_nat (Gate.holders (Gate.exec a s)) = c)%Z
  /\ (0 <= Gate.value (Gate.exec a s))%Z.
Proof.
  intros [Hsum Hpos]. destruct a as [i|i]; simpl.
  - destruct (Gate.phases s !! i) as [[| |]|] eqn:Hi; auto.
    destruct (Z.ltb_spec 0 (Gate.value s)); auto.
    unfold Gate.holders in *. simpl.
    pose proof (filter_insert_length Gate.is_holding _ _ _ Gate.Holding Hi).
    simpl in *. lia.
  - destruct (Gate.phases s !! i) as [[| |]|] eqn:Hi; auto.
    unfold Gate.holders in *. simpl.
    pose proof (filter_insert_length Gate.is_holding _ _ _ Gate.Released Hi).
    simpl in *. lia.
Qed.

Lemma gate_run_invariant (schedule : list Gate.Action) (s : Gate.Sys) (c : Z) :
  (Gate.value s + Z.of_nat (Gate.holders s) = c)%Z /\ (0 <= Gate.value s)%Z ->
  (Gate.value (Gate.run schedule s)
   + Z.of_nat (Gate.holders (Gate.run schedule s)) = c)%Z /\
  (0 <= Gate.value (Gate.run schedule s))%Z.
Proof.
  revert s. induction schedule as [|a schedule IH]; intros s H; [exact H|].
  apply (IH (Gate.exec a s)). now apply gate_exec_invariant.
Qed.

Lemma gate_init_holders (n : nat) :
  length (List.filter Gate.is_holding (replicate n Gate.Queued)) = 0.
Proof. induction n; simpl; auto. Qed.

(** C9.  With capacity [THREADS >= 1] the semaphore can be built, and for
    every number of pipelines, every schedule of acquire and release
    attempts and every instant of that schedule, the number of pipelines
    between gate acquire and gate release is at most [THREADS]. *)
Theorem gate_never_exceeds_threads :
  forall (threads : Z) (n : nat),
    (1 <= threads)%Z ->
    exists s0,
      Gate.init threads n = Ok s0 /\
      forall (schedule : list Gate.Action) (instant : nat),
        (Z.of_nat (Gate.holders (Gate.run (take instant schedule) s0))
         <= threads)%Z.
Proof.
  intros threads n Hthreads. unfold Gate.init.
  destruct (Z.ltb_spec threads 0); [lia|].
  eexists. split; [reflexivity|]. intros schedule instant.
  destruct (gate_run_invariant (take instant schedule)
              (Gate.mkSys threads (replicate n Gate.Queued)) threads)
    as [Hsum Hpos]; [|lia].
  unfold Gate.holders. simpl. rewrite gate_init_holders. lia.
Qed.

(** Witness of C9: two slots, three pipelines. *)
Lemma gate_never_exceeds_threads_witness :
  exists s0,
    Gate.init 2 3 = Ok s0 /\
    forall (schedule : list Gate.Action) (instant : nat),
      (Z.of_nat (Gate.holders (Gate.run (take instant schedule) s0)) <= 2)%Z.
Proof. apply (gate_never_exceeds_threads 2 3). lia. Defined.

(** With two slots the third pipeline is held back until one is freed. *)
Example gate_three_pipelines :
  map (fun i =>
         Gate.holders
           (Gate.run (take i [Gate.Acquire 0; Gate.Acquire 1; Gate.Acquire 2;
                              Gate.Release 0; Gate.Acquire 2])
                     (Gate.mkSys 2 (replicate 3 Gate.Queued))))
      [0; 1; 2; 3; 4; 5]
  = [0; 1; 2; 2; 1; 2].
Proof. reflexivity. Qed.


(** ** Reporting *)

(** C4 at its failing input.  With a cool-down range whose minimum is
    above its maximum, the pipeline reports the success, [random.randint]
    then raises inside the [try] block, and the handler reports the same
    account as failed: two reports, and the index is written below both
    ledger roots. *)
Theorem account_reported_twice :
  exists s',
    account_flow quiet_env 7 example_proxy example_key "d" "e"
      bad_cooldown_config st0
    = (Ok tt, s') /\
    reports (trace s') = [(true, Some 7%Z); (false, Some 7%Z)] /\
    account_indices_txt (success_data s') = ["7"] /\
    account_indices_txt (error_data s') = ["7"].
Proof.
  eexists. split; [vm_compute; reflexivity|]. vm_compute. repeat split.
Qed.

Lemma reports_once_bind {A} env proxy token index (m : M A) (k : A -> M unit) :
  appends not_report m ->
  (forall a, reports_once env proxy token index (k a)) ->
  reports_once env proxy token index (bind m k).
Proof.
  intros Hm Hk s Hw. unfold bind.
  destruct (Hm s) as (rest & Ht & Hp & Hs & He & Hio).
  apply reports_not_report in Hp.
  destruct (m s) as [[a|e] s1]; simpl in *.
  - destruct (Hk a s1 (ledger_writable_next env s s1 Hio Hw))
      as [(b & s' & Hrun & Hr & Hsd & Hed)
         |(e & s' & Hrun & Hr & Hsd & Hed & Hio')].
    + left. exists b, s'. rewrite Hrun, Hr, Hsd, Hed, Ht, reports_app, Hp,
        app_nil_r, Hs, He. auto.
    + right. exists e, s'. rewrite Hrun, Hr, Hsd, Hed, Hio', Ht, reports_app,
        Hp, app_nil_r, Hs, He. auto.
  - right. exists e, s1. rewrite Ht, reports_app, Hp, app_nil_r. auto.
Qed.

(** Outside the failing input of C4, and over a file system that lets
    the report write its record, the pipeline does what C4 says: when the
    cool-down range is not empty, [account_flow] returns normally after
    exactly one report, which writes the index below exactly one ledger
    root, whatever the other collaborators do. *)
Lemma account_flow_reports_once env index proxy key token email config s :
  valid_range (RANDOM_PAUSE_BETWEEN_ACCOUNTS (SETTINGS config)) ->
  ledger_writable env s ->
  exists b s',
    account_flow env index proxy key token email config s = (Ok tt, s') /\
    reports (trace s') = reports (trace s) ++ [(b, Some index)] /\
    success_data s' =
      (if b then write_record proxy token (Some index) (success_data s)
       else success_data s) /\
    error_data s' =
      (if b then error_data s
       else write_record proxy token (Some index) (error_data s)).
Proof.
  intros Hnext Hw. unfold account_flow, try_except.
  match goal with |- context [match ?body s with _ => _ end] =>
    assert (Hbody : reports_once env proxy token index body) end.
  { apply reports_once_bind.
    { unfold _random_sleep. now apply appends_random_pause. }
    intros _. apply reports_once_bind; [apply appends_new_Start|].
    intros instance. apply reports_once_bind.
    { apply appends_retry_loop; try reflexivity.
      apply appends_initialize; reflexivity. }
    intros success. apply reports_once_bind.
    { apply appends_retry_loop; try reflexivity.
      apply appends_flow; reflexivity. }
    intros flowed s1 Hw1. left. exists (success && flowed).
    destruct (success && flowed).
    - rewrite (bind_ok _ _ _ _ _ (report_success_eq env _ _ _ s1 Hw1)).
      rewrite (random_sleep_eq env _ _ Hnext). eexists.
      split; [reflexivity|]. simpl. rewrite !reports_app. simpl.
      rewrite app_nil_r. auto.
    - rewrite (bind_ok _ _ _ _ _ (report_error_eq env _ _ _ s1 Hw1)).
      rewrite (random_sleep_eq env _ _ Hnext). eexists.
      split; [reflexivity|]. simpl. rewrite !reports_app. simpl.
      rewrite app_nil_r. auto. }
  destruct (Hbody s Hw) as [(b & s' & Hrun & Hr & Hsd & Hed)
                           |(e & s' & Hrun & Hr & Hsd & Hed & Hio)];
    rewrite Hrun.
  - exists b, s'. auto.
  - exists false.
    rewrite (report_error_eq env _ _ _ s' (ledger_writable_next _ _ _ Hio Hw)).
    eexists. split; [reflexivity|].
    simpl. rewrite reports_app, Hr, Hsd, Hed. auto.
Qed.

(** * Further properties of the code *)

(** ** process.py: the other branches of the account selector *)

(** Whatever subset is picked, the selector hands it back shuffled, with
    the bounds the branch computed. *)
Lemma selection_shuffled env config (private_keys : list string) s
    (selected : list string) (lo hi : Z) :
  select_accounts config private_keys = Ok (selected, lo, hi) ->
  exists info s',
    _get_accounts_to_process env config private_keys s = (Ok info, s') /\
    Permutation (accounts info) selected /\
    start_index info = lo /\ end_index info = hi.
Proof.
  intros Hsel. unfold _get_accounts_to_process.
  unfold bind at 1, lift. rewrite Hsel.
  destruct (shuffle_perm env (py_range (Z.of_nat (length selected))) s)
    as (indices & s' & Hsh & Hperm).
  rewrite (bind_ok _ _ _ _ _ Hsh).
  destruct (shuffled_accounts selected indices Hperm)
    as (shuffled & Hmap & Hp).
  unfold bind, lift. rewrite Hmap. eexists _, s'.
  split; [reflexivity|]. simpl. auto.
Qed.

(** X1.  With the range (0, 0) and no explicit positions the selector
    returns every account, shuffled, with start 1 and end the number of
    accounts. *)
Theorem all_accounts_selected :
  forall (env : Env) (config : Config) (private_keys : list string) (s : St),
    ACCOUNTS_RANGE (SETTINGS config) = (0, 0)%Z ->
    EXACT_ACCOUNTS_TO_USE (SETTINGS config) = [] ->
    exists info s',
      _get_accounts_to_process env config private_keys s = (Ok info, s') /\
      Permutation (accounts info) private_keys /\
      start_index info = 1%Z /\
      end_index info = Z.of_nat (length private_keys).
Proof.
  intros env config private_keys s Hrange Hexact.
  apply selection_shuffled. unfold select_accounts.
  now rewrite Hrange, Hexact.
Qed.

Lemma all_accounts_selected_witness :
  exists info s',
    _get_accounts_to_process quiet_env (example_config 3 []) ten_keys st0
    = (Ok info, s') /\
    Permutation (accounts info) ten_keys /\
    start_index info = 1%Z /\
    end_index info = 10%Z.
Proof.
  apply (all_accounts_selected quiet_env (example_config 3 []) ten_keys st0);
    reflexivity.
Defined.

Lemma py_slice_positions {A} (l : list A) (lo hi : Z) :
  (0 <= lo <= hi)%Z ->
  py_slice l lo hi = take (Z.to_nat (hi - lo)) (drop (Z.to_nat lo) l).
Proof.
  intros H. unfold py_slice.
  destruct (Z.ltb_spec lo 0); [lia|]. destruct (Z.ltb_spec hi 0); [lia|].
  destruct (Z.le_gt_cases lo (Z.of_nat (length l))) as [Hlo|Hlo].
  - rewrite (Z.min_l lo) by assumption.
    destruct (Z.le_gt_cases hi (Z.of_nat (length l))) as [Hhi|Hhi].
    + now rewrite Z.min_l by assumption.
    + rewrite Z.min_r by lia.
      rewrite !take_ge; [reflexivity| |]; rewrite length_drop; lia.
  - rewrite !Z.min_r by lia. rewrite !drop_ge by lia. now rewrite !take_nil.
Qed.

(** X2.  With a range [(start, end)], [1 <= start <= end], the selector
    returns, shuffled, the accounts at the 1-based positions [start..end]
    that exist (positions beyond the last account are cut off without an
    error), and reports the configured bounds even when they exceed the
    number of accounts. *)
Theorem range_accounts_selected :
  forall (env : Env) (config : Config) (private_keys : list string) (s : St)
         (first last : Z),
    ACCOUNTS_RANGE (SETTINGS config) = (first, last) ->
    (1 <= first <= last)%Z ->
    exists info s',
      _get_accounts_to_process env config private_keys s = (Ok info, s') /\
      Permutation (accounts info)
        (take (Z.to_nat (last - first + 1))
              (drop (Z.to_nat (first - 1)) private_keys)) /\
      length (accounts info) =
        Z.to_nat (Z.min last (Z.of_nat (length private_keys)) - first + 1) /\
      start_index info = first /\
      end_index info = last.
Proof.
  intros env config private_keys s first last Hrange Hb.
  destruct (selection_shuffled env config private_keys s
              (take (Z.to_nat (last - first + 1))
                    (drop (Z.to_nat (first - 1)) private_keys)) first last)
    as (info & s' & Hget & Hperm & Hlo & Hhi).
  { unfold select_accounts. rewrite Hrange.
    destruct (Z.eqb_spec first 0); [lia|]. cbn [andb].
    rewrite Z.max_r by lia. rewrite py_slice_positions by lia.
    replace (last - (first - 1))%Z with (last - first + 1)%Z by lia.
    reflexivity. }
  exists info, s'. split; [assumption|]. split; [assumption|].
  split; [|auto]. rewrite (Permutation_length Hperm), length_take, length_drop.
  lia.
Qed.

Lemma range_accounts_selected_witness :
  exists info s',
    _get_accounts_to_process quiet_env
      (mkConfig (mkSettings 1 3 (8, 12)%Z [] (5, 10)%Z (5, 10)%Z (5, 15)%Z (1, 3)%Z
                            (5, 10)%Z) (example_flow []))
      ten_keys st0 = (Ok info, s') /\
    Permutation (accounts info) ["k8"; "k9"; "k10"] /\
    length (accounts info) = 3 /\
    start_index info = 8%Z /\
    end_index info = 12%Z.
Proof.
  apply (range_accounts_selected quiet_env
           (mkConfig (mkSettings 1 3 (8, 12)%Z [] (5, 10)%Z (5, 10)%Z (5, 15)%Z (1, 3)%Z
                                 (5, 10)%Z) (example_flow []))
           ten_keys st0 8 12 eq_refl).
  lia.
Defined.

(** ** process.py: what [start] launches *)

Lemma make_tasks_ok start_index cycled tokens emails idx
    (accounts : list string) :
  idx + length accounts <= length cycled ->
  idx + length accounts <= length tokens ->
  idx + length accounts <= length emails ->
  exists tasks,
    make_tasks start_index cycled tokens emails (Z.of_nat idx) accounts
    = Ok tasks /\
    length tasks = length accounts /\
    forall i acc,
      accounts !! i = Some acc ->
      tasks !! i =
      Some (mkLaunch (start_index + Z.of_nat (idx + i))
                     (nth (idx + i) cycled "") acc
                     (nth (idx + i) tokens "") (nth (idx + i) emails "")).
Proof.
  revert idx. induction accounts as [|acc rest IH]; intros idx Hc Ht He.
  - exists []. repeat split. intros i a H. discriminate.
  - simpl in Hc, Ht, He. cbn [make_tasks].
    assert (Hlk : forall l : list string, idx < length l ->
              py_index l (Z.of_nat idx) = Ok (nth idx l "")).
    { intros l Hl. rewrite py_index_nat.
      destruct (lookup_lt_is_Some_2 l idx Hl) as [x Hx]. rewrite Hx.
      f_equal. symmetry. now apply nth_lookup_Some with (d := "") in Hx. }
    rewrite !Hlk by lia. cbn [res_bind].
    replace (Z.of_nat idx + 1)%Z with (Z.of_nat (S idx)) by lia.
    destruct (IH (S idx)) as (tasks & Hm & Hlen & Hnth); try lia.
    rewrite Hm. cbn [res_bind]. eexists. split; [reflexivity|].
    split; [simpl; lia|]. intros [|i] a Hi.
    + injection Hi as <-. simpl. now rewrite Nat.add_0_r.
    + simpl in Hi. simpl. rewrite (Hnth i a Hi).
      now replace (S idx + i) with (idx + S i) by lia.
Qed.

Lemma py_or_nth (file : list string) (n i : nat) :
  i < n ->
  file = [] \/ n <= length file ->
  n <= length (py_or file (replicate n "")) /\
  nth i (py_or file (replicate n "")) "" = nth i file "".
Proof.
  intros Hi [->|Hn].
  - simpl. rewrite length_replicate. split; [lia|].
    rewrite (nth_lookup_Some _ _ "" "" (lookup_replicate_2 n "" i Hi)).
    now destruct i.
  - destruct file; [simpl in Hn; lia|]. simpl. auto.
Qed.

(** X3.  When the semaphore can be built ([THREADS >= 0]) and the
    optional files are empty or hold at least one line per selected
    account, [start] creates one task per selected account, in the
    shuffled order.  The task at position [i] gets the account at
    position [i], the proxy [proxies[i mod len(proxies)]], the [i]-th
    token and e-mail (or the empty string when the file is empty), and
    the index [start_index + i]: the index follows the launch position,
    not the account's line in the key file. *)
Theorem start_launches :
  forall (env : Env) (config : Config)
         (proxies private_keys discord_file emails_file : list string)
         (s s1 : St) (info : AccountsInfo),
    proxies <> [] ->
    private_keys <> [] ->
    (0 <= THREADS (SETTINGS config))%Z ->
    _get_accounts_to_process env config private_keys s = (Ok info, s1) ->
    accounts info <> [] ->
    discord_file = [] \/ length (accounts info) <= length discord_file ->
    emails_file = [] \/ length (accounts info) <= length emails_file ->
    exists tasks,
      start env config proxies private_keys discord_file emails_file s
      = (Ok (Launched tasks), s1) /\
      length tasks = length (accounts info) /\
      forall i acc,
        accounts info !! i = Some acc ->
        tasks !! i =
        Some (mkLaunch (start_index info + Z.of_nat i)
                       (nth (i mod length proxies) proxies "") acc
                       (nth i discord_file "") (nth i emails_file "")).
Proof.
  intros env config proxies private_keys discord_file emails_file s s1 info
         Hp Hk Hthreads Hsel Hacc Hd He.
  unfold start. destruct proxies as [|p proxies'] eqn:Ep; [congruence|].
  rewrite <- Ep in *. destruct private_keys as [|k keys']; [congruence|].
  rewrite (bind_ok _ _ _ _ _ Hsel).
  destruct (accounts info) as [|acc rest] eqn:Eacc; [congruence|].
  rewrite <- Eacc in *. clear Eacc.
  set (n := length (accounts info)) in *.
  destruct (cycle_list_ok proxies (Z.of_nat n) Hp) as (cycled & Hc & Hclen & Hcn).
  rewrite Nat2Z.id in Hclen, Hcn.
  unfold lift at 1. unfold bind at 1. rewrite Hc. rewrite Nat2Z.id.
  assert (Hn : 0 < n).
  { unfold n. destruct (accounts info); [congruence|simpl; lia]. }
  destruct (py_or_nth discord_file n 0 Hn Hd) as [Hdl _].
  destruct (py_or_nth emails_file n 0 Hn He) as [Hel _].
  destruct (make_tasks_ok (start_index info) cycled
              (py_or discord_file (replicate n ""))
              (py_or emails_file (replicate n "")) 0 (accounts info))
    as (tasks & Hm & Hlen & Hnth); try (simpl; fold n; lia).
  change (Z.of_nat 0) with 0%Z in Hm. unfold new_Semaphore.
  destruct (Z.ltb_spec (THREADS (SETTINGS config)) 0) as [|_]; [lia|].
  unfold bind, lift. rewrite Hm.
  exists tasks. split; [reflexivity|]. split; [assumption|].
  intros i a Hi. rewrite (Hnth i a Hi). simpl.
  assert (Hin : i < n) by (eapply lookup_lt_Some; eassumption).
  destruct (py_or_nth discord_file n i Hin Hd) as [_ ->].
  destruct (py_or_nth emails_file n i Hin He) as [_ ->].
  do 2 f_equal.
  assert (Hci := Hcn i Hin).
  destruct (cycled !! i) as [x|] eqn:Hx.
  - apply nth_lookup_Some with (d := "") in Hx. rewrite Hx.
    symmetry in Hci. now apply nth_lookup_Some with (d := "") in Hci.
  - apply lookup_ge_None in Hx. lia.
Qed.

Lemma start_launches_witness :
  exists tasks,
    start quiet_env (mkConfig (settings 3 [2; 5; 99]%Z) (example_flow []))
      ["p1"] ten_keys [] ["e1"; "e2"] st0
    = (Ok (Launched tasks), set_rng_pos 1 st0) /\
    length tasks = 2 /\
    forall i acc,
      ["k5"; "k2"] !! i = Some acc ->
      tasks !! i =
      Some (mkLaunch (2 + Z.of_nat i) (nth (i mod 1) ["p1"] "") acc
                     (nth i [] "") (nth i ["e1"; "e2"] "")).
Proof.
  apply (start_launches quiet_env
           (mkConfig (settings 3 [2; 5; 99]%Z) (example_flow []))
           ["p1"] ten_keys [] ["e1"; "e2"] st0 _
           (mkAccountsInfo ["k5"; "k2"] 2 99 "3 2"));
    try discriminate.
  - reflexivity.
  - now left.
  - right. simpl. lia.
Defined.

Lemma configured_none (private_keys : list string) (exact : list Z) :
  (forall x, In x exact ->
     (x < 1)%Z \/ (Z.of_nat (length private_keys) < x)%Z) ->
  configured_accounts private_keys exact = [].
Proof.
  induction exact as [|x exact IH]; intros H; [reflexivity|].
  unfold configured_accounts. cbn [omap list_omap].
  destruct (H x ltac:(now left)) as [Hx|Hx].
  - destruct (Z.leb_spec 1 x); [lia|]. cbn [andb]. apply IH.
    intros y Hy. apply H. now right.
  - destruct (Z.leb_spec x (Z.of_nat (length private_keys))); [lia|].
    rewrite Bool.andb_false_r. apply IH. intros y Hy. apply H. now right.
Qed.

(** X4.  When none of the explicit positions exists (each is below 1 or
    above the number of keys), [start] selects nothing, draws nothing
    from the random source, and gives up with "No accounts selected for
    processing." before any task is created. *)
Theorem start_nothing_selected :
  forall (env : Env) (config : Config)
         (proxies private_keys discord_file emails_file : list string)
         (s : St),
    proxies <> [] ->
    private_keys <> [] ->
    ACCOUNTS_RANGE (SETTINGS config) = (0, 0)%Z ->
    EXACT_ACCOUNTS_TO_USE (SETTINGS config) <> [] ->
    (forall x, In x (EXACT_ACCOUNTS_TO_USE (SETTINGS config)) ->
       (x < 1)%Z \/ (Z.of_nat (length private_keys) < x)%Z) ->
    start env config proxies private_keys discord_file emails_file s
    = (Ok (Aborted "No accounts selected for processing."), s).
Proof.
  intros env config proxies private_keys discord_file emails_file s
         Hp Hk Hrange Hexact Hout.
  destruct (select_accounts_explicit config private_keys Hrange Hexact)
    as (lo & hi & Hsel & _).
  rewrite (configured_none _ _ Hout) in Hsel.
  unfold start. destruct proxies; [congruence|].
  destruct private_keys as [|k keys] eqn:E; [congruence|]. rewrite <- E in *.
  unfold _get_accounts_to_process. unfold bind at 2, lift. rewrite Hsel.
  destruct s. reflexivity.
Qed.

Lemma start_nothing_selected_witness :
  start quiet_env (mkConfig (settings 3 [0; 11; 99]%Z) (example_flow []))
    ["p1"] ten_keys [] [] st0
  = (Ok (Aborted "No accounts selected for processing."), st0).
Proof.
  apply (start_nothing_selected quiet_env
           (mkConfig (settings 3 [0; 11; 99]%Z) (example_flow []))
           ["p1"] ten_keys [] [] st0); try discriminate.
  - reflexivity.
  - simpl. intros x [<-|[<-|[<-|[]]]]; lia.
Defined.

(** ** process.py: degenerate attempt budgets and pause ranges *)

Lemma executor_no_attempts env (function : M PyVal) config s :
  (ATTEMPTS (SETTINGS config) <= 0)%Z ->
  _execute_with_retries env function config s = (Ok false, s).
Proof.
  intros H. unfold _execute_with_retries, py_range.
  replace (Z.to_nat (ATTEMPTS (SETTINGS config))) with 0 by lia. reflexivity.
Qed.

(** X5.  With [ATTEMPTS <= 0] the retry executor returns [False] without
    calling the operation, so [account_flow] never calls [initialize] or
    [flow]: it sleeps the warm-up pause, reports the account as failed
    and, when the error ledger can be written, sleeps the cool-down
    pause and returns. *)
Theorem pipeline_without_attempts :
  forall (env : Env) (index : Z) (proxy key token email : string)
         (config : Config) (s : St),
    (ATTEMPTS (SETTINGS config) <= 0)%Z ->
    valid_range (RANDOM_INITIALIZATION_PAUSE (SETTINGS config)) ->
    valid_range (RANDOM_PAUSE_BETWEEN_ACCOUNTS (SETTINGS config)) ->
    ledger_writable env s ->
    exists s' warm_up cool_down,
      account_flow env index proxy key token email config s = (Ok tt, s') /\
      trace s' =
      trace s ++ [ESleep warm_up; EReport false (Some index);
                  ESleep cool_down] /\
      client_calls s' = client_calls s /\
      handler_calls s' = handler_calls s /\
      success_data s' = success_data s.
Proof.
  intros env index proxy key token email config s Hk Hinit Hnext Hw.
  set (s1 := after_pause env (RANDOM_INITIALIZATION_PAUSE (SETTINGS config)) s).
  set (s2 := set_session None s1).
  assert (Hw2 : ledger_writable env s2)
    by (apply (ledger_writable_next env s); [reflexivity|assumption]).
  unfold account_flow, try_except.
  rewrite (bind_ok _ _ _ _ _ (random_sleep_eq env _ s Hinit)).
  unfold new_Start. unfold bind at 1, modify. unfold bind at 1, ret.
  rewrite (bind_ok _ _ _ _ _ (executor_no_attempts env _ config _ Hk)).
  rewrite (bind_ok _ _ _ _ _ (executor_no_attempts env _ config _ Hk)).
  cbn [andb]. fold s1. fold s2.
  rewrite (bind_ok _ _ _ _ _ (report_error_eq env _ _ _ s2 Hw2)).
  rewrite (random_sleep_eq env _ _ Hnext).
  eexists _, _, _. split; [reflexivity|]. simpl.
  rewrite <- !app_assoc. simpl. auto.
Qed.

Lemma pipeline_without_attempts_witness :
  exists s' warm_up cool_down,
    account_flow quiet_env 7 example_proxy example_key "d" "e"
      (example_config 0 [Single "izumi"]) st0 = (Ok tt, s') /\
    trace s' =
    trace st0 ++ [ESleep warm_up; EReport false (Some 7%Z);
                  ESleep cool_down] /\
    client_calls s' = client_calls st0 /\
    handler_calls s' = handler_calls st0 /\
    success_data s' = success_data st0.
Proof.
  apply (pipeline_without_attempts quiet_env 7 example_proxy example_key "d" "e"
           (example_config 0 [Single "izumi"]) st0).
  - simpl. lia.
  - unfold valid_range. simpl. lia.
  - unfold valid_range. simpl. lia.
  - intros i _. reflexivity.
Defined.

(** X6.  When the warm-up range is empty (minimum above maximum),
    [random.randint] raises before the instance is built: the pipeline
    catches the [ValueError] and its handler reports the account as
    failed; when the error ledger can be written that is the only
    report, and the pipeline returns without sleeping, without a call to
    [create_client] and without running a task. *)
Theorem pipeline_empty_warm_up_range :
  forall (env : Env) (index : Z) (proxy key token email : string)
         (config : Config) (s : St),
    ~ valid_range (RANDOM_INITIALIZATION_PAUSE (SETTINGS config)) ->
    ledger_writable env s ->
    exists s',
      account_flow env index proxy key token email config s = (Ok tt, s') /\
      trace s' = trace s ++ [EReport false (Some index)] /\
      client_calls s' = client_calls s /\
      handler_calls s' = handler_calls s /\
      rng_pos s' = rng_pos s /\
      success_data s' = success_data s /\
      error_data s' = write_record proxy token (Some index) (error_data s).
Proof.
  intros env index proxy key token email config s Hinit Hw.
  unfold account_flow, try_except, _random_sleep.
  rewrite (bind_raise _ _ _ _ _
             (bind_raise _ _ _ _ _ (randint_empty env _ s Hinit))).
  rewrite (report_error_eq env _ _ _ s Hw).
  eexists. split; [reflexivity|]. simpl. auto 10.
Qed.

Lemma pipeline_empty_warm_up_range_witness :
  exists s',
    account_flow quiet_env 7 example_proxy example_key "d" "e"
      (mkConfig (mkSettings 1 3 (0, 0)%Z [] (5, 10)%Z (5, 10)%Z (5, 15)%Z (1, 3)%Z
                            (10, 5)%Z) (example_flow [Single "izumi"]))
      st0 = (Ok tt, s') /\
    trace s' = trace st0 ++ [EReport false (Some 7%Z)] /\
    client_calls s' = client_calls st0 /\
    handler_calls s' = handler_calls st0 /\
    rng_pos s' = rng_pos st0 /\
    success_data s' = success_data st0 /\
    error_data s' = write_record example_proxy "d" (Some 7%Z) (error_data st0).
Proof.
  apply (pipeline_empty_warm_up_range quiet_env 7 example_proxy example_key "d" "e"
           (mkConfig (mkSettings 1 3 (0, 0)%Z [] (5, 10)%Z (5, 10)%Z (5, 15)%Z (1, 3)%Z
                                 (10, 5)%Z) (example_flow [Single "izumi"]))
           st0).
  - unfold valid_range. simpl. lia.
  - intros i _. reflexivity.
Defined.

(** ** The pipeline when the collaborators work *)

(** [initialize] under the retry executor, with a client on call [j]. *)
Lemma initialize_recovers_run :
  forall (env : Env) (config : Config) (self : Start) (s : St) (k j : nat),
    ATTEMPTS (SETTINGS config) = Z.of_nat k ->
    valid_range (PAUSE_BETWEEN_ATTEMPTS (SETTINGS config)) ->
    1 <= j <= k ->
    (forall i, i < j - 1 -> create_client env (client_calls s + i) <> None) ->
    create_client env (client_calls s + (j - 1)) = None ->
    exists s',
      _execute_with_retries env (initialize env self) config s = (Ok true, s') /\
      session s' = Some (mkSession (proxy self)) /\
      client_calls s' = client_calls s + j /\
      count is_sleep (trace s') = count is_sleep (trace s) + (j - 1) /\
      count is_flow (trace s') = count is_flow (trace s) /\
      same_outcome s s'.
Proof.
  intros env config self s k j HK Hrange Hj Hfail Hok.
  unfold _execute_with_retries. rewrite HK, py_range_of_nat.
  pose (Before := fun (i : nat) (s' : St) =>
          client_calls s' = client_calls s + i /\
          count is_sleep (trace s') = count is_sleep (trace s) + i /\
          count is_flow (trace s') = count is_flow (trace s) /\
          same_outcome s s').
  pose (After := fun (i : nat) (s' : St) =>
          client_calls s' = client_calls s + S i /\
          count is_sleep (trace s') = count is_sleep (trace s) + i /\
          count is_flow (trace s') = count is_flow (trace s) /\
          same_outcome s s').
  destruct (retry_loop_failures env config (initialize env self) k
              Before After HK Hrange (j - 1) 0 s) as [H _]; try lia.
  - intros i s0 Hi (Hc & Hp & Hf & Hso).
    rewrite initialize_eq. simpl. rewrite Hc.
    destruct (create_client env (client_calls s + i)) eqn:Hcc.
    2:{ exfalso. apply (Hfail i); [lia|assumption]. }
    eexists _, _. split; [reflexivity|]. split; [reflexivity|].
    unfold After. simpl. rewrite !count_app, Hp, Hf. unfold count. simpl.
    do 3 (split; [lia|]).
    eapply same_outcome_trans; [exact Hso|].
    unfold same_outcome. simpl.
    rewrite executed_app, plans_app, reports_app. simpl.
    rewrite !app_nil_r. tauto.
  - intros i s0 _ _ (Hc & Hp & Hf & Hso). unfold Before. simpl.
    rewrite !count_app, Hp, Hf. unfold count. simpl.
    do 3 (split; [lia|]).
    eapply same_outcome_trans; [exact Hso|]. apply same_outcome_pause.
  - unfold Before. rewrite !Nat.add_0_r. auto using same_outcome_refl.
  - rewrite Nat.sub_0_r in H. simpl in H.
    destruct (H ltac:(lia)) as (s0 & Hloop & (Hc & Hp & Hf & Hso)).
    rewrite Hloop. replace (k - (j - 1)) with (S (k - j)) by lia.
    rewrite attempts_from_cons.
    assert (Hinit := initialize_eq env self s0). simpl in Hinit.
    rewrite Hc, Hok in Hinit.
    rewrite (retry_loop_success _ _ _ _ _ _ _ _ Hinit eq_refl).
    eexists. split; [reflexivity|]. simpl.
    rewrite !count_app, Hp, Hf. unfold count. simpl.
    split; [reflexivity|]. do 3 (split; [lia|]).
    eapply same_outcome_trans; [exact Hso|].
    unfold same_outcome. simpl.
    rewrite executed_app, plans_app, reports_app. simpl.
    rewrite !app_nil_r. tauto.
Qed.

(** X7.  [initialize] under the retry executor: when [create_client]
    raises on the first [j-1] calls and returns a client on call
    [j <= ATTEMPTS], the executor returns [True] after exactly [j] calls
    and [j-1] pauses, and the instance holds a session for its proxy. *)
Theorem initialize_recovers :
  forall (env : Env) (config : Config) (self : Start) (s : St) (k j : nat),
    ATTEMPTS (SETTINGS config) = Z.of_nat k ->
    valid_range (PAUSE_BETWEEN_ATTEMPTS (SETTINGS config)) ->
    1 <= j <= k ->
    (forall i, i < j - 1 -> create_client env (client_calls s + i) <> None) ->
    create_client env (client_calls s + (j - 1)) = None ->
    exists s',
      _execute_with_retries env (initialize env self) config s = (Ok true, s') /\
      session s' = Some (mkSession (proxy self)) /\
      client_calls s' = client_calls s + j /\
      count is_sleep (trace s') = count is_sleep (trace s) + (j - 1) /\
      count is_flow (trace s') = count is_flow (trace s) /\
      same_outcome s s'.
Proof. exact initialize_recovers_run. Qed.

Lemma initialize_recovers_witness :
  exists s',
    _execute_with_retries
      (mkEnv (fun _ => 0%Z)
             (fun n => match n with
                       | 0 | 1 => Some (ExternalError "connect")
                       | _ => None
                       end)
             (fun _ => None) (fun _ => Ok VNone) (fun _ => None)
                (fun _ => None))
      (initialize
         (mkEnv (fun _ => 0%Z)
                (fun n => match n with
                          | 0 | 1 => Some (ExternalError "connect")
                          | _ => None
                          end)
                (fun _ => None) (fun _ => Ok VNone) (fun _ => None)
                (fun _ => None))
         (example_start []))
      (example_config 3 []) st0 = (Ok true, s') /\
    session s' = Some (mkSession example_proxy) /\
    client_calls s' = 3 /\
    count is_sleep (trace s') = 2 /\
    count is_flow (trace s') = 0 /\
    same_outcome st0 s'.
Proof.
  apply (initialize_recovers _ (example_config 3 []) (example_start []) st0
           3 3 eq_refl).
  - unfold valid_range. simpl. lia.
  - lia.
  - intros [|[|i]] Hi; simpl in *; try discriminate. lia.
  - reflexivity.
Defined.


(** X8.  The successful pipeline.  When a client is created on attempt
    [j <= ATTEMPTS], the wallet can be built, no slot is empty, the pause
    ranges of the pipeline are not empty and the success ledger can be
    written, one call of [flow] runs every resolved task whose name has a
    handler (names are matched in lower case, other names are skipped
    with a warning), and the account is reported once, as a success.
    What the tasks do plays no part: swaps that raise and wallet
    statistics that cannot be read still lead to a success report. *)
Theorem pipeline_succeeds :
  forall (env : Env) (index : Z) (proxy key token email : string)
         (config : Config) (s : St) (k j : nat),
    ATTEMPTS (SETTINGS config) = Z.of_nat k ->
    1 <= j <= k ->
    valid_range (RANDOM_INITIALIZATION_PAUSE (SETTINGS config)) ->
    valid_range (PAUSE_BETWEEN_ATTEMPTS (SETTINGS config)) ->
    valid_range (RANDOM_PAUSE_BETWEEN_ACTIONS (SETTINGS config)) ->
    valid_range (RANDOM_PAUSE_BETWEEN_ACCOUNTS (SETTINGS config)) ->
    (forall i, i < j - 1 -> create_client env (client_calls s + i) <> None) ->
    create_client env (client_calls s + (j - 1)) = None ->
    from_key env key = None ->
    no_empty_slot (TASKS (FLOW config)) ->
    ledger_writable env s ->
    exists s' planned,
      account_flow env index proxy key token email config s = (Ok tt, s') /\
      Forall2 resolves (TASKS (FLOW config)) planned /\
      plans (trace s') = plans (trace s) ++ [planned] /\
      executed (trace s') =
        executed (trace s) ++ List.filter known_task (map lower planned) /\
      reports (trace s') = reports (trace s) ++ [(true, Some index)] /\
      count is_flow (trace s') = count is_flow (trace s) + 1 /\
      success_data s' = write_record proxy token (Some index) (success_data s) /\
      error_data s' = error_data s.
Proof.
  intros env index proxy key token email config s k j HK Hj Hinit Hrange
         Hact Hnext Hfail Hclient Hkey Hslots Hw.
  set (self := mkStart index proxy key token email config).
  set (s1 := after_pause env (RANDOM_INITIALIZATION_PAUSE (SETTINGS config)) s).
  set (s2 := set_session None s1).
  destruct (initialize_recovers_run env config self s2 k j HK Hrange Hj
              Hfail Hclient)
    as (s3 & H3 & Hs3 & _ & _ & Hf3 & Hso3).
  destruct (flow_all_tasks env self s3 _ Hs3 Hkey Hslots Hact)
    as (planned & s3' & s4 & Hres & _ & _ & Hflow & He4 & _ & Hp4 & Hr4 & Hf4).
  assert (H4 : _execute_with_retries env (flow env self) config s3
               = (Ok true, s4)).
  { unfold _execute_with_retries. rewrite HK, py_range_of_nat.
    replace k with (S (k - 1)) by lia. rewrite attempts_from_cons.
    apply (retry_loop_success _ _ _ _ _ _ _ _ Hflow eq_refl). }
  destruct (appends_flow (fun _ => true) ltac:(reflexivity)
              ltac:(reflexivity) ltac:(reflexivity) ltac:(reflexivity)
              ltac:(reflexivity) ltac:(reflexivity) env self s3)
    as (? & _ & _ & Hsd4 & Hed4 & _).
  rewrite Hflow in Hsd4, Hed4. simpl in Hsd4, Hed4.
  assert (Hw4 : ledger_writable env s4).
  { apply (ledger_writable_next env s); [|assumption].
    rewrite (flow_run_io _ _ _ _ _ _ H4), (initialize_run_io _ _ _ _ _ _ H3).
    reflexivity. }
  exists (after_pause env (RANDOM_PAUSE_BETWEEN_ACCOUNTS (SETTINGS config))
            (after_report true proxy token (Some index) s4)).
  exists planned. split.
  - unfold account_flow, try_except.
    rewrite (bind_ok _ _ _ _ _ (random_sleep_eq env _ s Hinit)).
    unfold new_Start. unfold bind at 1, modify. fold s1. fold s2.
    unfold bind at 1, ret. fold self.
    rewrite (bind_ok _ _ _ _ _ H3), (bind_ok _ _ _ _ _ H4). cbn [andb].
    rewrite (bind_ok _ _ _ _ _ (report_success_eq env _ _ _ s4 Hw4)).
    rewrite (random_sleep_eq env _ _ Hnext). reflexivity.
  - split; [assumption|].
    assert (Hso : same_outcome s s3).
    { eapply same_outcome_trans; [|exact Hso3].
      apply (same_outcome_pause env _ s). }
    destruct Hso as (He & Hp & Hr & Hsd & Hed). simpl.
    rewrite !plans_app, !executed_app, !reports_app, !count_app.
    rewrite He4, Hp4, Hr4, Hf4, He, Hp, Hr, Hf3, Hsd4, Hed4, Hsd, Hed.
    unfold s2, s1, count. simpl. rewrite List.filter_app. simpl.
    rewrite !app_nil_r. repeat split; lia.
Qed.

Lemma pipeline_succeeds_witness :
  exists s' planned,
    account_flow failing_tasks_env 7 example_proxy example_key "d" "e"
      (example_config 3 [Single "IZUMI"; Single "stake"; Single "Logs"]) st0
    = (Ok tt, s') /\
    Forall2 resolves [Single "IZUMI"; Single "stake"; Single "Logs"] planned /\
    plans (trace s') = plans (trace st0) ++ [planned] /\
    executed (trace s') =
      executed (trace st0) ++ List.filter known_task (map lower planned) /\
    reports (trace s') = reports (trace st0) ++ [(true, Some 7%Z)] /\
    count is_flow (trace s') = count is_flow (trace st0) + 1 /\
    success_data s' =
      write_record example_proxy "d" (Some 7%Z) (success_data st0) /\
    error_data s' = error_data st0.
Proof.
  apply (pipeline_succeeds failing_tasks_env 7 example_proxy example_key
           "d" "e"
           (example_config 3 [Single "IZUMI"; Single "stake"; Single "Logs"])
           st0 3 1 eq_refl); try (unfold valid_range; simpl; lia).
  - reflexivity.
  - reflexivity.
  - repeat constructor; discriminate.
  - intros i _. reflexivity.
Defined.

(** What the successful run above leaves in the trace: every call of the
    izumi swap raises, the unknown task [stake] gets a warning, the wallet
    statistics fail, each task has its pause, and the report is a
    success. *)
Example pipeline_succeeds_trace :
  trace (snd (account_flow failing_tasks_env 7 example_proxy example_key
                "d" "e"
                (example_config 3
                   [Single "IZUMI"; Single "stake"; Single "Logs"]) st0))
  = [ESleep 5; EInitialize; EFlow; EPlan ["IZUMI"; "stake"; "Logs"];
     ETask "izumi"; EInvoke 0; EInvoke 1; EInvoke 2; ESleep 1;
     EUnknownTask "stake"; ESleep 1;
     ETask "logs"; ESleep 1; EReport true (Some 7%Z); ESleep 5].
Proof. vm_compute. reflexivity. Qed.

(** ** The ledgers *)

Lemma index_lines_app b rs1 rs2 :
  index_lines b (rs1 ++ rs2) = index_lines b rs1 ++ index_lines b rs2.
Proof. unfold index_lines. now rewrite List.filter_app, List.map_app. Qed.

Lemma ledger_extends_nothing l lines : ledger_extends sublist l l lines.
Proof.
  split; [exists []|split; exists []]; rewrite ?app_nil_r; auto.
  split; [reflexivity|apply sublist_nil_l].
Qed.

(** The loop over [files_data] and the reporters, one step at a time. *)
Lemma write_files_cons env update filename data rest s :
  write_files env update ((filename, data) :: rest) s =
  if String.eqb data "" then write_files env update rest s
  else match ledger_io env (io_calls s) with
       | Some e => (Raise e, set_io_calls (S (io_calls s)) s)
       | None =>
           write_files env update rest
             (update (append_data filename data)
                     (set_io_calls (S (io_calls s)) s))
       end.
Proof.
  cbn [write_files]. destruct (String.eqb data ""); [reflexivity|].
  unfold file_system, bind, get, modify, ret, raise.
  destruct (ledger_io env (io_calls s)); reflexivity.
Qed.

Lemma report_success_step env proxy token index s :
  report_success env proxy token index s =
  let s0 := set_trace (trace s ++ [EReport true index]) s in
  match ledger_io env (io_calls s) with
  | Some e => (Raise e, set_io_calls (S (io_calls s)) s0)
  | None =>
      write_files env update_success_data (files_data proxy token index)
        (set_io_calls (S (io_calls s)) s0)
  end.
Proof.
  unfold report_success, file_system, emit, bind, get, modify, ret, raise.
  cbn. destruct (ledger_io env (io_calls s)); reflexivity.
Qed.

Lemma report_error_step env proxy token index s :
  report_error env proxy token index s =
  let s0 := set_trace (trace s ++ [EReport false index]) s in
  match ledger_io env (io_calls s) with
  | Some e => (Raise e, set_io_calls (S (io_calls s)) s0)
  | None =>
      write_files env update_error_data (files_data proxy token index)
        (set_io_calls (S (io_calls s)) s0)
  end.
Proof.
  unfold report_error, file_system, emit, bind, get, modify, ret, raise.
  cbn. destruct (ledger_io env (io_calls s)); reflexivity.
Qed.

(** The loop over [files_data] below one ledger root, whatever the file
    system does: the root only grows, by some of the values in their
    order, and nothing else is touched. *)
Section WriteFiles.
Context (env : Env) (this other : St -> Ledger).
Context (update : (Ledger -> Ledger) -> St -> St).
Hypothesis Hthis : forall g s, this (update g s) = g (this s).
Hypothesis Hother : forall g s, other (update g s) = other s.
Hypothesis Htrace : forall g s, trace (update g s) = trace s.
Hypothesis Hio_this : forall n s, this (set_io_calls n s) = this s.
Hypothesis Hio_other : forall n s, other (set_io_calls n s) = other s.

Lemma write_files_grow items s :
  trace (snd (write_files env update items s)) = trace s /\
  other (snd (write_files env update items s)) = other s /\
  ledger_extends sublist (this s)
    (this (snd (write_files env update items s))) (index_data items).
Proof.
  revert s. induction items as [|[filename data] rest IH]; intros s.
  - simpl. auto using ledger_extends_nothing.
  - rewrite write_files_cons.
    assert (Hskip : forall s',
              ledger_extends sublist (this s) (this s') (index_data rest) ->
              ledger_extends sublist (this s) (this s')
                (index_data ((filename, data) :: rest))).
    { intros s' ((added & Ha & Hsub) & Hp & Hd). split; [|auto].
      exists added. split; [assumption|]. unfold index_data.
      cbn [omap list_omap fst snd].
      destruct filename; [now apply sublist_cons|assumption|assumption]. }
    destruct (String.eqb data "").
    + destruct (IH s) as (Ht & Ho & He). auto.
    + destruct (ledger_io env (io_calls s)) as [e|].
      * cbn [snd]. rewrite Hio_this, Hio_other.
        auto using ledger_extends_nothing.
      * match goal with |- context [write_files env update rest ?st] =>
          destruct (IH st) as (Ht & Ho & (added & Ha & Hsub) & [p Hp] & [d Hd]);
          rewrite Ht, Ho, Htrace, Hother, Hio_other;
          rewrite Hthis, Hio_this in Ha, Hp, Hd
        end.
        split; [reflexivity|]. split; [reflexivity|].
        unfold index_data. cbn [omap list_omap fst snd].
        destruct filename; cbn [append_data account_indices_txt proxies_txt
                                 discord_tokens_txt] in Ha, Hp, Hd.
        -- split; [|eauto]. exists (data :: added).
           split; [now rewrite Ha, <- app_assoc|now apply sublist_skip].
        -- split; [eauto|]. split; [|eauto].
           exists (data :: p). now rewrite Hp, <- app_assoc.
        -- split; [eauto|]. split; [eauto|].
           exists (data :: d). now rewrite Hd, <- app_assoc.
Qed.

End WriteFiles.

(** The closure of "the ledgers only grow" under the ways in which the
    code is put together, for the two readings of the index files: the
    lines added are among the reports entered ([sublist]), or they are
    exactly those reports ([eq]). *)
Section LedgerRelation.
Context (R : list string -> list string -> Prop).
Hypothesis Rnil : R [] [].
Hypothesis Rapp : forall a b c d, R a b -> R c d -> R (a ++ c) (b ++ d).

Lemma ledger_extends_refl l : ledger_extends R l l [].
Proof.
  split; [exists []|split; exists []]; rewrite ?app_nil_r; auto.
Qed.

Lemma ledger_extends_trans l1 l2 l3 a b :
  ledger_extends R l1 l2 a -> ledger_extends R l2 l3 b ->
  ledger_extends R l1 l3 (a ++ b).
Proof.
  intros ((a1 & Hi1 & Hr1) & [p1 Hp1] & [d1 Hd1])
         ((a2 & Hi2 & Hr2) & [p2 Hp2] & [d2 Hd2]).
  unfold ledger_extends. rewrite Hi2, Hi1, Hp2, Hp1, Hd2, Hd1, <- !app_assoc.
  eauto 10.
Qed.

Lemma ledger_follows_trans s1 s2 s3 :
  ledger_follows R s1 s2 -> ledger_follows R s2 s3 -> ledger_follows R s1 s3.
Proof.
  intros (r1 & Ht1 & Hs1 & He1) (r2 & Ht2 & Hs2 & He2).
  exists (r1 ++ r2). rewrite Ht2, Ht1, <- app_assoc.
  rewrite reports_app, !index_lines_app.
  eauto using ledger_extends_trans.
Qed.

Lemma keeps_ledger_bind {A B} (m : M A) (k : A -> M B) :
  keeps_ledger R m -> (forall a, keeps_ledger R (k a)) ->
  keeps_ledger R (bind m k).
Proof.
  intros Hm Hk s. unfold bind. specialize (Hm s).
  destruct (m s) as [[a|e] s1]; simpl in *; [|assumption].
  eapply ledger_follows_trans; [exact Hm|apply Hk].
Qed.

Lemma keeps_ledger_try {A} (body : M A) (handler : Exn -> M A) :
  keeps_ledger R body -> (forall e, keeps_ledger R (handler e)) ->
  keeps_ledger R (try_except body handler).
Proof.
  intros Hm Hk s. unfold try_except. specialize (Hm s).
  destruct (body s) as [[a|e] s1]; simpl in *; [assumption|].
  eapply ledger_follows_trans; [exact Hm|apply Hk].
Qed.

Lemma keeps_ledger_appends {A} (m : M A) :
  appends not_report m -> keeps_ledger R m.
Proof.
  intros Hm s. destruct (Hm s) as (rest & Ht & Hp & Hs & He & _).
  exists rest. rewrite (reports_not_report _ Hp), Hs, He.
  auto using ledger_extends_refl.
Qed.

(** The pipeline keeps what its two reporters keep. *)
Lemma keeps_ledger_account_flow env index proxy key token email config :
  keeps_ledger R (report_success env proxy token (Some index)) ->
  keeps_ledger R (report_error env proxy token (Some index)) ->
  keeps_ledger R (account_flow env index proxy key token email config).
Proof.
  intros Hsuccess Herror.
  unfold account_flow. apply keeps_ledger_try; [|intros; exact Herror].
  apply keeps_ledger_bind.
  { apply keeps_ledger_appends. unfold _random_sleep.
    now apply appends_random_pause. }
  intros _. apply keeps_ledger_bind.
  { apply keeps_ledger_appends, appends_new_Start. }
  intros instance. apply keeps_ledger_bind.
  { apply keeps_ledger_appends. apply appends_retry_loop; try reflexivity.
    apply appends_initialize; reflexivity. }
  intros success. apply keeps_ledger_bind.
  { apply keeps_ledger_appends. apply appends_retry_loop; try reflexivity.
    apply appends_flow; reflexivity. }
  intros flowed. apply keeps_ledger_bind.
  - destruct (success && flowed); assumption.
  - intros _. apply keeps_ledger_appends. unfold _random_sleep.
    now apply appends_random_pause.
Qed.

End LedgerRelation.

(** A reporter, whatever the file system does. *)
Lemma keeps_ledger_report_success env proxy token index :
  keeps_ledger sublist (report_success env proxy token index).
Proof.
  intros s. rewrite report_success_step. cbv zeta.
  exists [EReport true index].
  destruct (ledger_io env (io_calls s)) as [e|].
  - split; [reflexivity|]. simpl. auto using ledger_extends_nothing.
  - match goal with |- context [write_files env ?u ?items ?st] =>
      destruct (write_files_grow env success_data error_data u
                  ltac:(reflexivity) ltac:(reflexivity) ltac:(reflexivity)
                  ltac:(reflexivity) ltac:(reflexivity) items st)
        as (Ht & Ho & He)
    end.
    rewrite Ht, Ho. split; [reflexivity|]. split; [exact He|].
    apply ledger_extends_nothing.
Qed.

Lemma keeps_ledger_report_error env proxy token index :
  keeps_ledger sublist (report_error env proxy token index).
Proof.
  intros s. rewrite report_error_step. cbv zeta.
  exists [EReport false index].
  destruct (ledger_io env (io_calls s)) as [e|].
  - split; [reflexivity|]. simpl. auto using ledger_extends_nothing.
  - match goal with |- context [write_files env ?u ?items ?st] =>
      destruct (write_files_grow env error_data success_data u
                  ltac:(reflexivity) ltac:(reflexivity) ltac:(reflexivity)
                  ltac:(reflexivity) ltac:(reflexivity) items st)
        as (Ht & Ho & He)
    end.
    rewrite Ht, Ho. split; [reflexivity|].
    split; [apply ledger_extends_nothing|exact He].
Qed.

(** The record of a report whose writes all go through. *)
Lemma ledger_extends_write proxy token index l :
  ledger_extends eq l (write_record proxy token index l) [index_line index].
Proof.
  unfold ledger_extends, write_record, append_line. simpl.
  rewrite index_line_nonempty. split; [eauto|].
  split; [destruct (String.eqb proxy "")|destruct (String.eqb token "")];
    eauto; exists []; now rewrite app_nil_r.
Qed.

Section WorkingFileSystem.
Context (env : Env).
Hypothesis Hio : forall n, ledger_io env n = None.

Lemma keeps_ledger_report_success_exact proxy token index :
  keeps_ledger eq (report_success env proxy token index).
Proof.
  intros s. rewrite report_success_eq by (intros i _; apply Hio).
  exists [EReport true index]. simpl. split; [reflexivity|]. split.
  - apply ledger_extends_write.
  - now apply ledger_extends_refl.
Qed.

Lemma keeps_ledger_report_error_exact proxy token index :
  keeps_ledger eq (report_error env proxy token index).
Proof.
  intros s. rewrite report_error_eq by (intros i _; apply Hio).
  exists [EReport false index]. simpl. split; [reflexivity|]. split.
  - now apply ledger_extends_refl.
  - apply ledger_extends_write.
Qed.

End WorkingFileSystem.

(** X9.  Whatever the collaborators, the file system and the
    configuration do, [account_flow] only appends to the ledger files,
    and the lines it adds to each of the two index files are among the
    indices of the reports of that kind that it entered: at most one line
    per report, in the order of the reports, and no line without a
    report.  When no call into the file system fails, the lines added
    are exactly the indices of those reports. *)
Theorem account_flow_keeps_ledger :
  forall (env : Env) (index : Z) (proxy key token email : string)
         (config : Config) (s : St),
    ledger_follows sublist s
      (snd (account_flow env index proxy key token email config s)) /\
    ((forall n, ledger_io env n = None) ->
     ledger_follows eq s
       (snd (account_flow env index proxy key token email config s))).
Proof.
  intros env index proxy key token email config s. split.
  - apply (keeps_ledger_account_flow sublist).
    + constructor.
    + intros a b c d. apply sublist_app.
    + apply keeps_ledger_report_success.
    + apply keeps_ledger_report_error.
  - intros Hio. apply (keeps_ledger_account_flow eq).
    + reflexivity.
    + now intros a b c d -> ->.
    + now apply keeps_ledger_report_success_exact.
    + now apply keeps_ledger_report_error_exact.
Qed.

Lemma account_flow_keeps_ledger_witness :
  ledger_follows eq st0
    (snd (account_flow quiet_env 7 example_proxy example_key "d" "e"
            (example_config 3 [Single "izumi"; Single "logs"]) st0)).
Proof.
  apply (proj2 (account_flow_keeps_ledger quiet_env 7 example_proxy
                  example_key "d" "e"
                  (example_config 3 [Single "izumi"; Single "logs"]) st0)).
  reflexivity.
Defined.

(** ** [flow] when it cannot even start its tasks *)

Lemma flow_bad_key env self s sess e :
  session s = Some sess ->
  from_key env (private_key self) = Some e ->
  flow env self s = (Ok (VBool false), set_trace (trace s ++ [EFlow]) s).
Proof.
  intros Hs Hkey. unfold flow, try_except, new_MonadXYZ.
  unfold bind at 1, emit, modify. unfold bind at 1, get. simpl.
  rewrite Hs, Hkey. reflexivity.
Qed.

(** X10.  When a client is created at the first call but the wallet
    cannot be derived from the private key, every attempt of [flow] ends
    at the constructor of [MonadXYZ]: [flow] is called [ATTEMPTS] times,
    no plan is resolved and no task is run; when the error ledger can
    then be written, the account is reported once, as failed, and the
    pipeline returns. *)
Theorem pipeline_bad_key :
  forall (env : Env) (index : Z) (proxy key token email : string)
         (config : Config) (s : St) (k : nat) (e : Exn),
    ATTEMPTS (SETTINGS config) = Z.of_nat k ->
    1 <= k ->
    valid_range (RANDOM_INITIALIZATION_PAUSE (SETTINGS config)) ->
    valid_range (PAUSE_BETWEEN_ATTEMPTS (SETTINGS config)) ->
    valid_range (RANDOM_PAUSE_BETWEEN_ACCOUNTS (SETTINGS config)) ->
    create_client env (client_calls s) = None ->
    from_key env key = Some e ->
    ledger_writable env s ->
    exists s',
      account_flow env index proxy key token email config s = (Ok tt, s') /\
      count is_flow (trace s') = count is_flow (trace s) + k /\
      plans (trace s') = plans (trace s) /\
      executed (trace s') = executed (trace s) /\
      reports (trace s') = reports (trace s) ++ [(false, Some index)] /\
      client_calls s' = client_calls s + 1 /\
      success_data s' = success_data s.
Proof.
  intros env index proxy key token email config s k e HK Hk Hinit Hrange
         Hnext Hclient Hkey Hw.
  set (self := mkStart index proxy key token email config).
  set (s1 := after_pause env (RANDOM_INITIALIZATION_PAUSE (SETTINGS config)) s).
  set (s2 := set_session None s1).
  assert (Hclient' : create_client env (client_calls s2 + (1 - 1)) = None).
  { simpl. now rewrite Nat.add_0_r. }
  destruct (initialize_recovers_run env config self s2 k 1 HK Hrange
              ltac:(lia) ltac:(intros; lia) Hclient')
    as (s3 & H3 & Hs3 & Hc3 & _ & Hf3 & Hso3).
  pose (Before := fun (i : nat) (s' : St) =>
          session s' = Some (mkSession proxy) /\ same_outcome s3 s' /\
          client_calls s' = client_calls s3 /\
          count is_flow (trace s') = count is_flow (trace s3) + i).
  pose (After := fun (i : nat) (s' : St) => Before (S i) s').
  destruct (retry_loop_failures env config (flow env self) k
              Before After HK Hrange k 0 s3) as [_ H]; try lia.
  - intros i s0 Hi (Hs0 & Hso & Hc & Hf).
    rewrite (flow_bad_key env self s0 _ e Hs0 Hkey).
    eexists _, _. split; [reflexivity|]. split; [reflexivity|].
    unfold After, Before. simpl. split; [assumption|]. split.
    + eapply same_outcome_trans; [exact Hso|].
      unfold same_outcome. simpl.
      rewrite executed_app, plans_app, reports_app. simpl.
      rewrite !app_nil_r. tauto.
    + rewrite count_app, Hf. unfold count. simpl. split; [assumption|lia].
  - intros i s0 _ _ (Hs0 & Hso & Hc & Hf). unfold Before. simpl.
    split; [assumption|]. split.
    + eapply same_outcome_trans; [exact Hso|]. apply same_outcome_pause.
    + rewrite count_app, Hf. unfold count. simpl. split; [assumption|lia].
  - unfold Before. rewrite Nat.add_0_r. auto using same_outcome_refl.
  - rewrite Nat.sub_0_r in H.
    destruct (H eq_refl Hk) as (s4 & H4 & (Hs4 & Hso4 & Hc4 & Hf4)).
    rewrite <- py_range_of_nat, <- HK in H4.
    fold (_execute_with_retries env (flow env self) config s3) in H4.
    assert (Hw4 : ledger_writable env s4).
    { apply (ledger_writable_next env s); [|assumption].
      rewrite (flow_run_io _ _ _ _ _ _ H4), (initialize_run_io _ _ _ _ _ _ H3).
      reflexivity. }
    eexists. split.
    + unfold account_flow, try_except.
      rewrite (bind_ok _ _ _ _ _ (random_sleep_eq env _ s Hinit)).
      unfold new_Start. unfold bind at 1, modify. fold s1. fold s2.
      unfold bind at 1, ret. fold self.
      rewrite (bind_ok _ _ _ _ _ H3), (bind_ok _ _ _ _ _ H4). cbn [andb].
      rewrite (bind_ok _ _ _ _ _ (report_error_eq env _ _ _ s4 Hw4)).
      rewrite (random_sleep_eq env _ _ Hnext). reflexivity.
    + assert (Hso : same_outcome s s4).
      { eapply same_outcome_trans; [|exact Hso4].
        eapply same_outcome_trans; [|exact Hso3].
        apply (same_outcome_pause env _ s). }
      destruct Hso as (He & Hp & Hr & Hsd & Hed). simpl.
      rewrite !count_app, !executed_app, !plans_app, !reports_app. simpl.
      rewrite !app_nil_r, Hf4, Hf3, He, Hp, Hr, Hsd, Hc4, Hc3.
      unfold s2, s1, count. simpl. rewrite List.filter_app. simpl.
      rewrite app_nil_r. repeat split; lia.
Qed.

Lemma pipeline_bad_key_witness :
  exists s',
    account_flow bad_key_env 7 example_proxy example_key "d" "e"
      (example_config 2 [Single "izumi"]) st0 = (Ok tt, s') /\
    count is_flow (trace s') = count is_flow (trace st0) + 2 /\
    plans (trace s') = plans (trace st0) /\
    executed (trace s') = executed (trace st0) /\
    reports (trace s') = reports (trace st0) ++ [(false, Some 7%Z)] /\
    client_calls s' = client_calls st0 + 1 /\
    success_data s' = success_data st0.
Proof.
  apply (pipeline_bad_key bad_key_env 7 example_proxy example_key "d" "e"
           (example_config 2 [Single "izumi"]) st0 2
           (ExternalError "invalid key") eq_refl);
    try (unfold valid_range; simpl; lia); try reflexivity.
  intros i _. reflexivity.
Defined.

Lemma plan_tasks_frame env tasks s r s' :
  plan_tasks env tasks s = (r, s') -> s' = set_rng_pos (rng_pos s') s.
Proof.
  revert s r s'. induction tasks as [|[task|alts] tasks IH]; intros s r s'.
  - intros [= <- <-]. now destruct s.
  - cbn [plan_tasks]. unfold bind.
    destruct (plan_tasks env tasks s) as [[planned|e] s0] eqn:E;
      intros [= <- <-]; exact (IH _ _ _ E).
  - cbn [plan_tasks]. destruct alts as [|a alts].
    { intros [= <- <-]. now destruct s. }
    unfold bind at 1. rewrite choice_eq by congruence.
    destruct (py_index (a :: alts) _) as [x|e].
    + unfold bind.
      destruct (plan_tasks env tasks (set_rng_pos (S (rng_pos s)) s))
        as [[planned|e] s0] eqn:E; intros [= <- <-];
        rewrite (IH _ _ _ E); now destruct s.
    + intros [= <- <-]. now destruct s.
Qed.

Lemma plan_tasks_empty_slot env tasks s :
  In (Alternatives []) tasks ->
  exists s', plan_tasks env tasks s = (Raise IndexError, s').
Proof.
  revert s. induction tasks as [|item tasks IH]; intros s; [intros []|].
  intros [->|Hin].
  - eexists. reflexivity.
  - destruct item as [task|alts]; cbn [plan_tasks].
    + destruct (IH s Hin) as [s' Hs']. exists s'.
      now rewrite (bind_raise _ _ _ _ _ Hs').
    + destruct alts as [|a alts]; [eexists; reflexivity|].
      destruct (py_index_mod (a :: alts) (rng env (rng_pos s))
                  ltac:(congruence)) as (x & Hx & _).
      destruct (IH (set_rng_pos (S (rng_pos s)) s) Hin) as [s' Hs'].
      exists s'. unfold bind at 1. rewrite choice_eq by congruence.
      rewrite Hx. now rewrite (bind_raise _ _ _ _ _ Hs').
Qed.

(** X11.  A slot with an empty list of alternatives makes every
    invocation of [flow] fail while it plans: [random.choice] raises
    [IndexError], [flow] returns [False], and no task is run, not even
    the tasks of the slots in front of the empty one. *)
Theorem flow_empty_slot :
  forall (env : Env) (self : Start) (s : St) (sess : Session),
    session s = Some sess ->
    from_key env (private_key self) = None ->
    In (Alternatives []) (TASKS (FLOW (config self))) ->
    exists s',
      flow env self s = (Ok (VBool false), s') /\
      trace s' = trace s ++ [EFlow] /\
      handler_calls s' = handler_calls s.
Proof.
  intros env self s sess Hs Hkey Hin.
  destruct (plan_tasks_empty_slot env _ (set_trace (trace s ++ [EFlow]) s) Hin)
    as [s' Hplan].
  exists s'. split.
  - unfold flow, try_except, new_MonadXYZ.
    unfold bind at 1, emit, modify. unfold bind at 1, get. simpl.
    rewrite Hs, Hkey. unfold bind at 1, ret.
    now rewrite (bind_raise _ _ _ _ _ Hplan).
  - apply plan_tasks_frame in Hplan. rewrite Hplan. auto.
Qed.

Lemma flow_empty_slot_witness :
  exists s',
    flow quiet_env
      (example_start [Single "izumi"; Alternatives []; Single "logs"])
      (with_session example_proxy st0) = (Ok (VBool false), s') /\
    trace s' = trace (with_session example_proxy st0) ++ [EFlow] /\
    handler_calls s' = handler_calls (with_session example_proxy st0).
Proof.
  apply (flow_empty_slot quiet_env
           (example_start [Single "izumi"; Alternatives []; Single "logs"])
           (with_session example_proxy st0) (mkSession example_proxy) eq_refl eq_refl).
  simpl. auto.
Defined.


(** ** Retrying [flow] runs the first task again *)

Lemma resolves_single names planned :
  Forall2 resolves (map Single names) planned -> planned = names.
Proof.
  revert planned. induction names as [|n names IH]; intros planned H;
    inversion H; subst; [reflexivity|]. simpl in *. f_equal; auto.
Qed.

Lemma no_empty_slot_single names : no_empty_slot (map Single names).
Proof.
  unfold no_empty_slot. induction names; simpl; constructor; auto.
Qed.

(** One invocation of [flow] on a fixed task list, with an empty range of
    pauses between the tasks: the plan is logged, the first task runs, and
    the pause behind it ends the invocation. *)
Lemma flow_fails_at_first_pause env self s sess task rest :
  session s = Some sess ->
  from_key env (private_key self) = None ->
  TASKS (FLOW (config self)) = map Single (task :: rest) ->
  ~ valid_range (RANDOM_PAUSE_BETWEEN_ACTIONS (SETTINGS (config self))) ->
  exists s',
    flow env self s = (Ok (VBool false), s') /\
    session s' = Some sess /\
    plans (trace s') = plans (trace s) ++ [task :: rest] /\
    executed (trace s') =
      executed (trace s) ++ List.filter known_task [lower task] /\
    count is_flow (trace s') = count is_flow (trace s) + 1.
Proof.
  intros Hs Hkey Htasks Hrange.
  destruct (flow_eq env self s sess Hs Hkey) as (planned & _ & Hres & Hflow).
  { rewrite Htasks. apply no_empty_slot_single. }
  rewrite Htasks in Hres. apply resolves_single in Hres. subst planned.
  cbv zeta in Hflow. set (s2 := set_trace _ _) in Hflow.
  destruct (run_tasks_first env self task rest s2 Hrange)
    as (s1 & Hexec & Hrun).
  destruct (execute_task_run env self (lower task) s2)
    as (s1' & body & Hexec' & Ht & Hp & _ & Hs1 & _).
  rewrite Hexec in Hexec'. injection Hexec' as <-.
  rewrite Hrun in Hflow. exists s1. split; [exact Hflow|].
  destruct (inner_read body Hp) as (Be & Bp & _ & Bf).
  rewrite Hs1, Ht. unfold s2. simpl. split; [assumption|].
  rewrite <- app_assoc. simpl.
  change (EFlow :: EPlan (task :: rest) :: task_event (lower task) :: body)
    with ([EFlow; EPlan (task :: rest); task_event (lower task)] ++ body).
  rewrite !plans_app, !executed_app, !count_app, Be, Bp, Bf.
  unfold task_event. destruct (known_task (lower task));
    unfold count; simpl; rewrite ?app_nil_r; repeat split; lia.
Qed.

(** X12.  A retry of [flow] starts the task list over.  With a fixed task
    list and a range of pauses between the tasks that is empty (minimum
    above maximum), each of the [ATTEMPTS] attempts of [flow] logs the
    whole plan, runs the first task and fails at the pause behind it: the
    first task (an izumi swap, say) is run [ATTEMPTS] times, the tasks
    behind it are never run, and the executor returns [False]. *)
Theorem flow_retries_repeat_tasks :
  forall (env : Env) (self : Start) (s : St) (sess : Session) (k : nat)
         (task : string) (rest : list string),
    ATTEMPTS (SETTINGS (config self)) = Z.of_nat k ->
    1 <= k ->
    valid_range (PAUSE_BETWEEN_ATTEMPTS (SETTINGS (config self))) ->
    ~ valid_range (RANDOM_PAUSE_BETWEEN_ACTIONS (SETTINGS (config self))) ->
    session s = Some sess ->
    from_key env (private_key self) = None ->
    TASKS (FLOW (config self)) = map Single (task :: rest) ->
    exists s',
      _execute_with_retries env (flow env self) (config self) s
      = (Ok false, s') /\
      plans (trace s') = plans (trace s) ++ replicate k (task :: rest) /\
      executed (trace s') =
        executed (trace s) ++
        concat (replicate k (List.filter known_task [lower task])) /\
      count is_flow (trace s') = count is_flow (trace s) + k.
Proof.
  intros env self s sess k task rest HK Hk Hrange Hact Hs Hkey Htasks.
  unfold _execute_with_retries. rewrite HK, py_range_of_nat.
  set (block := List.filter known_task [lower task]).
  pose (Before := fun (i : nat) (s' : St) =>
          session s' = Some sess /\
          plans (trace s') = plans (trace s) ++ replicate i (task :: rest) /\
          executed (trace s') =
            executed (trace s) ++ concat (replicate i block) /\
          count is_flow (trace s') = count is_flow (trace s) + i).
  pose (After := fun (i : nat) (s' : St) => Before (S i) s').
  destruct (retry_loop_failures env (config self) (flow env self) k
              Before After HK Hrange k 0 s) as [_ H]; try lia.
  - intros i s0 Hi (Hs0 & Hp0 & He0 & Hf0).
    destruct (flow_fails_at_first_pause env self s0 sess task rest
                Hs0 Hkey Htasks Hact)
      as (s1 & Hflow & Hs1 & Hp1 & He1 & Hf1).
    exists (VBool false), s1. split; [assumption|]. split; [reflexivity|].
    unfold After, Before. split; [assumption|].
    replace (S i) with (i + 1) by lia.
    rewrite !replicate_add, concat_app. simpl.
    rewrite Hp1, Hp0, He1, He0, Hf1, Hf0, <- !app_assoc, app_nil_r.
    repeat split; lia.
  - intros i s0 _ _ (Hs0 & Hp0 & He0 & Hf0). unfold Before. simpl.
    rewrite plans_app, executed_app, count_app, Hp0, He0, Hf0.
    unfold count. simpl. rewrite !app_nil_r.
    split; [assumption|]. repeat split; lia.
  - unfold Before. simpl. rewrite !app_nil_r, Nat.add_0_r. auto.
  - rewrite Nat.sub_0_r in H.
    destruct (H eq_refl Hk) as (s' & Hloop & (Hs' & Hp' & He' & Hf')).
    exists s'. replace (S (k - 1)) with k in * by lia. auto.
Qed.

Lemma flow_retries_repeat_tasks_witness :
  exists s',
    _execute_with_retries quiet_env
      (flow quiet_env
         (mkStart 7 example_proxy example_key "d" "e"
            (bad_action_pause_config 3 [Single "izumi"; Single "logs"])))
      (bad_action_pause_config 3 [Single "izumi"; Single "logs"])
      (with_session example_proxy st0) = (Ok false, s') /\
    plans (trace s') =
      plans (trace (with_session example_proxy st0)) ++
      replicate 3 ["izumi"; "logs"] /\
    executed (trace s') =
      executed (trace (with_session example_proxy st0)) ++
      concat (replicate 3 (List.filter known_task [lower "izumi"])) /\
    count is_flow (trace s') =
      count is_flow (trace (with_session example_proxy st0)) + 3.
Proof.
  apply (flow_retries_repeat_tasks quiet_env
           (mkStart 7 example_proxy example_key "d" "e"
              (bad_action_pause_config 3 [Single "izumi"; Single "logs"]))
           (with_session example_proxy st0) (mkSession example_proxy) 3
           "izumi" ["logs"] eq_refl);
    try (unfold valid_range; simpl; lia); reflexivity.
Defined.

(** ** src/utils/reader.py and [_load_file] *)

Lemma lstrip_head s :
  match lstrip s with
  | EmptyString => True
  | String c _ => is_space c = false
  end.
Proof.
  induction s as [|c s IH]; simpl; [exact I|].
  destruct (is_space c) eqn:Hc; [exact IH|exact Hc].
Qed.

Lemma rstrip_head c s :
  is_space c = false ->
  exists r, rstrip (String c s) = String c r.
Proof.
  intros Hc. simpl. destruct (rstrip s); rewrite ?Hc; eauto.
Qed.

Lemma rstrip_idem s : rstrip (rstrip s) = rstrip s.
Proof.
  induction s as [|c s IH]; simpl; [reflexivity|].
  destruct (rstrip s) as [|c' r] eqn:Hr.
  - destruct (is_space c) eqn:Hc; simpl; [reflexivity|now rewrite Hc].
  - cbn [rstrip]. cbn [rstrip] in IH. rewrite IH. reflexivity.
Qed.

Lemma lstrip_fixed c s : is_space c = false -> lstrip (String c s) = String c s.
Proof. intros Hc. simpl. now rewrite Hc. Qed.

(** Stripping a stripped string changes nothing. *)
Lemma py_strip_idem s : py_strip (py_strip s) = py_strip s.
Proof.
  unfold py_strip. pose proof (lstrip_head s) as H.
  destruct (lstrip s) as [|c t] eqn:Hl; [reflexivity|].
  destruct (rstrip_head c t H) as [r Hr]. rewrite Hr.
  rewrite (lstrip_fixed c r H), <- Hr. apply rstrip_idem.
Qed.

(** X13.  [read_txt_file] passes an exception of the file system on
    unchanged; otherwise every item it returns is non-empty and carries
    no white space at either end, and the items are the stripped
    non-blank lines in file order. *)
Theorem read_txt_file_items :
  forall (file : Res (list string)),
    match read_txt_file file, file with
    | Ok items, Ok lines =>
        Forall (fun item => item <> "" /\ py_strip item = item) items /\
        items = List.filter (fun item => negb (String.eqb item ""))
                            (map py_strip lines)
    | Raise e, Raise e' => e = e'
    | _, _ => False
    end.
Proof.
  intros [lines|e]; simpl; [|reflexivity]. split.
  - induction lines as [|line lines IH]; simpl; [constructor|].
    destruct (String.eqb_spec (py_strip line) ""); simpl; [exact IH|].
    constructor; [|exact IH]. split; [assumption|apply py_strip_idem].
  - induction lines as [|line lines IH]; simpl; [reflexivity|].
    destruct (String.eqb (py_strip line) ""); simpl; now rewrite IH.
Qed.

(** [_load_file] never raises: a file that cannot be read gives the
    empty list, whether or not it was declared optional, and what it
    returns otherwise is exactly what [read_txt_file] returns. *)
Lemma load_file_total :
  forall (file : Res (list string)) (optional : bool),
    _load_file file optional = _load_file file (negb optional) /\
    match read_txt_file file with
    | Ok items => _load_file file optional = items
    | Raise _ => _load_file file optional = []
    end.
Proof.
  intros file optional. unfold _load_file.
  destruct (read_txt_file file) as [[|item items]|e]; destruct optional;
    auto.
Qed.

Lemma chunks_concat {A} (n m : nat) (l : list A) :
  length l <= m * n ->
  concat (map (fun k => take n (drop (k * n) l)) (seq 0 m)) = l.
Proof.
  revert l. induction m as [|m IH]; intros l Hl.
  - destruct l; [reflexivity|simpl in Hl; lia].
  - cbn [seq map concat]. rewrite <- seq_shift, List.map_map.
    simpl (0 * n). rewrite drop_0.
    rewrite (List.map_ext _ (fun k => take n (drop (k * n) (drop n l)))).
    + rewrite IH; [apply take_drop|]. rewrite length_drop. lia.
    + intros k. now rewrite drop_drop.
Qed.

Lemma split_list_eq {A} (lst : list A) (chunk_size : Z) :
  (0 < chunk_size)%Z ->
  split_list lst chunk_size =
  Ok (map (fun k => take (Z.to_nat chunk_size)
                         (drop (k * Z.to_nat chunk_size) lst))
          (seq 0 (Z.to_nat ((Z.of_nat (length lst) + chunk_size - 1)
                            / chunk_size)))).
Proof.
  intros Hc. unfold split_list, py_range_step.
  destruct (Z.leb_spec chunk_size 0); [lia|]. f_equal.
  rewrite List.map_map. apply List.map_ext. intros k.
  rewrite py_slice_positions by nia. f_equal; [f_equal; lia|].
  f_equal. nia.
Qed.

(** X15.  [split_list] refuses a chunk size that is not positive with
    [ValueError].  For a positive chunk size the chunks, put together in
    order, give the list back; no chunk is empty or longer than the chunk
    size, and every chunk but the last has exactly the chunk size. *)
Theorem split_list_chunks :
  forall (A : Type) (lst : list A) (chunk_size : Z),
    ((chunk_size <= 0)%Z -> split_list lst chunk_size = Raise ValueError) /\
    ((0 < chunk_size)%Z ->
     exists chunks,
       split_list lst chunk_size = Ok chunks /\
       concat chunks = lst /\
       Forall (fun c => 0 < length c /\ (Z.of_nat (length c) <= chunk_size)%Z)
              chunks /\
       forall i c,
         i + 1 < length chunks -> chunks !! i = Some c ->
         Z.of_nat (length c) = chunk_size).
Proof.
  intros A lst chunk_size. split.
  - intros Hc. unfold split_list. destruct (Z.leb_spec chunk_size 0); [|lia].
    reflexivity.
  - intros Hc. rewrite (split_list_eq lst chunk_size Hc).
    set (n := Z.to_nat chunk_size).
    set (m := Z.to_nat ((Z.of_nat (length lst) + chunk_size - 1) / chunk_size)).
    assert (Hn : 0 < n) by (unfold n; lia).
    assert (Hm : length lst <= m * n /\ (0 < m -> (m - 1) * n < length lst)).
    { pose proof (Z.div_mod (Z.of_nat (length lst) + chunk_size - 1)
                    chunk_size ltac:(lia)) as Hdm.
      pose proof (Z.mod_pos_bound (Z.of_nat (length lst) + chunk_size - 1)
                    chunk_size Hc) as Hmod.
      assert (0 <= (Z.of_nat (length lst) + chunk_size - 1) / chunk_size)%Z
        by (apply Z.div_pos; lia).
      unfold m, n. split; [nia|]. intros Hpos. nia. }
    destruct Hm as [Hm1 Hm2].
    eexists. split; [reflexivity|]. split; [now apply chunks_concat|]. split.
    + apply Forall_forall. intros c Hin.
      apply list_elem_of_In, List.in_map_iff in Hin as (k & <- & Hk).
      apply List.in_seq in Hk. rewrite length_take, length_drop.
      specialize (Hm2 ltac:(lia)). split; [nia|lia].
    + intros i c Hi Hc'. rewrite List.length_map, List.length_seq in Hi.
      rewrite lookup_map, lookup_seq_lt in Hc' by lia.
      injection Hc' as <-. rewrite length_take, length_drop.
      specialize (Hm2 ltac:(lia)). simpl. fold n. nia.
Qed.

Lemma split_list_chunks_witness :
  exists chunks,
    split_list [1; 2; 3; 4; 5; 6; 7] 3 = Ok chunks /\
    concat chunks = [1; 2; 3; 4; 5; 6; 7] /\
    Forall (fun c => 0 < length c /\ (Z.of_nat (length c) <= 3)%Z) chunks /\
    forall i c,
      i + 1 < length chunks -> chunks !! i = Some c ->
      Z.of_nat (length c) = 3%Z.
Proof.
  apply (proj2 (split_list_chunks nat [1; 2; 3; 4; 5; 6; 7] 3)). lia.
Defined.

Lemma load_file_blank lines optional :
  Forall (fun line => py_strip line = "") lines ->
  _load_file (Ok lines) optional = [].
Proof.
  intros H. unfold _load_file, read_txt_file.
  replace (List.filter _ lines) with (@nil string).
  - now destruct optional.
  - induction H as [|line lines Hl _ IH]; [reflexivity|]. simpl.
    now rewrite Hl.
Qed.

(** X14.  When the proxies file cannot be read, or holds nothing but
    blank lines, [start] gives up with "No proxies found" before it looks
    at any other file: nothing is drawn, nothing is launched, and the
    exception of the file system does not reach the caller. *)
Theorem start_files_without_proxies :
  forall (env : Env) (config : Config)
         (proxies_file keys_file discord_file emails_file : Res (list string))
         (s : St),
    (exists e, proxies_file = Raise e) \/
    (exists lines, proxies_file = Ok lines /\
                   Forall (fun line => py_strip line = "") lines) ->
    start_files env config proxies_file keys_file discord_file emails_file s
    = (Ok (Aborted "No proxies found. Please provide valid proxies."), s).
Proof.
  intros env config proxies_file keys_file discord_file emails_file s H.
  unfold start_files.
  replace (_load_file proxies_file false) with (@nil string); [reflexivity|].
  destruct H as [[e ->]|(lines & -> & Hb)].
  - reflexivity.
  - symmetry. now apply load_file_blank.
Qed.

Lemma start_files_without_proxies_witness :
  start_files quiet_env (example_config 3 [])
    (Ok [" "; String "010" ""; String "009" " "]) (Ok ["k1"]) (Ok []) (Ok [])
    st0
  = (Ok (Aborted "No proxies found. Please provide valid proxies."), st0).
Proof.
  apply (start_files_without_proxies quiet_env (example_config 3 [])).
  right. eexists. split; [reflexivity|]. repeat constructor.
Defined.

(** ** src/model/monad_xyz/instance.py: [_retry_swap] *)

Lemma after_calls_0 s : after_calls 0 s = s.
Proof.
  destruct s. unfold after_calls, set_trace, set_op_calls. simpl.
  now rewrite app_nil_r, Nat.add_0_r.
Qed.

Lemma after_calls_add a b s :
  after_calls b (after_calls a s) = after_calls (a + b) s.
Proof.
  destruct s. unfold after_calls, set_trace, set_op_calls.
  cbn [trace op_calls rng_pos client_calls handler_calls session
       success_data error_data].
  rewrite <- app_assoc, <- List.map_app, <- seq_app, Nat.add_assoc.
  reflexivity.
Qed.

Lemma scripted_after_calls script s :
  scripted script s = (script (op_calls s), after_calls 1 s).
Proof.
  rewrite scripted_eq. unfold after_calls. simpl. do 3 f_equal. lia.
Qed.

Section RetrySwap.
Context (env : Env) (config : Config).
Context (script : nat -> Res PyVal).
Abbreviation swap_loop := (retry_swap_loop env config (scripted script)).

Lemma retry_swap_attempt_fails retry rest s :
  (exists e, script (op_calls s) = Raise e) \/
  ~ valid_range (PAUSE_BETWEEN_SWAPS (SETTINGS config)) ->
  swap_loop (retry :: rest) s =
  if (retry =? ATTEMPTS (SETTINGS config) - 1)%Z
  then (Ok false, after_calls 1 s)
  else swap_loop rest (after_calls 1 s).
Proof.
  intros H. cbn [retry_swap_loop]. unfold bind at 1, try_except.
  unfold bind at 1. rewrite scripted_after_calls.
  destruct (script (op_calls s)) as [v|e] eqn:Hv.
  - destruct H as [[e He]|Hr]; [discriminate|].
    unfold bind at 1. rewrite (randint_empty env _ _ Hr).
    destruct (_ =? _)%Z; reflexivity.
  - destruct (_ =? _)%Z; reflexivity.
Qed.

Lemma retry_swap_attempt_succeeds retry rest s v :
  script (op_calls s) = Ok v ->
  valid_range (PAUSE_BETWEEN_SWAPS (SETTINGS config)) ->
  swap_loop (retry :: rest) s =
  (Ok true, after_pause env (PAUSE_BETWEEN_SWAPS (SETTINGS config)) (after_calls 1 s)).
Proof.
  intros Hv Hr. cbn [retry_swap_loop]. unfold bind at 1, try_except.
  unfold bind at 1. rewrite scripted_after_calls, Hv.
  unfold bind at 1. rewrite (randint_valid env _ _ Hr). reflexivity.
Qed.

Context (k : nat).
Hypothesis HK : ATTEMPTS (SETTINGS config) = Z.of_nat k.

(** [b] failed attempts in a row, from attempt [a] on. *)
Lemma retry_swap_failures (b a : nat) (s : St) :
  a + b <= k ->
  (forall i, i < b ->
     (exists e, script (op_calls s + i) = Raise e) \/
     ~ valid_range (PAUSE_BETWEEN_SWAPS (SETTINGS config))) ->
  (a + b < k ->
   swap_loop (attempts_from a (k - a)) s =
   swap_loop (attempts_from (a + b) (k - (a + b))) (after_calls b s)) /\
  (a + b = k -> 1 <= b ->
   swap_loop (attempts_from a (k - a)) s = (Ok false, after_calls b s)).
Proof.
  revert a s. induction b as [|b IH]; intros a s Hab Hfail.
  - split; [|lia]. intros _. now rewrite Nat.add_0_r, after_calls_0.
  - assert (H0 := Hfail 0 ltac:(lia)). rewrite Nat.add_0_r in H0.
    assert (Hseq : attempts_from a (k - a) =
                   Z.of_nat a :: attempts_from (S a) (k - S a)).
    { replace (k - a) with (S (k - S a)) by lia. apply attempts_from_cons. }
    rewrite Hseq, (retry_swap_attempt_fails _ _ _ H0), HK.
    destruct (Z.eqb_spec (Z.of_nat a) (Z.of_nat k - 1)) as [Heq|Hne].
    + assert (b = 0) by lia. subst b. split; [lia|]. intros _ _.
      reflexivity.
    + destruct (IH (S a) (after_calls 1 s) ltac:(lia)) as [IH1 IH2].
      { intros i Hi. specialize (Hfail (S i) ltac:(lia)).
        unfold after_calls at 1. simpl.
        replace (op_calls s + 1 + i) with (op_calls s + S i) by lia.
        exact Hfail. }
      rewrite after_calls_add in IH1.
      replace (S a + b) with (a + S b) in * by lia.
      split; [exact IH1|]. intros Hk _.
      destruct b as [|b]; [lia|]. rewrite IH2 by lia.
      now rewrite after_calls_add.
Qed.

End RetrySwap.

Lemma retry_swap_all_fail env config script (k : nat) s :
  ATTEMPTS (SETTINGS config) = Z.of_nat k ->
  (forall i, i < k ->
     (exists e, script (op_calls s + i) = Raise e) \/
     ~ valid_range (PAUSE_BETWEEN_SWAPS (SETTINGS config))) ->
  _retry_swap env config (scripted script) s = (Ok false, after_calls k s).
Proof.
  intros HK Hfail. unfold _retry_swap. rewrite HK, py_range_of_nat.
  destruct k as [|k]; [now rewrite after_calls_0|].
  destruct (retry_swap_failures env config script (S k) HK (S k) 0 s
              ltac:(lia) Hfail) as [_ H].
  rewrite Nat.sub_0_r in H. apply H; lia.
Qed.

Lemma retry_swap_succeeds_at env config script (k j : nat) s v :
  ATTEMPTS (SETTINGS config) = Z.of_nat k ->
  valid_range (PAUSE_BETWEEN_SWAPS (SETTINGS config)) ->
  1 <= j <= k ->
  (forall i, i < j - 1 -> exists e, script (op_calls s + i) = Raise e) ->
  script (op_calls s + (j - 1)) = Ok v ->
  _retry_swap env config (scripted script) s =
  (Ok true, after_pause env (PAUSE_BETWEEN_SWAPS (SETTINGS config)) (after_calls j s)).
Proof.
  intros HK Hrange Hj Hfail Hv. unfold _retry_swap.
  rewrite HK, py_range_of_nat.
  destruct (retry_swap_failures env config script k HK (j - 1) 0 s
              ltac:(lia)) as [H _].
  { intros i Hi. left. now apply Hfail. }
  rewrite Nat.sub_0_r in H. simpl in H. rewrite H by lia.
  replace (k - (j - 1)) with (S (k - j)) by lia. rewrite attempts_from_cons.
  rewrite (retry_swap_attempt_succeeds env config script _ _ _ v);
    [|exact Hv|assumption].
  rewrite after_calls_add. now replace (j - 1 + 1) with j by lia.
Qed.

(** X16.  [_retry_swap] with a non-empty pause range: when the first
    [j-1] calls of [swapper.swap] raise and call [j <= ATTEMPTS] returns,
    it returns [True] after exactly [j] calls and one pause, whatever the
    call returned (a swap that did nothing and returned [None] counts as
    done); when all [ATTEMPTS] calls raise it returns [False] after
    exactly [ATTEMPTS] calls, and there is no pause between or after
    failed attempts. *)
Theorem retry_swap_attempts :
  forall (env : Env) (config : Config)
         (script : nat -> Res PyVal) (s : St) (k j : nat),
    ATTEMPTS (SETTINGS config) = Z.of_nat k ->
    valid_range (PAUSE_BETWEEN_SWAPS (SETTINGS config)) ->
    1 <= j <= k ->
    (forall i, i < j - 1 -> exists e, script (op_calls s + i) = Raise e) ->
    ((exists v, script (op_calls s + (j - 1)) = Ok v) ->
     _retry_swap env config (scripted script) s =
     (Ok true, after_pause env (PAUSE_BETWEEN_SWAPS (SETTINGS config)) (after_calls j s))) /\
    (j = k ->
     (exists e, script (op_calls s + (j - 1)) = Raise e) ->
     _retry_swap env config (scripted script) s
     = (Ok false, after_calls k s)).
Proof.
  intros env config script s k j HK Hrange Hj Hfail. split.
  - intros [v Hv]. eapply retry_swap_succeeds_at; eassumption.
  - intros -> Hlast. apply retry_swap_all_fail; [assumption|].
    intros i Hi. left. destruct (Nat.eq_dec i (k - 1)) as [->|Hne];
      [assumption|apply Hfail; lia].
Qed.

Lemma retry_swap_attempts_witness :
  _retry_swap quiet_env (example_config 3 [])
    (scripted (fun n => match n with
                        | 0 => Raise (ExternalError "rpc")
                        | _ => Ok VNone
                        end))
    st0
  = (Ok true,
     mkSt [EInvoke 0; EInvoke 1; ESleep 5] 1 2 0 0 0 None empty_ledger
          empty_ledger).
Proof.
  refine (proj1 (retry_swap_attempts quiet_env (example_config 3 []) _ st0 3 2
                   eq_refl _ _ _) _).
  - unfold valid_range. simpl. lia.
  - lia.
  - intros [|i] Hi; [eexists; reflexivity|simpl in Hi; lia].
  - eexists. reflexivity.
Defined.

(** X17.  [_retry_swap] with an empty pause range (minimum above
    maximum): [random.randint] raises inside the [try] block after the
    swap has been made, so a swap that succeeds is counted as failed and
    made again.  Whatever [swapper.swap] does, it is called [ATTEMPTS]
    times and the result is [False]. *)
Theorem retry_swap_empty_pause_range :
  forall (env : Env) (config : Config)
         (script : nat -> Res PyVal) (s : St) (k : nat),
    ATTEMPTS (SETTINGS config) = Z.of_nat k ->
    ~ valid_range (PAUSE_BETWEEN_SWAPS (SETTINGS config)) ->
    _retry_swap env config (scripted script) s
    = (Ok false, after_calls k s).
Proof.
  intros env config script s k HK Hrange.
  apply retry_swap_all_fail; [assumption|]. intros i _. now right.
Qed.

Lemma retry_swap_empty_pause_range_witness :
  _retry_swap quiet_env bad_swap_pause_config
    (scripted (fun _ => Ok (VStr "0xhash"))) st0
  = (Ok false,
     mkSt [EInvoke 0; EInvoke 1; EInvoke 2] 0 3 0 0 0 None empty_ledger
          empty_ledger).
Proof.
  apply (retry_swap_empty_pause_range quiet_env bad_swap_pause_config _ st0 3
           eq_refl).
  unfold valid_range. simpl. lia.
Defined.

(** ** src/model/monad_xyz/instance.py: the swap handlers *)

Section IzumiSwaps.
Context (env : Env) (self : Start).
Context (script : nat -> Res PyVal) (k : nat).
Hypothesis HK : ATTEMPTS (SETTINGS (config self)) = Z.of_nat k.
Hypothesis Hkey : from_key env (private_key self) = None.
Hypothesis Hpercent : valid_range (PERCENT_OF_BALANCE_TO_SWAP (FLOW (config self))).

Lemma izumi_swaps_loop_all_done (swap_nums : list Z) (s : St) :
  1 <= k ->
  valid_range (PAUSE_BETWEEN_SWAPS (SETTINGS (config self))) ->
  (forall n, exists v, script n = Ok v) ->
  exists s',
    izumi_swaps_loop env self (scripted script) swap_nums s = (Ok true, s') /\
    op_calls s' = op_calls s + length swap_nums /\
    count is_invoke (trace s') = count is_invoke (trace s) + length swap_nums /\
    count is_sleep (trace s') = count is_sleep (trace s) + length swap_nums /\
    rng_pos s' = rng_pos s + 2 * length swap_nums.
Proof.
  intros Hk Hpause Hok. revert s.
  induction swap_nums as [|num rest IH]; intros s.
  - exists s. simpl. split; [reflexivity|]. lia.
  - cbn [izumi_swaps_loop]. unfold new_swapper. rewrite Hkey.
    unfold bind at 1, ret.
    rewrite (bind_ok _ _ _ _ _ (randint_valid env _ s Hpercent)).
    set (s1 := set_rng_pos (S (rng_pos s)) s).
    destruct (Hok (op_calls s1 + (1 - 1))) as [v Hv].
    rewrite (bind_ok _ _ _ _ _
               (retry_swap_succeeds_at env (config self) script k 1 s1 v
                  HK Hpause ltac:(lia) ltac:(intros; lia) Hv)).
    destruct (IH (after_pause env (PAUSE_BETWEEN_SWAPS (SETTINGS (config self))) (after_calls 1 s1)))
      as (s' & Hloop & Hc & Hi & Hp & Hr).
    exists s'. split; [exact Hloop|]. rewrite Hc, Hi, Hp, Hr. simpl.
    rewrite !count_app. unfold count. simpl. lia.
Qed.

End IzumiSwaps.

(** X18.  [_izumi_swaps] when no call of [swapper.swap] raises (the
    ranges are not empty, [ATTEMPTS >= 1], the account can be derived):
    it draws the number of swaps [n], makes exactly [max(n, 0)] swap
    calls, each followed by one pause, and returns [True]. *)
Theorem izumi_swaps_all_done :
  forall (env : Env) (self : Start) (script : nat -> Res PyVal) (s : St)
         (k : nat),
    ATTEMPTS (SETTINGS (config self)) = Z.of_nat k ->
    1 <= k ->
    from_key env (private_key self) = None ->
    valid_range (NUMBER_OF_SWAPS (FLOW (config self))) ->
    valid_range (PERCENT_OF_BALANCE_TO_SWAP (FLOW (config self))) ->
    valid_range (PAUSE_BETWEEN_SWAPS (SETTINGS (config self))) ->
    (forall n, exists v, script n = Ok v) ->
    exists s',
      _izumi_swaps env self (scripted script) s = (Ok true, s') /\
      count is_invoke (trace s') =
        count is_invoke (trace s)
        + Z.to_nat (pause_value env (NUMBER_OF_SWAPS (FLOW (config self))) (rng_pos s)) /\
      count is_sleep (trace s') =
        count is_sleep (trace s)
        + Z.to_nat (pause_value env (NUMBER_OF_SWAPS (FLOW (config self))) (rng_pos s)).
Proof.
  intros env self script s k HK Hk Hkey Hnum Hpercent Hpause Hok.
  unfold _izumi_swaps.
  rewrite (bind_ok _ _ _ _ _ (randint_valid env _ s Hnum)).
  destruct (izumi_swaps_loop_all_done env self script k HK Hkey Hpercent
              (py_range (pause_value env (NUMBER_OF_SWAPS (FLOW (config self))) (rng_pos s)))
              (set_rng_pos (S (rng_pos s)) s) Hk Hpause Hok)
    as (s' & Hloop & _ & Hi & Hp & _).
  exists s'. split; [exact Hloop|]. rewrite Hi, Hp. unfold py_range.
  rewrite List.length_map, List.length_seq. auto.
Qed.

Lemma izumi_swaps_all_done_witness :
  exists s',
    _izumi_swaps quiet_env two_swaps_start
      (scripted (fun _ => Ok VNone)) st0 = (Ok true, s') /\
    count is_invoke (trace s') = count is_invoke (trace st0) + 2 /\
    count is_sleep (trace s') = count is_sleep (trace st0) + 2.
Proof.
  apply (izumi_swaps_all_done quiet_env two_swaps_start _ st0 1
           eq_refl);
    try (unfold valid_range; simpl; lia).
  - reflexivity.
  - intros n. eexists. reflexivity.
Defined.

(** X19.  [_izumi_swaps] when every call of [swapper.swap] raises: the
    first swap uses up its [ATTEMPTS] calls and the handler returns
    [False] at once, so the remaining swaps of the drawn number are not
    tried; when the drawn number is not positive it returns [True]
    without a call. *)
Theorem izumi_swaps_stop_at_failure :
  forall (env : Env) (self : Start) (script : nat -> Res PyVal) (s : St)
         (k : nat),
    ATTEMPTS (SETTINGS (config self)) = Z.of_nat k ->
    from_key env (private_key self) = None ->
    valid_range (NUMBER_OF_SWAPS (FLOW (config self))) ->
    valid_range (PERCENT_OF_BALANCE_TO_SWAP (FLOW (config self))) ->
    (forall n, exists e, script n = Raise e) ->
    _izumi_swaps env self (scripted script) s =
    if (pause_value env (NUMBER_OF_SWAPS (FLOW (config self))) (rng_pos s) <=? 0)%Z
    then (Ok true, set_rng_pos (S (rng_pos s)) s)
    else (Ok false, after_calls k (set_rng_pos (S (S (rng_pos s))) s)).
Proof.
  intros env self script s k HK Hkey Hnum Hpercent Hfail.
  unfold _izumi_swaps.
  rewrite (bind_ok _ _ _ _ _ (randint_valid env _ s Hnum)).
  set (n := pause_value env (NUMBER_OF_SWAPS (FLOW (config self))) (rng_pos s)).
  unfold py_range. destruct (Z.leb_spec n 0) as [Hn|Hn].
  - replace (Z.to_nat n) with 0 by lia. reflexivity.
  - replace (Z.to_nat n) with (S (Z.to_nat n - 1)) by lia.
    cbn [seq map izumi_swaps_loop]. unfold new_swapper. rewrite Hkey.
    unfold bind at 1, ret.
    rewrite (bind_ok _ _ _ _ _ (randint_valid env _ _ Hpercent)).
    rewrite (bind_ok _ _ _ _ _
               (retry_swap_all_fail env (config self) script k _ HK
                  ltac:(intros; left; apply Hfail))).
    reflexivity.
Qed.

Lemma izumi_swaps_stop_at_failure_witness :
  _izumi_swaps quiet_env two_swaps_start
    (scripted (fun _ => Raise (ExternalError "rpc"))) st0
  = (Ok false, mkSt [EInvoke 0] 2 1 0 0 0 None empty_ledger empty_ledger).
Proof.
  apply (izumi_swaps_stop_at_failure quiet_env two_swaps_start _ st0 1
           eq_refl);
    try (unfold valid_range; simpl; lia).
  - reflexivity.
  - intros n. eexists. reflexivity.
Defined.

Lemma collect_loop_cons env config retry rest s :
  collect_loop env config (retry :: rest) s =
  if decide (valid_range (PAUSE_BETWEEN_ATTEMPTS (SETTINGS config)))
  then collect_loop env config rest
         (after_pause env (PAUSE_BETWEEN_ATTEMPTS (SETTINGS config)) s)
  else (Raise ValueError, s).
Proof.
  cbn [collect_loop]. unfold bind at 1, try_except, raise.
  destruct (decide _) as [Hr|Hr].
  - now rewrite (bind_ok _ _ _ _ _ (randint_valid env _ s Hr)).
  - now rewrite (bind_raise _ _ _ _ _ (randint_empty env _ s Hr)).
Qed.

Lemma collect_loop_result env config retries s :
  exists s',
    (collect_loop env config retries s = (Ok false, s') \/
     collect_loop env config retries s = (Raise ValueError, s')) /\
    op_calls s' = op_calls s /\
    count is_sleep (trace s') <= count is_sleep (trace s) + length retries.
Proof.
  revert s. induction retries as [|retry rest IH]; intros s.
  - exists s. simpl. split; [now left|]. split; lia.
  - rewrite collect_loop_cons. destruct (decide _) as [Hr|Hr].
    + destruct (IH (after_pause env
                      (PAUSE_BETWEEN_ATTEMPTS (SETTINGS config)) s))
        as (s' & Hres & Hc & Hp).
      exists s'. split; [exact Hres|]. split; [exact Hc|].
      simpl in Hp. rewrite count_app in Hp. unfold count in *. simpl in *.
      lia.
    + exists s. split; [now right|]. split; lia.
Qed.

(** X20.  [swaps] never lets an exception out and, for four kinds of
    type, never reaches a swapper: an unknown type returns [False] at
    once; the types ambient and bean return [False] as soon as the drawn
    number of swaps is positive, because instance.py does not import
    their classes; and the type collect_all_to_monad returns [False] on
    every configuration, after at most [ATTEMPTS] pauses. *)
Theorem swaps_without_swapper :
  forall (env : Env) (self : Start) (swap : M PyVal) (s : St),
    (forall type,
       type <> "swaps" -> type <> "ambient" -> type <> "bean" ->
       type <> "izumi" -> type <> "collect_all_to_monad" ->
       swaps env self swap type s = (Ok false, s)) /\
    (forall type,
       type = "ambient" \/ type = "bean" ->
       valid_range (NUMBER_OF_SWAPS (FLOW (config self))) ->
       swaps env self swap type s =
       (Ok (pause_value env (NUMBER_OF_SWAPS (FLOW (config self))) (rng_pos s) <=? 0)%Z,
        set_rng_pos (S (rng_pos s)) s)) /\
    (exists s',
       swaps env self swap "collect_all_to_monad" s = (Ok false, s') /\
       op_calls s' = op_calls s /\
       (Z.of_nat (count is_sleep (trace s'))
        <= Z.of_nat (count is_sleep (trace s))
           + Z.max 0 (ATTEMPTS (SETTINGS (config self))))%Z).
Proof.
  intros env self swap s. split; [|split].
  - intros type H1 H2 H3 H4 H5. unfold swaps.
    apply String.eqb_neq in H1, H2, H3, H4, H5.
    now rewrite H1, H2, H3, H4, H5.
  - intros type Ht Hnum.
    assert (Hun : forall dex,
              try_except (undefined_dex_swaps env self dex)
                         (fun _ => ret false) s =
              (Ok (pause_value env (NUMBER_OF_SWAPS (FLOW (config self))) (rng_pos s) <=? 0)%Z,
               set_rng_pos (S (rng_pos s)) s)).
    { intros dex. unfold try_except, undefined_dex_swaps.
      rewrite (bind_ok _ _ _ _ _ (randint_valid env _ s Hnum)).
      unfold py_range.
      destruct (Z.leb_spec (pause_value env (NUMBER_OF_SWAPS (FLOW (config self))) (rng_pos s)) 0)
        as [Hn|Hn].
      - replace (Z.to_nat _) with 0 by lia. reflexivity.
      - replace (Z.to_nat (pause_value env (NUMBER_OF_SWAPS (FLOW (config self))) (rng_pos s)))
          with (S (Z.to_nat (pause_value env (NUMBER_OF_SWAPS (FLOW (config self)))
                               (rng_pos s)) - 1)) by lia.
        reflexivity. }
    destruct Ht as [->| ->]; unfold swaps; simpl; apply Hun.
  - unfold swaps. simpl. unfold try_except, _collect_all_to_monad.
    destruct (collect_loop_result env (config self)
                (py_range (ATTEMPTS (SETTINGS (config self)))) s)
      as (s' & [Hres|Hres] & Hc & Hp); rewrite Hres; exists s';
      (split; [reflexivity|]); (split; [assumption|]);
      unfold py_range in Hp;
      rewrite List.length_map, List.length_seq in Hp; lia.
Qed.

Lemma swaps_without_swapper_witness :
  swaps quiet_env two_swaps_start
    (scripted (fun _ => Ok VNone)) "ambient" st0
  = (Ok false, set_rng_pos 1 st0).
Proof.
  refine (proj1 (proj2 (swaps_without_swapper quiet_env two_swaps_start
                          (scripted (fun _ => Ok VNone)) st0))
            "ambient" _ _).
  - now left.
  - unfold valid_range. simpl. lia.
Defined.

(** ** Edge cases of the cycler and of the executor's pause *)

(** X21.  [_cycle_list] on an empty source: [i % len(items)] divides by
    zero for the first position, so the call raises [ZeroDivisionError]
    whenever a positive length is asked for; for a length that is not
    positive it returns the empty list and never looks at the source. *)
Theorem cycle_list_empty_source :
  forall (A : Type) (items : list A) (n : Z),
    ((n <= 0)%Z -> _cycle_list items n = Ok []) /\
    ((0 < n)%Z -> _cycle_list (@nil A) n = Raise ZeroDivisionError).
Proof.
  intros A items n. unfold _cycle_list, py_range. split; intros Hn.
  - replace (Z.to_nat n) with 0 by lia. reflexivity.
  - replace (Z.to_nat n) with (S (Z.to_nat n - 1)) by lia. reflexivity.
Qed.

Lemma cycle_list_empty_source_witness :
  _cycle_list (@nil string) 3 = Raise ZeroDivisionError.
Proof. apply (proj2 (cycle_list_empty_source string [] 3)). lia. Defined.

(** X22.  The retry executor with an empty pause range: the pause is only
    drawn after a failed attempt that is not the last one, so with one
    attempt the range is never used, and with two or more attempts a
    first failure makes [random.randint] raise [ValueError]: the executor
    is left after a single invocation of the operation. *)
Theorem retry_executor_empty_pause_range :
  forall (env : Env) (config : Config) (script : nat -> Res PyVal) (s : St)
         (k : nat) (v : PyVal),
    ATTEMPTS (SETTINGS config) = Z.of_nat k ->
    (1 <= k)%nat ->
    ~ valid_range (PAUSE_BETWEEN_ATTEMPTS (SETTINGS config)) ->
    script (op_calls s) = Ok v ->
    failed_result v ->
    _execute_with_retries env (scripted script) config s =
    (if (k =? 1)%nat then Ok false else Raise ValueError, after_calls 1 s).
Proof.
  intros env config script s k v HK Hk Hrange Hv Hf.
  apply is_success_failed in Hf.
  unfold _execute_with_retries. rewrite HK, py_range_of_nat.
  replace k with (S (k - 1)) at 1 by lia. rewrite attempts_from_cons.
  cbn [retry_loop]. unfold bind at 1.
  rewrite scripted_after_calls, Hv. unfold bind at 1, lift. rewrite Hf.
  unfold bind at 1. rewrite HK.
  destruct (Nat.eqb_spec k 1) as [->|Hne].
  - reflexivity.
  - destruct (Z.ltb_spec (Z.of_nat 0) (Z.of_nat k - 1)); [|lia].
    unfold bind at 1. now rewrite (randint_empty env _ _ Hrange).
Qed.

Lemma retry_executor_empty_pause_range_witness :
  _execute_with_retries quiet_env (scripted (fun _ => Ok (VBool false)))
    (mkConfig (mkSettings 1 3 (0, 0)%Z [] (10, 5)%Z (5, 10)%Z (5, 15)%Z (1, 3)%Z
                          (5, 10)%Z) (example_flow []))
    st0
  = (Raise ValueError, after_calls 1 st0).
Proof.
  apply (retry_executor_empty_pause_range quiet_env
           (mkConfig (mkSettings 1 3 (0, 0)%Z [] (10, 5)%Z (5, 10)%Z (5, 15)%Z (1, 3)%Z
                                 (5, 10)%Z) (example_flow []))
           (fun _ => Ok (VBool false)) st0 3 (VBool false) eq_refl).
  - lia.
  - unfold valid_range. simpl. lia.
  - reflexivity.
  - apply is_success_failed. reflexivity.
Defined.

(** ** process.py: a negative number of threads *)

(** X24.  With a negative [THREADS] the constructor of the semaphore
    raises [ValueError]: [start] has selected and shuffled the accounts
    by then, but creates no task, whatever the token and e-mail files
    hold. *)
Theorem start_negative_threads :
  forall (env : Env) (config : Config)
         (proxies private_keys discord_file emails_file : list string)
         (s s1 : St) (info : AccountsInfo),
    proxies <> [] ->
    private_keys <> [] ->
    (THREADS (SETTINGS config) < 0)%Z ->
    _get_accounts_to_process env config private_keys s = (Ok info, s1) ->
    accounts info <> [] ->
    start env config proxies private_keys discord_file emails_file s
    = (Raise ValueError, s1).
Proof.
  intros env config proxies private_keys discord_file emails_file s s1 info
         Hp Hk Hthreads Hsel Hacc.
  unfold start. destruct proxies as [|p proxies'] eqn:Ep; [congruence|].
  rewrite <- Ep in *. destruct private_keys as [|k keys']; [congruence|].
  rewrite (bind_ok _ _ _ _ _ Hsel).
  destruct (accounts info) as [|acc rest] eqn:Eacc; [congruence|].
  rewrite <- Eacc in *. clear Eacc.
  destruct (cycle_list_ok proxies (Z.of_nat (length (accounts info))) Hp)
    as (cycled & Hc & _).
  unfold lift at 1. unfold bind at 1. rewrite Hc. unfold new_Semaphore.
  destruct (Z.ltb_spec (THREADS (SETTINGS config)) 0); [reflexivity|lia].
Qed.

Lemma start_negative_threads_witness :
  start quiet_env
    (mkConfig (mkSettings (-1) 3 (0, 0)%Z [2; 5]%Z (5, 10)%Z (5, 10)%Z
                          (5, 15)%Z (1, 3)%Z (5, 10)%Z) (example_flow []))
    ["p1"] ten_keys ["t1"] [] st0
  = (Raise ValueError, set_rng_pos 1 st0).
Proof.
  apply (start_negative_threads quiet_env
           (mkConfig (mkSettings (-1) 3 (0, 0)%Z [2; 5]%Z (5, 10)%Z (5, 10)%Z
                                 (5, 15)%Z (1, 3)%Z (5, 10)%Z)
                     (example_flow []))
           ["p1"] ten_keys ["t1"] [] st0 _
           (mkAccountsInfo ["k5"; "k2"] 2 5 "3 2"));
    try discriminate.
  - simpl. lia.
  - reflexivity.
Defined.

(** ** process.py: a report that cannot write its record *)

Lemma account_flow_split env index proxy key token email config s :
  account_flow env index proxy key token email config s =
  try_except
    (success <- executors env index proxy key token email config ;;
     (if success : bool then report_success else report_error)
       env proxy token (Some index) ;;;
     _random_sleep env (RANDOM_PAUSE_BETWEEN_ACCOUNTS (SETTINGS config)))
    (fun _ => report_error env proxy token (Some index)) s.
Proof.
  unfold account_flow, executors, try_except. f_equal. unfold bind.
  destruct (_random_sleep env _ s) as [[[]|e0] s0]; [|reflexivity].
  destruct (new_Start index proxy key token email config s0)
    as [[instance|e1] s1]; [|reflexivity].
  destruct (_execute_with_retries env (initialize env instance) config s1)
    as [[success|e2] s2]; [|reflexivity].
  destruct (_execute_with_retries env (flow env instance) config s2)
    as [[flowed|e3] s3]; reflexivity.
Qed.

(** With a range of pauses between the attempts that is not empty, the
    executor returns for an operation that returns a boolean. *)
Lemma retry_loop_returns env function config attempts s :
  valid_range (PAUSE_BETWEEN_ATTEMPTS (SETTINGS config)) ->
  (forall s, exists b s', function s = (Ok (VBool b), s')) ->
  exists r s', retry_loop env function config attempts s = (Ok r, s').
Proof.
  intros Hrange Hf. revert s.
  induction attempts as [|attempt rest IH]; intros s.
  - eexists _, _. reflexivity.
  - destruct (Hf s) as ([|] & s1 & Hs1).
    + eexists _, _. exact (retry_loop_success _ _ _ _ _ _ _ _ Hs1 eq_refl).
    + rewrite (retry_loop_failure _ _ _ _ _ _ _ _ Hrange Hs1 eq_refl).
      apply IH.
Qed.

Lemma executors_return env index proxy key token email config s :
  valid_range (RANDOM_INITIALIZATION_PAUSE (SETTINGS config)) ->
  valid_range (PAUSE_BETWEEN_ATTEMPTS (SETTINGS config)) ->
  exists b s', executors env index proxy key token email config s = (Ok b, s').
Proof.
  intros Hinit Hrange. unfold executors.
  rewrite (bind_ok _ _ _ _ _ (random_sleep_eq env _ s Hinit)).
  unfold new_Start. unfold bind at 1, modify. unfold bind at 1, ret.
  set (self := mkStart index proxy key token email config).
  set (s0 := set_session None _).
  destruct (retry_loop_returns env (initialize env self) config
              (py_range (ATTEMPTS (SETTINGS config))) s0 Hrange
              (initialize_never_raises env self)) as (r1 & s1 & H1).
  destruct (retry_loop_returns env (flow env self) config
              (py_range (ATTEMPTS (SETTINGS config))) s1 Hrange
              (flow_never_raises env self)) as (r2 & s2 & H2).
  exists (r1 && r2), s2.
  unfold _execute_with_retries, bind. now rewrite H1, H2.
Qed.

(** A reporter whose [j]-th call into the file system is the first that
    raises. *)
Lemma report_raises env (b : bool) proxy token index s j e :
  j < report_calls proxy token ->
  (forall i, i < j -> ledger_io env (io_calls s + i) = None) ->
  ledger_io env (io_calls s + j) = Some e ->
  exists s',
    (if b then report_success else report_error) env proxy token index s
    = (Raise e, s') /\
    trace s' = trace s ++ [EReport b index] /\
    io_calls s' = io_calls s + j + 1.
Proof.
  intros Hj Hok He.
  assert (H0 : 0 < j -> ledger_io env (io_calls s) = None).
  { intros H. rewrite <- (Nat.add_0_r (io_calls s)). now apply Hok. }
  assert (H1 : 1 < j -> ledger_io env (S (io_calls s)) = None).
  { intros H. replace (S (io_calls s)) with (io_calls s + 1) by lia.
    now apply Hok. }
  assert (H2 : 2 < j -> ledger_io env (S (S (io_calls s))) = None).
  { intros H. replace (S (S (io_calls s))) with (io_calls s + 2) by lia.
    now apply Hok. }
  unfold report_calls in Hj.
  destruct b; rewrite ?report_success_step, ?report_error_step; cbv zeta;
    unfold files_data; rewrite !write_files_cons, index_line_nonempty;
    cbn [io_calls set_io_calls set_trace update_success_data
         update_error_data set_success_data set_error_data];
    destruct j as [|[|[|[|j]]]];
    rewrite ?Nat.add_0_r in He;
    replace (io_calls s + 1) with (S (io_calls s)) in He by lia;
    replace (io_calls s + 2) with (S (S (io_calls s))) in He by lia;
    replace (io_calls s + 3) with (S (S (S (io_calls s)))) in He by lia;
    rewrite ?H0, ?H1, ?H2 by lia;
    destruct (String.eqb proxy ""), (String.eqb token "");
    simpl in Hj; try lia;
    cbn [write_files];
    rewrite ?He; (eexists; split; [reflexivity|]; simpl; split; [reflexivity|lia]).
Qed.

(** X25.  A report that cannot write its record is followed by a second
    report.  With pause ranges that are not empty, whatever the executor
    runs returned: when the [j]-th call into the file system of the
    report made in the [try] block raises, the handler of [account_flow]
    reports the account again, as failed.  If that second report can
    write its record the pipeline returns after two reports; if its
    [os.makedirs] raises as well, that exception leaves [account_flow]. *)
Theorem pipeline_report_raises :
  forall (env : Env) (index : Z) (proxy key token email : string)
         (config : Config) (s : St) (j : nat) (e1 : Exn),
    valid_range (RANDOM_INITIALIZATION_PAUSE (SETTINGS config)) ->
    valid_range (PAUSE_BETWEEN_ATTEMPTS (SETTINGS config)) ->
    j < report_calls proxy token ->
    (forall i, i < j -> ledger_io env (io_calls s + i) = None) ->
    ledger_io env (io_calls s + j) = Some e1 ->
    ((forall i, i < 4 -> ledger_io env (io_calls s + j + 1 + i) = None) ->
     exists b s',
       account_flow env index proxy key token email config s = (Ok tt, s') /\
       reports (trace s') =
         reports (trace s) ++ [(b, Some index); (false, Some index)]) /\
    (forall e2,
       ledger_io env (io_calls s + j + 1) = Some e2 ->
       exists b s',
         account_flow env index proxy key token email config s
         = (Raise e2, s') /\
         reports (trace s') =
           reports (trace s) ++ [(b, Some index); (false, Some index)]).
Proof.
  intros env index proxy key token email config s j e1 Hinit Hrange Hj Hok He1.
  destruct (executors_return env index proxy key token email config s
              Hinit Hrange) as (b & s1 & Hex).
  destruct (appends_executors not_report ltac:(reflexivity)
              ltac:(reflexivity) ltac:(reflexivity) ltac:(reflexivity)
              eq_refl eq_refl ltac:(reflexivity) env index proxy key token
              email config s) as (rest & Ht & Hp & _ & _ & Hio).
  rewrite Hex in Ht, Hio. simpl in Ht, Hio.
  apply reports_not_report in Hp.
  destruct (report_raises env b proxy token (Some index) s1 j e1 Hj)
    as (s2 & Hrep & Ht2 & Hio2).
  { intros i Hi. rewrite Hio. now apply Hok. }
  { now rewrite Hio. }
  assert (Hrun : forall r s3,
            report_error env proxy token (Some index) s2 = (r, s3) ->
            account_flow env index proxy key token email config s = (r, s3)).
  { intros r s3 H3. rewrite account_flow_split. unfold try_except.
    rewrite (bind_ok _ _ _ _ _ Hex).
    assert (Hb : (if b then report_success else report_error) env proxy token
                   (Some index) s1 = (Raise e1, s2)) by (destruct b; exact Hrep).
    destruct b; rewrite (bind_raise _ _ _ _ _ Hb); exact H3. }
  split.
  - intros Hw. exists b. eexists. split.
    + apply Hrun. apply report_error_eq.
      intros i Hi. rewrite Hio2, Hio. now apply Hw.
    + simpl. rewrite Ht2, Ht, !reports_app, Hp. simpl.
      now rewrite app_nil_r, <- app_assoc.
  - intros e2 He2.
    destruct (report_raises env false proxy token (Some index) s2 0 e2)
      as (s3 & Hrep3 & Ht3 & _).
    { unfold report_calls. lia. }
    { intros i Hi. lia. }
    { now rewrite Nat.add_0_r, Hio2, Hio. }
    exists b, s3. split; [apply Hrun; exact Hrep3|].
    rewrite Ht3, Ht2, Ht, !reports_app, Hp. simpl.
    now rewrite app_nil_r, <- app_assoc.
Qed.

(** Witness of X25: a file system that refuses every call. *)
Lemma pipeline_report_raises_witness :
  exists b s',
    account_flow read_only_env 7 example_proxy example_key "d" "e"
      (example_config 3 [Single "izumi"]) st0
    = (Raise (ExternalError "PermissionError"), s') /\
    reports (trace s') =
      reports (trace st0) ++ [(b, Some 7%Z); (false, Some 7%Z)].
Proof.
  refine (proj2 (pipeline_report_raises read_only_env 7 example_proxy
                   example_key "d" "e" (example_config 3 [Single "izumi"])
                   st0 0 (ExternalError "PermissionError") _ _ _ _ _)
            (ExternalError "PermissionError") _);
    try (unfold valid_range, report_calls; simpl; lia); reflexivity.
Defined.
